(** * ScoutLoot maintenance scripts: a shallow embedding

    The repository is a set of Python patch scripts.  Each script rewrites
    files of a deployed web application by string substitution, and the text
    it inserts is JavaScript / TypeScript: browser handlers and Express
    routes.  Two layers are embedded here:

    - the Python layer: [str.replace], the [in] test, the regular
      expressions the scripts use with [re.sub], and the scripts' [main]
      functions over a file system (a finite map from paths to file
      contents);
    - the inserted JavaScript layer: the bulk-condition route, the user
      settings route, the forgot-password handler, the currency-symbol
      helper and the settings loader, as functions over JSON values.

    Strings are byte strings (UTF-8 for text outside ASCII).  The database
    behind a route is its table and a flag saying whether it answers.  The
    file system comes twice: [Sys] is a disk of text files on which a read
    fails on a missing file only and a write succeeds; [TextIO] adds files
    that do not decode, line ends as a read in text mode hands them over,
    and writes that fail, for the runs in which the scripts meet them. *)

From Stdlib Require Import ZArith Ascii String List Bool Lia.
From stdpp Require Import base tactics option list gmap strings.

Set Warnings "-register-all".
Local Open Scope Z_scope.

(* ===================================================================== *)
(** * Part I: definitions                                                 *)
(* ===================================================================== *)

(** ** JavaScript values *)

Module JS.

(** A JSON value.  [undefined] is not a JSON value: a position that may
    hold it has type [option json], with [None] for [undefined].  Numbers
    are the integers, which is all the embedded code stores in them. *)
Inductive json : Type :=
| JNull
| JBool (b : bool)
| JNum (n : Z)
| JStr (s : string)
| JArr (items : list json)
| JObj (fields : list (string * json)).

(** Own-property lookup in a property list: the first entry under the key. *)
Fixpoint assoc (k : string) (fields : list (string * json)) : option json :=
  match fields with
  | [] => None
  | (k', v) :: rest => if String.eqb k k' then Some v else assoc k rest
  end.

(** [ToBoolean]: [undefined], [null], [false], [0] and the empty string are
    falsy, everything else (every array and object too) is truthy. *)
Definition truthy (v : option json) : bool :=
  match v with
  | None | Some JNull => false
  | Some (JBool b) => b
  | Some (JNum n) => negb (n =? 0)
  | Some (JStr s) => negb (String.eqb s EmptyString)
  | Some (JArr _) | Some (JObj _) => true
  end.

(** [a || b] on values. *)
Definition or_else (a : option json) (b : json) : json :=
  match a with
  | Some v => if truthy a then v else b
  | None => b
  end.

(** [a ?? b]: only [undefined] and [null] give way to the default. *)
Definition nullish (a : option json) (b : json) : json :=
  match a with
  | None | Some JNull => b
  | Some v => v
  end.

(** [['x', 'y'].includes(v)] for an array literal of strings (SameValueZero:
    only a string equals a string). *)
Definition includes (xs : list string) (v : option json) : bool :=
  match v with
  | Some (JStr s) => existsb (String.eqb s) xs
  | _ => false
  end.

(** [v.k]: reading a property of [null] throws ([None]); of an object it is
    the own property or [undefined]; of any other value, [undefined]. *)
Definition property (v : json) (k : string) : option (option json) :=
  match v with
  | JNull => None
  | JObj fields => Some (assoc k fields)
  | _ => Some None
  end.

(** A decimal digit's value: the characters 0x30..0x39. *)
Definition digit (c : ascii) : option Z :=
  let n := nat_of_ascii c in
  if ((48 <=? n)%nat && (n <=? 57)%nat)%bool then Some (Z.of_nat (n - 48))
  else None.

(** The one-byte members of [StrWhiteSpaceChar]: TAB, LF, VT, FF, CR, SP. *)
Definition ws1 (c : ascii) : bool :=
  match c with
  | "009" | "010" | "011" | "012" | "013" | " " => true
  | _ => false
  end%char.

(** Third byte of a white-space character encoded [E2 80 xx]:
    U+2000..U+200A, U+2028, U+2029, U+202F. *)
Definition ws_e2_80 (c : ascii) : bool :=
  let n := nat_of_ascii c in
  ((128 <=? n)%nat && (n <=? 138)%nat)
  || (n =? 168)%nat || (n =? 169)%nat || (n =? 175)%nat.

(** Step 2 of [parseInt]: drop leading [StrWhiteSpaceChar]s.  Beyond the
    one-byte ones these are U+00A0, U+1680, U+2000..U+200A, U+2028, U+2029,
    U+202F, U+205F, U+3000 and U+FEFF, matched here in their UTF-8 form. *)
Fixpoint trimStart (s : string) : string :=
  match s with
  | EmptyString => s
  | String c r =>
    if ws1 c then trimStart r
    else
      match c, r with
      | "194"%char, String "160"%char r' => trimStart r'
      | "225"%char, String "154"%char (String "128"%char r') => trimStart r'
      | "226"%char, String "128"%char (String d r') =>
        if ws_e2_80 d then trimStart r' else s
      | "226"%char, String "129"%char (String "159"%char r') => trimStart r'
      | "227"%char, String "128"%char (String "128"%char r') => trimStart r'
      | "239"%char, String "187"%char (String "191"%char r') => trimStart r'
      | _, _ => s
      end
  end.

(** The value of the longest prefix of decimal digits, most significant
    digit first. *)
Fixpoint digits (acc : Z) (s : string) : Z :=
  match s with
  | EmptyString => acc
  | String c r =>
    match digit c with
    | Some d => digits (10 * acc + d) r
    | None => acc
    end
  end.

(** [parseInt(s, 10)]: white space, an optional sign, then as many decimal
    digits as there are; [None] is [NaN] (no digit).  Radix 10 strips no
    [0x].  The result is exact here; a JavaScript Number is exact up to
    2^53 in magnitude, see [safe_integer]. *)
Definition parseInt (s : string) : option Z :=
  let t := trimStart s in
  let '(sign, u) :=
    match t with
    | String "-"%char r => (-1, r)
    | String "+"%char r => (1, r)
    | _ => (1, t)
    end in
  match u with
  | EmptyString => None
  | String c _ =>
    match digit c with
    | Some _ => Some (sign * digits 0 u)
    | None => None
    end
  end.

(** [Number.isSafeInteger]: the integers a Number holds exactly. *)
Definition safe_integer (n : Z) : Prop := Z.abs n <= 2 ^ 53 - 1.

End JS.

(** ** The bulk-condition route (v29_patch.py, [new_endpoint])

    [router.patch('/bulk-condition/:userId', ...)] of watches.ts, with the
    [watches] table and the one SQL statement the route sends. *)

Module Watches.
Import JS.

(** A row of [watches]: the columns the statement reads or writes, and the
    item the watch is on. *)
Record watch : Type := Watch {
  id : Z;
  user_id : Z;
  item_id : string;
  condition : string;
  status : string;
  updated_at : Z
}.

(** The store behind [query]: the table, and whether the database answers
    (a [query] that cannot reach it rejects). *)
Record database : Type := Database {
  watches : list watch;
  reachable : bool
}.

(** [WHERE user_id = $2 AND status = 'active'] *)
Definition selected (uid : Z) (w : watch) : bool :=
  (user_id w =? uid) && String.eqb (status w) "active".

(** [SET condition = $1, updated_at = NOW()] *)
Definition assign (c : string) (now : Z) (w : watch) : watch :=
  {| id := id w; user_id := user_id w; item_id := item_id w;
     condition := c; status := status w; updated_at := now |}.

(** [UPDATE watches SET condition = $1, updated_at = NOW()
     WHERE user_id = $2 AND status = 'active'] with parameters
    [[condition, userId]]: the table afterwards and [rowCount], the number
    of rows the statement matched and rewrote. *)
Definition update_condition (c : string) (uid now : Z) (rows : list watch)
  : list watch * Z :=
  (map (fun w => if selected uid w then assign c now w else w) rows,
   Z.of_nat (length (filter (fun w => selected uid w = true) rows))).

(** [await query(sql, params)]: [None] when the promise rejects. *)
Definition query (c : string) (uid now : Z) (db : database)
  : option (database * Z) :=
  if reachable db then
    let '(rows, n) := update_condition c uid now (watches db) in
    Some ({| watches := rows; reachable := reachable db |}, n)
  else None.

(** What the route sees of a request: [req.params.userId] and [req.body]
    (the parsed JSON object). *)
Record request : Type := Request {
  userId : string;
  body : list (string * json)
}.

(** [res.status(code).json(payload)]; [res.json] alone answers 200. *)
Inductive response : Type :=
| Response (code : Z) (payload : json).

Definition error (code : Z) (msg : string) : response :=
  Response code (JObj [("error", JStr msg)]).

(** The route handler.  [now] is the database clock at the call.  Past
    the two guards [condition] is one of the three strings; the last branch
    is there for the match to be total. *)
Definition bulk_condition (now : Z) (req : request) (db : database)
  : database * response :=
  match parseInt (userId req) with
  | None => (db, error 400 "Invalid user ID")
  | Some uid =>
    let cond := assoc "condition" (body req) in
    if negb (truthy cond) || negb (includes ["new"; "used"; "any"] cond)
    then (db, error 400 "Invalid condition. Must be: new, used, or any")
    else
      match cond with
      | Some (JStr c) =>
        match query c uid now db with
        | Some (db', n) =>
          (db', Response 200 (JObj [("success", JBool true);
                                    ("updated", JNum n);
                                    ("condition", JStr c)]))
        | None => (db, error 500 "Failed to update watches")
        end
      | _ => (db, error 500 "Failed to update watches")
      end
  end.

(** A numeric user id in the plain sense of the word: a decimal numeral,
    that is an optional sign and then digits only, at least one. *)
Definition all_digits (s : string) : bool :=
  forallb (fun c => bool_decide (is_Some (digit c))) (list_ascii_of_string s).

Definition decimal_numeral (s : string) : bool :=
  match s with
  | String "-"%char r | String "+"%char r =>
    negb (String.eqb r EmptyString) && all_digits r
  | _ => negb (String.eqb s EmptyString) && all_digits s
  end.

(** Sample data: user 12 has one active and one paused watch, user 7 one
    active watch. *)
Definition sample_db : database :=
  {| watches :=
       [ Watch 1 12 "75192" "used" "active" 100;
         Watch 2 12 "sw0001" "any" "paused" 100;
         Watch 3 7 "10294" "any" "active" 100 ];
     reachable := true |}.

Definition sample_request (uid c : string) : request :=
  {| userId := uid; body := [("condition", JStr c)] |}.

End Watches.

(** ** The forgot-password handler ([handleForgotPassword])

    The same function text is inserted by fix_password_reset_js.py
    ([JS_FUNCTIONS]) and by patch_password_reset.py ([js_code]). *)

Module ForgotPassword.
Import JS.

(** What the page does that the person in front of it can observe, in the
    order the handler does it. *)
Inductive ui : Type :=
| PreventDefault
| ButtonText (text : string)     (* submitBtn.textContent = text *)
| ButtonDisabled (b : bool)      (* submitBtn.disabled = b *)
| CloseModal (name : string)     (* closeModal(name) *)
| Toast (msg : json) (kind : string)   (* showToast(msg, kind) *)
| ClearEmail                     (* the forgot-email field is set to '' *)
| ConsoleError (label : string). (* console.error(label, error) *)

(** How [await fetch(...)] followed by [await response.json()] ends:
    both awaits are inside the [try], so a network failure and a body that
    is not JSON end the same way, in the [catch]. *)
Inductive reply : Type :=
| Rejected
| Replied (ok : bool) (data : json).

Definition generic_success : string :=
  "If an account exists, a reset link has been sent to your email.".

Definition on_catch : list ui :=
  [ConsoleError "Forgot password error:";
   Toast (JStr "Failed to send reset email") "error"].

(** The body of the [try] after the two awaits. *)
Definition on_reply (ok : bool) (data : json) : list ui :=
  if ok then
    [CloseModal "forgot-password"; Toast (JStr generic_success) "success";
     ClearEmail]
  else
    match property data "error" with
    | None => on_catch
    | Some e => [Toast (or_else e (JStr "Failed to send reset email")) "error"]
    end.

(** [handleForgotPassword(event)]: the e-mail in the form field, the text
    on the submit button and how the request ends, to the body posted to
    /api/users/forgot-password and what the page does. *)
Definition handleForgotPassword (email originalText : string) (r : reply)
  : json * list ui :=
  (JObj [("email", JStr email)],
   [PreventDefault; ButtonText "Sending..."; ButtonDisabled true]
   ++ match r with
      | Rejected => on_catch
      | Replied ok data => on_reply ok data
      end
   ++ [ButtonText originalText; ButtonDisabled false]).

End ForgotPassword.

(** ** The currency helpers of v30_frontend_patch.py

    [getCurrencySymbol] (inserted into set.html) and [getUserCountry]
    (inserted into minifig.html). *)

Module Currency.
Import JS.

(** The item under ['scoutloot_user'] as the helpers meet it: what
    [localStorage.getItem] returns and, for a non-empty string, what
    [JSON.parse] makes of it. *)
Inductive stored : Type :=
| Absent                      (* getItem returns null *)
| Blank                       (* the empty string: falsy, never parsed *)
| Garbled (text : string)     (* JSON.parse throws a SyntaxError *)
| Parsed (user : json).       (* JSON.parse returns user *)

(** How the body of a [try] block ends. *)
Inductive completion (A : Type) : Type :=
| Returns (a : A)
| FallsThrough
| Throws.
Arguments Returns {A} a.
Arguments FallsThrough {A}.
Arguments Throws {A}.

(** [String.prototype.toUpperCase] on ASCII text: a..z become A..Z. *)
Definition upper_ascii (c : ascii) : ascii :=
  let n := nat_of_ascii c in
  if ((97 <=? n)%nat && (n <=? 122)%nat)%bool then ascii_of_nat (n - 32) else c.

Fixpoint ascii_toUpperCase (s : string) : string :=
  match s with
  | EmptyString => EmptyString
  | String c r => String (upper_ascii c) (ascii_toUpperCase r)
  end.

Definition euro : string := "€".
Definition pound : string := "£".

Section Runtime.

(** [String.prototype.toUpperCase], the JavaScript runtime's. *)
Variable toUpperCase : string -> string.

(** The [try] block of [getCurrencySymbol]. *)
Definition getCurrencySymbol_try (item : stored) : completion string :=
  match item with
  | Absent | Blank => FallsThrough
  | Garbled _ => Throws
  | Parsed user =>
    match property user "ship_to_country" with
    | None => Throws
    | Some field =>
      match or_else field (JStr "") with
      | JStr s =>
        let country := toUpperCase s in
        if String.eqb country "US" then Returns "$"
        else if String.eqb country "CA" then Returns "C$"
        else if String.eqb country "GB" then Returns pound
        else FallsThrough
      | _ => Throws   (* a number, boolean, array or object has no toUpperCase *)
      end
    end
  end.

(** [getCurrencySymbol()]: [catch (e) {}] swallows, then [return '€']. *)
Definition getCurrencySymbol (item : stored) : string :=
  match getCurrencySymbol_try item with
  | Returns symbol => symbol
  | FallsThrough | Throws => euro
  end.

End Runtime.

(** The [try] block of [getUserCountry]. *)
Definition getUserCountry_try (item : stored) : completion json :=
  match item with
  | Absent | Blank => FallsThrough
  | Garbled _ => Throws
  | Parsed user =>
    match property user "ship_to_country" with
    | None => Throws
    | Some field =>
      Returns (or_else field (JStr "US"))
    end
  end.

(** [getUserCountry()]: the country sent to the history API. *)
Definition getUserCountry (item : stored) : json :=
  match getUserCountry_try item with
  | Returns country => country
  | FallsThrough | Throws => JStr "US"
  end.

(** [currencySymbol = history.symbol || '€'], the line added to
    minifig.html after the history is fetched; [None] when reading the
    property throws. *)
Definition symbol_of_history (history : json) : option json :=
  match property history "symbol" with
  | None => None
  | Some v => Some (or_else v (JStr euro))
  end.

(** A stored user whose [ship_to_country] is the given string. *)
Definition user_of (country : string) : stored :=
  Parsed (JObj [("id", JNum 1); ("ship_to_country", JStr country)]).

End Currency.

(** ** Notification preferences (patch-notification-prefs.py) *)

Module Settings.
Import JS.

(** An [<input>] of [notification_ui]: its attributes in order, [None] for
    an attribute without a value. *)
Definition input_weekly_digest : list (string * option string) :=
  [("type", Some "checkbox"); ("id", Some "settings-weekly-digest");
   ("checked", None);
   ("style", Some "width: 20px; height: 20px; accent-color: var(--accent);")].

Definition input_still_available : list (string * option string) :=
  [("type", Some "checkbox"); ("id", Some "settings-still-available");
   ("style", Some "width: 20px; height: 20px; accent-color: var(--accent);")].

(** A checkbox is checked when the page is parsed iff it carries the
    [checked] attribute. *)
Definition initially_checked (attrs : list (string * option string)) : bool :=
  existsb (fun a => String.eqb (fst a) "checked") attrs.

(** The two checkboxes of the settings view. *)
Record checkboxes : Type := Checkboxes {
  weekly_digest : bool;
  still_available : bool
}.

Definition as_parsed : checkboxes :=
  {| weekly_digest := initially_checked input_weekly_digest;
     still_available := initially_checked input_still_available |}.

(** [new_load]: the two lines added where the settings form is filled from
    [state.user].  Assigning to [.checked] converts with [ToBoolean]. *)
Definition load (user : list (string * json)) : checkboxes :=
  {| weekly_digest :=
       truthy (Some (nullish (assoc "weekly_digest_enabled" user) (JBool true)));
     still_available :=
       truthy (Some (nullish (assoc "still_available_reminders" user) (JBool false))) |}.

(** A user record from before the patch. *)
Definition old_user : list (string * json) :=
  [("id", JNum 3); ("email", JStr "kim@example.com");
   ("ship_to_country", JStr "DE"); ("timezone", JStr "Europe/Berlin")].

End Settings.

(** ** The user settings route (patch-notification-prefs.py, [new_route])

    [router.patch('/:id', ...)] of users.ts. *)

Module Users.
Import JS.

(** A row of [users] as the driver hands it over: an object with one
    property per column. *)
Abbreviation row := (list (string * json)).

(** The store behind [query]. *)
Record database : Type := Database {
  users : list row;
  reachable : bool
}.

Record request : Type := Request {
  id_param : string;            (* req.params.id *)
  body : list (string * json)   (* req.body *)
}.

Inductive response : Type :=
| Response (code : Z) (payload : json).

Definition error (code : Z) (msg : string) : response :=
  Response code (JObj [("error", JStr msg)]).

(** The columns the route may write, in the order it tests them. *)
Definition settable : list string :=
  ["ship_to_country"; "timezone"; "weekly_digest_enabled";
   "still_available_reminders"].

(** The [updates] / [values] arrays: one assignment for each field of the
    body that is not [undefined]. *)
Definition assignments (body : list (string * json)) : list (string * json) :=
  omap (fun col => match assoc col body with
                   | Some v => Some (col, v)
                   | None => None
                   end) settable.

(** [SET col = v]: the column of the row takes the value (every row carries
    every column of the table). *)
Fixpoint set_column (col : string) (v : json) (r : row) : row :=
  match r with
  | [] => []
  | (k, old) :: rest =>
    if String.eqb k col then (k, v) :: rest else (k, old) :: set_column col v rest
  end.

(** [WHERE id = $n AND deleted_at IS NULL] *)
Definition selected (id : Z) (r : row) : bool :=
  match assoc "id" r, assoc "deleted_at" r with
  | Some (JNum n), (None | Some JNull) => n =? id
  | _, _ => false
  end.

Definition apply_update (sets : list (string * json)) (now : Z) (r : row) : row :=
  set_column "updated_at" (JNum now)
    (fold_left (fun acc '(col, v) => set_column col v acc) sets r).

(** [UPDATE users SET ..., updated_at = NOW() WHERE id = $n AND deleted_at
    IS NULL RETURNING *]: the table afterwards and [result.rows], the rows
    rewritten, as they are afterwards. *)
Definition update_returning (sets : list (string * json)) (id now : Z)
    (rows : list row) : list row * list row :=
  (map (fun r => if selected id r then apply_update sets now r else r) rows,
   map (apply_update sets now) (filter (fun r => selected id r = true) rows)).

(** [await query(sql, values)]: [None] when the promise rejects. *)
Definition query (sets : list (string * json)) (id now : Z) (db : database)
  : option (database * list row) :=
  if reachable db then
    let '(rows, returned) := update_returning sets id now (users db) in
    Some ({| users := rows; reachable := reachable db |}, returned)
  else None.

(** [const { password_hash: _, ...safeUser } = row]: every own property but
    [password_hash]. *)
Definition safeUser (r : row) : row :=
  filter (fun kv => negb (String.eqb (fst kv) "password_hash") = true) r.

(** The route handler. *)
Definition patch_user (now : Z) (req : request) (db : database)
  : database * response :=
  match parseInt (id_param req) with
  | None => (db, error 400 "Invalid user ID")
  | Some id =>
    let sets := assignments (body req) in
    if (length sets =? 0)%nat then (db, error 400 "No fields to update")
    else
      match query sets id now db with
      | None => (db, error 500 "Failed to update user settings")
      | Some (db', []) => (db', error 404 "User not found")
      | Some (db', first :: _) => (db', Response 200 (JObj (safeUser first)))
      end
  end.

(** Whether a JSON object has a field. *)
Definition has_field (k : string) (v : json) : bool :=
  match v with
  | JObj fields => bool_decide (is_Some (assoc k fields))
  | _ => false
  end.

(** Sample data. *)
Definition sample_db : database :=
  {| users :=
       [ [("id", JNum 3); ("email", JStr "kim@example.com");
          ("password_hash", JStr "$2b$10$abcdefghijk");
          ("ship_to_country", JStr "DE"); ("timezone", JStr "Europe/Berlin");
          ("weekly_digest_enabled", JBool true);
          ("still_available_reminders", JBool false);
          ("updated_at", JNum 100); ("deleted_at", JNull)] ];
     reachable := true |}.

Definition sample_request : request :=
  {| id_param := "3"; body := [("still_available_reminders", JBool true)] |}.

End Users.

(** ** Python strings: [in], [str.replace], and the regular expressions of
    fix_password_reset_js.py *)

Module Py.

(** The double quote, for text that contains one. *)
Definition dq : string := String (ascii_of_nat 34) EmptyString.

(** [sub in s] *)
Fixpoint contains (sub s : string) : bool :=
  String.prefix sub s
  || match s with
     | EmptyString => false
     | String _ r => contains sub r
     end.

(** [s.replace(old, new)] for a non-empty [old], scanning left to right:
    at an occurrence of [old] emit [new] and pass over the occurrence
    ([skip] counts the characters of it still to pass), elsewhere copy one
    character. *)
Fixpoint replace_from (old new : string) (skip : nat) (s : string) : string :=
  match s with
  | EmptyString => EmptyString
  | String c r =>
    match skip with
    | S k => replace_from old new k r
    | O =>
      if String.prefix old s
      then new +:+ replace_from old new (String.length old - 1) r
      else String c (replace_from old new 0 r)
    end
  end.

(** With an empty [old], Python puts [new] before every character and at
    the end. *)
Fixpoint intersperse (new s : string) : string :=
  match s with
  | EmptyString => new
  | String c r => new +:+ String c (intersperse new r)
  end.

(** [s.replace(old, new)] *)
Definition replace (old new s : string) : string :=
  match old with
  | EmptyString => intersperse new s
  | String _ _ => replace_from old new 0 s
  end.

(** [s.count(sub)] for a non-empty [sub]: occurrences that do not
    overlap, counted from the left. *)
Fixpoint count_from (sub : string) (skip : nat) (s : string) : nat :=
  match s with
  | EmptyString => O
  | String _ r =>
    match skip with
    | S k => count_from sub k r
    | O =>
      if String.prefix sub s
      then S (count_from sub (String.length sub - 1) r)
      else count_from sub 0 r
    end
  end.

Definition count (sub s : string) : nat := count_from sub 0 s.

(** *** Regular expressions

    The patterns of fix_password_reset_js.py and patch_password_reset.py
    that are embedded here are sequences of literal text, [\s*], [=+],
    [[^>]*] and [\s*\n\s*].  In all of them what follows a [\s*] starts
    with a character that is no white space, what follows a [=+] is no [=]
    and what follows a [[^>]*] is [>], so the greedy choice is the only one
    that can match and no backtracking is involved. *)
Inductive atom : Type :=
| Lit (text : string)
| Spaces          (* \s* *)
| Equals          (* =+ *)
| NotGt           (* [^>]* *)
| SpacesNewline.  (* \s*\n\s*: a run of white space with a line feed in it *)

(** One white-space character of [\s] at the head of [s], dropped: the
    one-byte ones (TAB..CR, FS..US, SP) and, in UTF-8, U+0085, U+00A0,
    U+1680, U+2000..U+200A, U+2028, U+2029, U+202F, U+205F, U+3000. *)
Definition space1 (c : ascii) : bool :=
  let n := nat_of_ascii c in
  ((9 <=? n)%nat && (n <=? 13)%nat) || ((28 <=? n)%nat && (n <=? 32)%nat).

Definition drop_space (s : string) : option string :=
  match s with
  | EmptyString => None
  | String c r =>
    if space1 c then Some r
    else
      match c, r with
      | "194"%char, String "133"%char r' => Some r'
      | "194"%char, String "160"%char r' => Some r'
      | "225"%char, String "154"%char (String "128"%char r') => Some r'
      | "226"%char, String "128"%char (String d r') =>
        if JS.ws_e2_80 d then Some r' else None
      | "226"%char, String "129"%char (String "159"%char r') => Some r'
      | "227"%char, String "128"%char (String "128"%char r') => Some r'
      | _, _ => None
      end
  end.

(** [\s*]: what is left after the longest run of white space.  [fuel]
    bounds the characters looked at; the length of the text is enough. *)
Fixpoint drop_spaces (fuel : nat) (s : string) : string :=
  match fuel with
  | O => s
  | S k =>
    match drop_space s with
    | Some r => drop_spaces k r
    | None => s
    end
  end.

(** [=*]: what is left after the longest run of [=]. *)
Fixpoint drop_equals (s : string) : string :=
  match s with
  | String "="%char r => drop_equals r
  | _ => s
  end.

(** [[^>]*]: what is left after the longest run of characters other
    than [>]. *)
Fixpoint drop_not_gt (s : string) : string :=
  match s with
  | EmptyString => s
  | String c r => if Ascii.eqb c ">" then s else drop_not_gt r
  end.

(** The first [n] characters. *)
Fixpoint take (n : nat) (s : string) : string :=
  match n, s with
  | S k, String c r => String c (take k r)
  | _, _ => EmptyString
  end.

(** The line feed. *)
Definition nl : string := String (ascii_of_nat 10) EmptyString.

Fixpoint drop_lit (text s : string) : option string :=
  match text, s with
  | EmptyString, _ => Some s
  | String a t, String b r => if Ascii.eqb a b then drop_lit t r else None
  | String _ _, EmptyString => None
  end.

(** A match of the pattern at the head of [s]: what is left after it. *)
Fixpoint match_here (p : list atom) (s : string) : option string :=
  match p with
  | [] => Some s
  | Lit text :: p' =>
    match drop_lit text s with
    | Some r => match_here p' r
    | None => None
    end
  | Spaces :: p' => match_here p' (drop_spaces (String.length s) s)
  | Equals :: p' =>
    match s with
    | String "="%char r => match_here p' (drop_equals r)
    | _ => None
    end
  | NotGt :: p' => match_here p' (drop_not_gt s)
  | SpacesNewline :: p' =>
    let r := drop_spaces (String.length s) s in
    if contains nl (take (String.length s - String.length r) s)
    then match_here p' r
    else None
  end.

(** [re.search(p, s)] as a truth value. *)
Fixpoint search (p : list atom) (s : string) : bool :=
  match match_here p s with
  | Some _ => true
  | None =>
    match s with
    | EmptyString => false
    | String _ r => search p r
    end
  end.

(** [re.sub(p, repl, s)] where the whole pattern is group 1 and [repl]
    maps the matched text to its replacement.  The patterns here match no
    empty text. *)
Fixpoint sub_from (p : list atom) (repl : string -> string) (skip : nat)
    (s : string) : string :=
  match s with
  | EmptyString => EmptyString
  | String c r =>
    match skip with
    | S k => sub_from p repl k r
    | O =>
      match match_here p s with
      | Some rest =>
        let n := (String.length s - String.length rest)%nat in
        match n with
        | O => String c (sub_from p repl 0 r)
        | S k => repl (take n s) +:+ sub_from p repl k r
        end
      | None => String c (sub_from p repl 0 r)
      end
    end
  end.

Definition sub (p : list atom) (repl : string -> string) (s : string) : string :=
  sub_from p repl 0 s.

(** *** Texts with pieces put in

    What [re.sub] with the replacement [\1] followed by a fixed text does
    to a page, as a relation: [inserted piece s t] when [t] is [s] with
    copies of [piece] put in at some places. *)

(** [s[n:]] *)
Fixpoint drop (n : nat) (s : string) : string :=
  match n, s with
  | S k, String _ r => drop k r
  | _, _ => s
  end.

Inductive inserted (piece : string) : string -> string -> Prop :=
| inserted_nil : inserted piece "" ""
| inserted_keep c s t :
    inserted piece s t -> inserted piece (String c s) (String c t)
| inserted_put s t : inserted piece s t -> inserted piece s (piece +:+ t).

(** Two texts agree when one starts with the other. *)
Definition agree (x y : string) : bool := String.prefix x y || String.prefix y x.

(** The non-empty suffixes. *)
Fixpoint tails (s : string) : list string :=
  match s with
  | EmptyString => []
  | String _ r => s :: tails r
  end.

(** [apart p piece]: no copy of [piece] can start inside an occurrence of
    [p] or where one starts, and no occurrence of [p] can start inside a
    copy of [piece]. *)
Definition apart (p piece : string) : bool :=
  forallb (fun q => negb (agree q piece)) (tails p)
  && forallb (fun l => negb (agree p l)) (tails piece).

End Py.

(** ** The file system and the scripts' effects *)

Module Sys.

(** The files on disk: path to content.  The files here are text in the
    encoding the scripts use, with [\n] line ends, and every write goes
    through (the usage notes run the scripts as root): a read hands over
    the content as it is and raises for a path that is no file only, a
    write never fails.  Files that do not decode, other line ends and
    writes that fail are the subject of [TextIO] below. *)
Abbreviation files := (gmap string string).

Inductive exn : Type :=
| FileNotFoundError (path : string)
| SystemExit (code : Z).

(** A script step: it may change the files, and returns or raises. *)
Definition io (A : Type) : Type := files -> files * (exn + A).

#[export] Instance io_ret : MRet io := fun A a fs => (fs, inr a).

#[export] Instance io_bind : MBind io := fun A B k m fs =>
  match m fs with
  | (fs', inr a) => k a fs'
  | (fs', inl e) => (fs', inl e)
  end.

Definition raise {A} (e : exn) : io A := fun fs => (fs, inl e).

(** [os.path.exists(p)] / [p.exists()] for a file. *)
Definition exists_ (p : string) : io bool :=
  fun fs => (fs, inr (bool_decide (is_Some (fs !! p)))).

(** [d.exists()] for a directory: some file lies below it. *)
Definition dir_exists (d : string) : io bool :=
  fun fs => (fs, inr (existsb (fun kv => String.prefix (d +:+ "/") (fst kv))
                              (map_to_list fs))).

(** [open(p).read()] / [p.read_text()] *)
Definition read_text (p : string) : io string :=
  fun fs => match fs !! p with
            | Some c => (fs, inr c)
            | None => (fs, inl (FileNotFoundError p))
            end.

(** [open(p, 'w').write(c)] / [p.write_text(c)] *)
Definition write_text (p c : string) : io unit :=
  fun fs => (<[p := c]> fs, inr tt).

(** [shutil.copy(src, dst)] / [shutil.copy2(src, dst)] *)
Definition copy (src dst : string) : io unit :=
  c ← read_text src; write_text dst c.

(** [try: body / except Exception: handler]: a [SystemExit] is no
    [Exception] and passes through. *)
Definition try_except {A} (body : io A) (handler : io A) : io A :=
  fun fs => match body fs with
            | (fs', inl (FileNotFoundError _)) => handler fs'
            | r => r
            end.

(** The exit status of [exit(main())]: what [main] returns, the code of a
    [sys.exit], 1 after a traceback. *)
Definition status (r : exn + Z) : Z :=
  match r with
  | inr n => n
  | inl (SystemExit n) => n
  | inl (FileNotFoundError _) => 1
  end.

(** [os.path.join(a, b)] for a relative [b]. *)
Definition join (a b : string) : string := a +:+ "/" +:+ b.

(** The content [target] had before a run is still on disk after it: in
    [target] itself, which the run did not change, or in [backup]. *)
Definition keeps_original (before after : files) (target backup : string) : Prop :=
  after !! target = before !! target \/ after !! backup = before !! target.

(** A step that changes at most [target], and that only after copying it
    to [backup]. *)
Definition rewrites_with_backup (target backup : string) {A} (m : io A) : Prop :=
  forall fs : files,
    (m fs).1 = fs
    \/ exists c, fs !! target = Some c
         /\ ((m fs).1 = <[backup := c]> fs
             \/ exists new, (m fs).1 = <[target := new]> (<[backup := c]> fs)).

(** A step that changes none of the given paths. *)
Definition leaves (paths : list string) {A} (m : io A) : Prop :=
  forall (fs : files) q, q ∈ paths -> (m fs).1 !! q = fs !! q.

(** A step after which [target]'s content from before it is still on disk. *)
Definition backs_up (target backup : string) {A} (m : io A) : Prop :=
  forall fs : files, keeps_original fs (m fs).1 target backup.

End Sys.

(** ** v30_frontend_patch.py *)

Module V30.
Import Py Sys.

Definition BASE_DIR : string := "/var/www/scoutloot/app".
Definition set_html : string := Eval cbv in join BASE_DIR "public/set.html".
Definition minifig_html : string := Eval cbv in join BASE_DIR "public/minifig.html".
Definition set_html_bak : string := Eval cbv in join BASE_DIR "public/set.html.bak.v29".
Definition minifig_html_bak : string :=
  Eval cbv in join BASE_DIR "public/minifig.html.bak.v29".

(** [helper_code] of [patch_set_html]. *)
Definition set_helper_code : string :=
  "let priceChart = null;
    let currencySymbol = '€'; // V30: Dynamic currency symbol
    
    // V30: Get currency symbol based on user country
    function getCurrencySymbol() {
      try {
        const userData = localStorage.getItem('scoutloot_user');
        if (userData) {
          const user = JSON.parse(userData);
          const country = (user.ship_to_country || '').toUpperCase();
          if (country === 'US') return '$';
          if (country === 'CA') return 'C$';
          if (country === 'GB') return '£';
        }
      } catch (e) {}
      return '€';
    }
    currencySymbol = getCurrencySymbol();".

(** [helper_code] of [patch_minifig_html]. *)
Definition minifig_helper_code : string :=
  "let priceChart = null;
    let currencySymbol = '€'; // V30: Updated from API response
    
    // V30: Get user country for API calls
    function getUserCountry() {
      try {
        const userData = localStorage.getItem('scoutloot_user');
        if (userData) {
          const user = JSON.parse(userData);
          return user.ship_to_country || 'US';
        }
      } catch (e) {}
      return 'US';
    }".

(** The replacement of step 3 of [patch_minifig_html]. *)
Definition symbol_update : string :=
  "const history = await response.json();
        currencySymbol = history.symbol || '€'; // V30: Use API symbol".

(** The rewriting of [patch_set_html]. *)
Definition set_html_text (content : string) : string :=
  let content := replace "let priceChart = null;" set_helper_code content in
  let content :=
    replace "${context.dataset.label}: €${context.raw.toFixed(2)}"
            "${context.dataset.label}: ${currencySymbol}${context.raw.toFixed(2)}"
            content in
  replace "return '€' + value;" "return currencySymbol + value;" content.

Definition patch_set_html : io bool :=
  content ← read_text set_html;
  write_text set_html (set_html_text content);;
  mret true.

(** The rewriting of [patch_minifig_html]. *)
Definition minifig_html_text (content : string) : string :=
  let content := replace "let priceChart = null;" minifig_helper_code content in
  let content :=
    replace "/api/minifigs/${figNum}/history?days=${days}`"
            "/api/minifigs/${figNum}/history?days=${days}&country=${getUserCountry()}`"
            content in
  let content :=
    replace "const history = await response.json();" symbol_update content in
  let content :=
    replace "${context.dataset.label}: €${context.raw.y.toFixed(2)}"
            "${context.dataset.label}: ${currencySymbol}${context.raw.y.toFixed(2)}"
            content in
  replace "return '€' + value;" "return currencySymbol + value;" content.

Definition patch_minifig_html : io bool :=
  content ← read_text minifig_html;
  write_text minifig_html (minifig_html_text content);;
  mret true.

(** [errors.append(msg)] when the test holds. *)
Definition check (test : bool) (msg : string) : list string :=
  if test then [msg] else [].

Definition verify_patches : io (list string) :=
  set_content ← read_text set_html;
  let errors :=
    check (negb (contains "currencySymbol" set_content))
          "set.html: currencySymbol not found"
    ++ check (negb (contains "getCurrencySymbol" set_content))
             "set.html: getCurrencySymbol function not found"
    ++ check (contains "return '€' + value;" set_content)
             "set.html: hardcoded € still in Y-axis" in
  minifig_content ← read_text minifig_html;
  mret (errors
        ++ check (negb (contains "getUserCountry" minifig_content))
                 "minifig.html: getUserCountry function not found"
        ++ check (negb (contains "country=${getUserCountry()}" minifig_content))
                 "minifig.html: country parameter not in API call"
        ++ check (negb (contains "history.symbol" minifig_content))
                 "minifig.html: symbol from API not used"
        ++ check (contains "return '€' + value;" minifig_content)
                 "minifig.html: hardcoded € still in Y-axis").

(** [main()]; the script ends with status 0 when it returns. *)
Definition main : io Z :=
  found ← exists_ set_html;
  if negb found then raise (SystemExit 1)
  else
    copy set_html set_html_bak;;
    copy minifig_html minifig_html_bak;;
    patch_set_html;;
    patch_minifig_html;;
    errors ← verify_patches;
    match errors with
    | [] => mret 0
    | _ :: _ =>
      copy set_html_bak set_html;;
      copy minifig_html_bak minifig_html;;
      raise (SystemExit 1)
    end.

(** Sample pages: the lines of a page the patch looks for. *)
Definition sample_page : string :=
  "let priceChart = null;
    ticks: { callback: function(value) { return '€' + value; } }
    const response = await fetch(`/api/minifigs/${figNum}/history?days=${days}`);
    const history = await response.json();".

Definition sample_files : files :=
  {[ set_html := sample_page; minifig_html := sample_page ]}.

End V30.

(** ** v29_patch.py *)

Module V29.
Import Py Sys.

Definition APP_DIR : string := "/var/www/scoutloot/app".
Definition index_html : string := Eval cbv in join APP_DIR "public/index.html".
Definition app_js : string := Eval cbv in join APP_DIR "public/js/app.js".
Definition watches_ts : string := Eval cbv in join APP_DIR "src/routes/watches.ts".
Definition set_html : string := Eval cbv in join APP_DIR "public/set.html".
Definition minifig_html : string := Eval cbv in join APP_DIR "public/minifig.html".

(** [filepath.with_suffix(filepath.suffix + '.bak.v29')] *)
Definition backup_path (filepath : string) : string := filepath +:+ ".bak.v29".

Definition backup_file (filepath : string) : io bool :=
  found ← exists_ filepath;
  if (found : bool) then (copy filepath (backup_path filepath);; mret true)
  else mret false.

Definition old_add_watch : string :=
  "<select id=" +:+ dq +:+ "watch-condition" +:+ dq +:+ ">
            <option value=" +:+ dq +:+ "any" +:+ dq +:+ ">{{forms.condition_any}}</option>
            <option value=" +:+ dq +:+ "new" +:+ dq +:+ ">{{forms.condition_new}}</option>
            <label value=" +:+ dq +:+ "used" +:+ dq +:+ ">{{forms.condition_used}}</option>
          </select>".

Definition new_add_watch : string :=
  "<select id=" +:+ dq +:+ "watch-condition" +:+ dq +:+ ">
            <option value=" +:+ dq +:+ "new" +:+ dq +:+ " selected>{{forms.condition_new}}</option>
            <option value=" +:+ dq +:+ "used" +:+ dq +:+ ">{{forms.condition_used}}</option>
            <option value=" +:+ dq +:+ "any" +:+ dq +:+ ">{{forms.condition_any}}</option>
          </select>".

Definition old_edit_watch : string :=
  "<select id=" +:+ dq +:+ "edit-watch-condition" +:+ dq +:+ ">
            <option value=" +:+ dq +:+ "any" +:+ dq +:+ ">{{forms.condition_any}}</option>
            <option value=" +:+ dq +:+ "new" +:+ dq +:+ ">{{forms.condition_new}}</option>
            <label value=" +:+ dq +:+ "used" +:+ dq +:+ ">{{forms.condition_used}}</option>
          </select>".

Definition new_edit_watch : string :=
  "<select id=" +:+ dq +:+ "edit-watch-condition" +:+ dq +:+ ">
            <option value=" +:+ dq +:+ "new" +:+ dq +:+ ">{{forms.condition_new}}</option>
            <option value=" +:+ dq +:+ "used" +:+ dq +:+ ">{{forms.condition_used}}</option>
            <option value=" +:+ dq +:+ "any" +:+ dq +:+ ">{{forms.condition_any}}</option>
          </select>".

Definition old_watches_header : string :=
  "<div class=" +:+ dq +:+ "watches-header" +:+ dq +:+ ">
            <h2>{{dashboard.your_watchlist}}</h2>
          </div>".

Definition new_watches_header : string :=
  "<div class=" +:+ dq +:+ "watches-header" +:+ dq +:+ ">
            <h2>{{dashboard.your_watchlist}}</h2>
            <select id=" +:+ dq +:+ "bulk-condition-select" +:+ dq +:+ " onchange=" +:+ dq +:+ "handleBulkConditionChange(this.value)" +:+ dq +:+ " style=" +:+ dq +:+ "background:var(--bg-tertiary);color:var(--text-secondary);border:1px solid rgba(255,255,255,0.1);padding:8px 12px;border-radius:8px;font-size:0.85rem;cursor:pointer;" +:+ dq +:+ ">
              <option value=" +:+ dq +:+ dq +:+ ">Change All...</option>
              <option value=" +:+ dq +:+ "new" +:+ dq +:+ ">All → New</option>
              <option value=" +:+ dq +:+ "used" +:+ dq +:+ ">All → Used</option>
              <option value=" +:+ dq +:+ "any" +:+ dq +:+ ">All → Any</option>
            </select>
          </div>".

(** [if old in content: content = content.replace(old, new)] *)
Definition replace_if_found (old new content : string) : string :=
  if contains old content then replace old new content else content.

Definition patch_index_html : io unit :=
  backup_file index_html;;
  content ← read_text index_html;
  let content := replace_if_found old_add_watch new_add_watch content in
  let content := replace_if_found old_edit_watch new_edit_watch content in
  let content := replace_if_found old_watches_header new_watches_header content in
  write_text index_html content.

(** The functions appended to app.js. *)
Definition new_js : string :=
  "

// ===========================================
// PREFILL WATCH FROM DETAIL PAGES (V29)
// ===========================================

window.addEventListener('prefillWatch', function(event) {
  var detail = event.detail;
  var type = detail.type;
  var id = detail.id;
  var name = detail.name;
  var imageUrl = detail.imageUrl;
  
  var input = document.getElementById('watch-set');
  if (input) {
    input.value = id;
  }
  
  if (type === 'minifig') {
    selectedMinifigId = id;
    selectedMinifigImageUrl = imageUrl || null;
    selectedSetNumber = null;
    selectedItemType = 'minifig';
  } else {
    selectedSetNumber = id;
    selectedMinifigId = null;
    selectedMinifigImageUrl = null;
    selectedItemType = 'set';
  }
  
  // Update the modal subtitle if name is provided
  var subtitle = document.querySelector('#modal-add-watch .modal-subtitle');
  if (subtitle && name) {
    subtitle.textContent = name;
  }
});

// ===========================================
// BULK CONDITION CHANGE (V29)
// ===========================================

async function handleBulkConditionChange(condition) {
  if (!condition) return;
  if (!state.user) {
    showToast('Please log in first', 'error');
    return;
  }
  
  if (state.watches.length === 0) {
    showToast('No watches to update', 'info');
    document.getElementById('bulk-condition-select').value = '';
    return;
  }
  
  var conditionLabel = condition === 'any' ? 'Any Condition' : condition.charAt(0).toUpperCase() + condition.slice(1);
  
  if (!confirm('Change condition for ALL ' + state.watches.length + ' watches to " +:+ dq +:+ "' + conditionLabel + '" +:+ dq +:+ "?')) {
    document.getElementById('bulk-condition-select').value = '';
    return;
  }
  
  try {
    var response = await apiCall('/watches/bulk-condition/' + state.user.id, {
      method: 'PATCH',
      body: JSON.stringify({ condition: condition }),
    });
    
    state.watches.forEach(function(watch) {
      watch.condition = condition;
    });
    
    renderWatches();
    showToast('All watches updated to ' + conditionLabel + '! 🎯', 'success');
  } catch (error) {
    showToast(error.message || 'Failed to update watches', 'error');
  } finally {
    document.getElementById('bulk-condition-select').value = '';
  }
}
".

(** What [patch_app_js] writes for a content, [None] when it returns
    without writing. *)
Definition app_js_text (content : string) : option string :=
  if contains "handleBulkConditionChange" content then None
  else Some (content +:+ new_js).

Definition patch_app_js : io unit :=
  backup_file app_js;;
  content ← read_text app_js;
  match app_js_text content with
  | None => mret tt
  | Some content => write_text app_js content
  end.

(** The route inserted into watches.ts. *)
Definition new_endpoint : string :=
  "
// ============================================
// BULK UPDATE ALL WATCHES CONDITION (V29)
// PATCH /api/watches/bulk-condition/:userId
// ============================================
router.patch('/bulk-condition/:userId', async (req: Request, res: Response): Promise<void> => {
  try {
    const userId = parseInt(req.params.userId, 10);
    const { condition } = req.body;
    
    if (isNaN(userId)) {
      res.status(400).json({ error: 'Invalid user ID' });
      return;
    }
    
    if (!condition || !['new', 'used', 'any'].includes(condition)) {
      res.status(400).json({ error: 'Invalid condition. Must be: new, used, or any' });
      return;
    }
    
    const result = await query(
      `UPDATE watches 
       SET condition = $1, updated_at = NOW() 
       WHERE user_id = $2 AND status = 'active'`,
      [condition, userId]
    );
    
    res.json({
      success: true,
      updated: result.rowCount,
      condition: condition,
    });
  } catch (error) {
    console.error('Bulk update condition error:', error);
    res.status(500).json({ error: 'Failed to update watches' });
  }
});

".

Definition patterns_to_find : list string :=
  ["// GET USER'S WATCHES";
   "// GET USER WATCHES";
   "router.get('/user/:userId'";
   "// ============================================
// GET USER"].

(** What [patch_watches_ts] writes for a content, [None] when it writes
    nothing: the route goes before the first of the patterns that occurs,
    else after the router's definition. *)
Definition watches_ts_text (content : string) : option string :=
  if contains "bulk-condition" content then None
  else
    match List.find (fun pattern => contains pattern content) patterns_to_find with
    | Some pattern => Some (replace pattern (new_endpoint +:+ pattern) content)
    | None =>
      if contains "const router = Router();" content
      then Some (replace "const router = Router();"
                         ("const router = Router();" +:+ new_endpoint) content)
      else None
    end.

Definition patch_watches_ts : io unit :=
  backup_file watches_ts;;
  content ← read_text watches_ts;
  match watches_ts_text content with
  | None => mret tt
  | Some content => write_text watches_ts content
  end.

(** [patch_set_html] and [patch_minifig_html] differ in the path only. *)
Definition patch_detail_page (filepath : string) : io unit :=
  found ← exists_ filepath;
  if negb found then mret tt
  else
    backup_file filepath;;
    content ← read_text filepath;
    if contains "openModal('login')" content
    then write_text filepath (replace "openModal('login')" "openModal('signup')" content)
    else mret tt.

Definition patch_set_html : io unit := patch_detail_page set_html.
Definition patch_minifig_html : io unit := patch_detail_page minifig_html.

Definition main : io Z :=
  found ← dir_exists APP_DIR;
  if negb found then mret 1
  else
    try_except
      (patch_index_html;;
       patch_app_js;;
       patch_watches_ts;;
       patch_set_html;;
       patch_minifig_html;;
       mret 0)
      (mret 1).

(** The five files the script rewrites. *)
Definition targets : list string :=
  [index_html; app_js; watches_ts; set_html; minifig_html].

End V29.

(** ** fix_password_reset_js.py *)

Module Fix.
Import Py Sys.

Definition INDEX_PATH : string := "/var/www/scoutloot/app/public/index.html".

Definition JS_FUNCTIONS : string :=
  "
    // ===========================================
    // PASSWORD RESET FUNCTIONS
    // ===========================================
    
    let currentResetToken = null;
    
    async function handleForgotPassword(event) {
      event.preventDefault();
      
      const email = document.getElementById('forgot-email').value;
      const submitBtn = document.getElementById('forgot-submit-btn');
      const originalText = submitBtn.textContent;
      
      try {
        submitBtn.textContent = 'Sending...';
        submitBtn.disabled = true;
        
        const response = await fetch('/api/users/forgot-password', {
          method: 'POST',
          headers: { 'Content-Type': 'application/json' },
          body: JSON.stringify({ email }),
        });
        
        const data = await response.json();
        
        if (response.ok) {
          closeModal('forgot-password');
          showToast('If an account exists, a reset link has been sent to your email.', 'success');
          document.getElementById('forgot-email').value = '';
        } else {
          showToast(data.error || 'Failed to send reset email', 'error');
        }
      } catch (error) {
        console.error('Forgot password error:', error);
        showToast('Failed to send reset email', 'error');
      } finally {
        submitBtn.textContent = originalText;
        submitBtn.disabled = false;
      }
    }
    
    async function handleResetPassword(event) {
      event.preventDefault();
      
      const password = document.getElementById('reset-password').value;
      const confirmPassword = document.getElementById('reset-password-confirm').value;
      const submitBtn = document.getElementById('reset-submit-btn');
      const originalText = submitBtn.textContent;
      
      if (password !== confirmPassword) {
        showToast('Passwords do not match', 'error');
        return;
      }
      
      if (password.length < 8) {
        showToast('Password must be at least 8 characters', 'error');
        return;
      }
      
      if (!currentResetToken) {
        showToast('Invalid reset token', 'error');
        return;
      }
      
      try {
        submitBtn.textContent = 'Resetting...';
        submitBtn.disabled = true;
        
        const response = await fetch('/api/users/reset-password', {
          method: 'POST',
          headers: { 'Content-Type': 'application/json' },
          body: JSON.stringify({ token: currentResetToken, password }),
        });
        
        const data = await response.json();
        
        if (response.ok && data.success) {
          state.user = data.user;
          saveToStorage('user', data.user);
          
          closeResetModal();
          updateUI();
          showDashboard();
          await loadWatches();
          showToast('Password reset successful! Welcome back.', 'success');
        } else {
          showToast(data.error || 'Failed to reset password', 'error');
        }
      } catch (error) {
        console.error('Reset password error:', error);
        showToast('Failed to reset password', 'error');
      } finally {
        submitBtn.textContent = originalText;
        submitBtn.disabled = false;
      }
    }
    
    function closeResetModal() {
      closeModal('reset-password');
      currentResetToken = null;
      const url = new URL(window.location);
      url.searchParams.delete('reset');
      window.history.replaceState({}, '', url);
      document.getElementById('reset-password').value = '';
      document.getElementById('reset-password-confirm').value = '';
    }
    
    async function checkForResetToken() {
      const urlParams = new URLSearchParams(window.location.search);
      const resetToken = urlParams.get('reset');
      
      if (resetToken) {
        try {
          const response = await fetch('/api/users/verify-reset-token/' + resetToken);
          const data = await response.json();
          
          if (data.valid) {
            currentResetToken = resetToken;
            document.getElementById('reset-email-display').textContent = 
              'Enter a new password for ' + data.email;
            openModal('reset-password');
          } else {
            showToast('This reset link is invalid or has expired.', 'error');
            const url = new URL(window.location);
            url.searchParams.delete('reset');
            window.history.replaceState({}, '', url);
          }
        } catch (error) {
          console.error('Error verifying reset token:', error);
          showToast('Failed to verify reset link.', 'error');
        }
      }
    }

".

(** [pattern]: the [scrollTo] helper, white space free between its parts. *)
Definition pattern : list atom :=
  [Lit "function scrollTo(selector) {"; Spaces;
   Lit "document.querySelector(selector)?.scrollIntoView({ behavior: 'smooth' });";
   Spaces; Lit "}"].

(** [pattern2]: the banner of the INITIALIZATION section. *)
Definition pattern2 : list atom :=
  [Lit "// "; Equals; Spaces; Lit "// INITIALIZATION"; Spaces; Lit "// "; Equals].

(** The three ways [main] inserts [JS_FUNCTIONS], in the order it tries
    them. *)
Definition insert_functions (content : string) : string :=
  if search pattern content
  then sub pattern (fun found => found +:+ JS_FUNCTIONS) content
  else if search pattern2 content
  then sub pattern2 (fun found => JS_FUNCTIONS +:+ "
    " +:+ found) content
  else replace "async function init() {"
               (JS_FUNCTIONS +:+ "
    async function init() {") content.

(** The text whose presence makes [main] return at once. *)
Definition marker : string := "async function handleForgotPassword(event)".

Definition main : io Z :=
  content ← read_text INDEX_PATH;
  if contains marker content then mret 0
  else write_text INDEX_PATH (insert_functions content);; mret 0.

(** A page whose script has an [init] function and nothing else the fix
    looks for. *)
Definition sample_page : string :=
  "<script>
    async function init() {
      await loadWatches();
    }
</script>".

Definition sample_files : files := {[ INDEX_PATH := sample_page ]}.

End Fix.

(** ** The scripts whose rewriting is not needed in detail

    For these the text substitutions are parameters: what is modelled is
    the order of reads, backups and writes. *)

Module V24.
Import Py Sys.

Section Script.

(** The script's [FILE] and the substitutions it applies to its content:
    ["index.html"] for patch-index-html.py, ["app.js"] for
    patch-app-js.py; the scripts are run from the file's directory. *)
Variable FILE : string.
Variable patches : string -> string.

(** [stamp] is [datetime.now().strftime('%Y%m%d%H%M%S')]. *)
Definition backup_name (stamp : string) : string := FILE +:+ ".bak." +:+ stamp.

Definition main (stamp : string) : io Z :=
  found ← exists_ FILE;
  if negb found then mret 1
  else
    copy FILE (backup_name stamp);;
    content ← read_text FILE;
    write_text FILE (patches content);;
    mret 0.

End Script.

End V24.

Module Seo.
Import Py Sys.

Definition INDEX_FILE : string := "/var/www/scoutloot/app/public/index.html".

Section Script.

(** [re.sub(pattern, NEW_HEAD, content, flags=re.DOTALL)] when
    [re.search(pattern, content, re.DOTALL)] finds the head, else [None]. *)
Variable replace_head : string -> option string.

(** [stamp] is [datetime.now().strftime('%Y%m%d-%H%M%S')]. *)
Definition backup_name (stamp : string) : string :=
  INDEX_FILE +:+ ".backup-seo-" +:+ stamp.

Definition main (stamp : string) : io Z :=
  content ← read_text INDEX_FILE;
  copy INDEX_FILE (backup_name stamp);;
  match replace_head content with
  | Some new_content => write_text INDEX_FILE new_content;; mret 0
  | None => mret 1
  end.

End Script.

End Seo.

Module NotifPrefs.
Import Py Sys.

(** The script starts with [os.chdir('/var/www/scoutloot/app')]; its paths
    are relative to that directory. *)
Definition index_html : string := "public/index.html".
Definition index_bak : string := "public/index.html.bak.notifprefs".
Definition users_ts : string := "src/routes/users.ts".
Definition users_bak : string := "src/routes/users.ts.bak.notifprefs".

Section Script.

(** Part 1 and part 2 of the script as text substitutions. *)
Variable html_patches : string -> string.
Variable users_ts_patches : string -> string.

(** The script has no [main]: this is its top level. *)
Definition script : io Z :=
  html ← read_text index_html;
  write_text index_bak html;;
  write_text index_html (html_patches html);;
  users ← read_text users_ts;
  write_text users_bak users;;
  write_text users_ts (users_ts_patches users);;
  mret 0.

End Script.

End NotifPrefs.

(** ** patch_password_reset.py

    Five steps from content to content, then one write. *)

Module PasswordReset.
Import Py Sys.

Definition INDEX_PATH : string := "/var/www/scoutloot/app/public/index.html".
Definition BACKUP_PATH : string := "/var/www/scoutloot/app/public/index.html.backup".

(** *** [patch_login_modal_forgot_link] *)

(** [old_pattern]: a raw string, so its parentheses are text. *)
Definition login_old_pattern : string :=
  "(<div class=" +:+ dq +:+ "form-group" +:+ dq +:+ ">
          <label for=" +:+ dq +:+ "login-password" +:+ dq +:+ ">Password</label>
          <input type=" +:+ dq +:+ "password" +:+ dq +:+ " id=" +:+ dq +:+ "login-password" +:+ dq +:+ " placeholder=" +:+ dq +:+ "••••••••" +:+ dq +:+ " required>
        </div>)".

(** What the replacement templates put after [\1], the matched text. *)
Definition forgot_link : string :=
  "
        <div style=" +:+ dq +:+ "text-align: right; margin-bottom: 16px;" +:+ dq +:+ ">
          <a href=" +:+ dq +:+ "#" +:+ dq +:+ " onclick=" +:+ dq +:+ "switchModal('login', 'forgot-password'); return false;" +:+ dq +:+ " style=" +:+ dq +:+ "font-size: 0.85rem; color: var(--accent); text-decoration: none;" +:+ dq +:+ ">Forgot password?</a>
        </div>".

(** [pattern] of the first branch. *)
Definition login_pattern : list atom :=
  [Lit ("<div class=" +:+ dq +:+ "form-group" +:+ dq +:+ ">");
   Spaces;
   Lit ("<label for=" +:+ dq +:+ "login-password" +:+ dq +:+ ">Password</label>");
   Spaces;
   Lit ("<input type=" +:+ dq +:+ "password" +:+ dq +:+ " id=" +:+ dq +:+ "login-password" +:+ dq);
   NotGt;
   Lit ">";
   Spaces;
   Lit "</div>"].

(** [pattern] of the alternative branch. *)
Definition login_alt_pattern : list atom :=
  [Lit ("id=" +:+ dq +:+ "login-password" +:+ dq);
   NotGt;
   Lit ">";
   Spaces;
   Lit "</div>"].

(** [s.replace('\n', '').replace(' ', '')] *)
Definition squeeze (s : string) : string := replace " " "" (replace nl "" s).

Definition patch_login_modal_forgot_link (content : string) : string :=
  if contains (squeeze login_old_pattern) (squeeze content)
  then sub login_pattern (fun found => found +:+ forgot_link) content
  else if contains ("id=" +:+ dq +:+ "login-password" +:+ dq) content
          && negb (contains "Forgot password?" content)
  then sub login_alt_pattern (fun found => found +:+ forgot_link) content
  else content.

(** *** [add_forgot_password_modal] *)

Definition forgot_modal : string :=
  "
  <!-- Forgot Password Modal -->
  <div class=" +:+ dq +:+ "modal-overlay" +:+ dq +:+ " id=" +:+ dq +:+ "modal-forgot-password" +:+ dq +:+ ">
    <div class=" +:+ dq +:+ "modal" +:+ dq +:+ " style=" +:+ dq +:+ "position: relative;" +:+ dq +:+ ">
      <button class=" +:+ dq +:+ "modal-close" +:+ dq +:+ " onclick=" +:+ dq +:+ "closeModal('forgot-password')" +:+ dq +:+ ">×</button>
      <h2>Forgot Password?</h2>
      <p class=" +:+ dq +:+ "modal-subtitle" +:+ dq +:+ ">Enter your email and we'll send you a reset link</p>
      
      <form onsubmit=" +:+ dq +:+ "handleForgotPassword(event)" +:+ dq +:+ ">
        <div class=" +:+ dq +:+ "form-group" +:+ dq +:+ ">
          <label for=" +:+ dq +:+ "forgot-email" +:+ dq +:+ ">Email</label>
          <input type=" +:+ dq +:+ "email" +:+ dq +:+ " id=" +:+ dq +:+ "forgot-email" +:+ dq +:+ " placeholder=" +:+ dq +:+ "you@example.com" +:+ dq +:+ " required>
        </div>
        <button type=" +:+ dq +:+ "submit" +:+ dq +:+ " class=" +:+ dq +:+ "btn btn-primary" +:+ dq +:+ " style=" +:+ dq +:+ "width: 100%;" +:+ dq +:+ " id=" +:+ dq +:+ "forgot-submit-btn" +:+ dq +:+ ">Send Reset Link</button>
      </form>
      
      <div class=" +:+ dq +:+ "modal-footer" +:+ dq +:+ ">
        Remember your password? <a href=" +:+ dq +:+ "#" +:+ dq +:+ " onclick=" +:+ dq +:+ "switchModal('forgot-password', 'login'); return false;" +:+ dq +:+ ">Log in</a>
      </div>
    </div>
  </div>
".

Definition settings_modal_end : string :=
  "</div>
  </div>
  
  <!-- Toast Container -->".

Definition add_forgot_password_modal (content : string) : string :=
  if contains "modal-forgot-password" content then content
  else if contains settings_modal_end content
  then replace settings_modal_end
         ("</div>
  </div>
" +:+ forgot_modal +:+ "
  <!-- Toast Container -->") content
  else if contains "<!-- Toast Container -->" content
  then replace "<!-- Toast Container -->"
         (forgot_modal +:+ "
  <!-- Toast Container -->") content
  else content.

(** *** [add_reset_password_modal] *)

Definition reset_modal : string :=
  "
  <!-- Reset Password Modal -->
  <div class=" +:+ dq +:+ "modal-overlay" +:+ dq +:+ " id=" +:+ dq +:+ "modal-reset-password" +:+ dq +:+ ">
    <div class=" +:+ dq +:+ "modal" +:+ dq +:+ " style=" +:+ dq +:+ "position: relative;" +:+ dq +:+ ">
      <button class=" +:+ dq +:+ "modal-close" +:+ dq +:+ " onclick=" +:+ dq +:+ "closeResetModal()" +:+ dq +:+ ">×</button>
      <h2>Reset Password</h2>
      <p class=" +:+ dq +:+ "modal-subtitle" +:+ dq +:+ " id=" +:+ dq +:+ "reset-email-display" +:+ dq +:+ ">Enter your new password</p>
      
      <form onsubmit=" +:+ dq +:+ "handleResetPassword(event)" +:+ dq +:+ ">
        <div class=" +:+ dq +:+ "form-group" +:+ dq +:+ ">
          <label for=" +:+ dq +:+ "reset-password" +:+ dq +:+ ">New Password</label>
          <input type=" +:+ dq +:+ "password" +:+ dq +:+ " id=" +:+ dq +:+ "reset-password" +:+ dq +:+ " placeholder=" +:+ dq +:+ "••••••••" +:+ dq +:+ " minlength=" +:+ dq +:+ "8" +:+ dq +:+ " required>
        </div>
        <div class=" +:+ dq +:+ "form-group" +:+ dq +:+ ">
          <label for=" +:+ dq +:+ "reset-password-confirm" +:+ dq +:+ ">Confirm Password</label>
          <input type=" +:+ dq +:+ "password" +:+ dq +:+ " id=" +:+ dq +:+ "reset-password-confirm" +:+ dq +:+ " placeholder=" +:+ dq +:+ "••••••••" +:+ dq +:+ " minlength=" +:+ dq +:+ "8" +:+ dq +:+ " required>
        </div>
        <button type=" +:+ dq +:+ "submit" +:+ dq +:+ " class=" +:+ dq +:+ "btn btn-primary" +:+ dq +:+ " style=" +:+ dq +:+ "width: 100%;" +:+ dq +:+ " id=" +:+ dq +:+ "reset-submit-btn" +:+ dq +:+ ">Reset Password</button>
      </form>
    </div>
  </div>
".

Definition add_reset_password_modal (content : string) : string :=
  if contains "modal-reset-password" content then content
  else if contains "<!-- Toast Container -->" content
  then replace "<!-- Toast Container -->"
         (reset_modal +:+ "
  <!-- Toast Container -->") content
  else content.

(** *** [add_password_reset_js] *)

Definition js_code : string :=
  "
    // ===========================================
    // PASSWORD RESET FUNCTIONS
    // ===========================================
    
    let currentResetToken = null;
    
    async function handleForgotPassword(event) {
      event.preventDefault();
      
      const email = document.getElementById('forgot-email').value;
      const submitBtn = document.getElementById('forgot-submit-btn');
      const originalText = submitBtn.textContent;
      
      try {
        submitBtn.textContent = 'Sending...';
        submitBtn.disabled = true;
        
        const response = await fetch('/api/users/forgot-password', {
          method: 'POST',
          headers: { 'Content-Type': 'application/json' },
          body: JSON.stringify({ email }),
        });
        
        const data = await response.json();
        
        if (response.ok) {
          closeModal('forgot-password');
          showToast('If an account exists, a reset link has been sent to your email.', 'success');
          document.getElementById('forgot-email').value = '';
        } else {
          showToast(data.error || 'Failed to send reset email', 'error');
        }
      } catch (error) {
        console.error('Forgot password error:', error);
        showToast('Failed to send reset email', 'error');
      } finally {
        submitBtn.textContent = originalText;
        submitBtn.disabled = false;
      }
    }
    
    async function handleResetPassword(event) {
      event.preventDefault();
      
      const password = document.getElementById('reset-password').value;
      const confirmPassword = document.getElementById('reset-password-confirm').value;
      const submitBtn = document.getElementById('reset-submit-btn');
      const originalText = submitBtn.textContent;
      
      if (password !== confirmPassword) {
        showToast('Passwords do not match', 'error');
        return;
      }
      
      if (password.length < 8) {
        showToast('Password must be at least 8 characters', 'error');
        return;
      }
      
      if (!currentResetToken) {
        showToast('Invalid reset token', 'error');
        return;
      }
      
      try {
        submitBtn.textContent = 'Resetting...';
        submitBtn.disabled = true;
        
        const response = await fetch('/api/users/reset-password', {
          method: 'POST',
          headers: { 'Content-Type': 'application/json' },
          body: JSON.stringify({ token: currentResetToken, password }),
        });
        
        const data = await response.json();
        
        if (response.ok && data.success) {
          // Auto-login the user
          state.user = data.user;
          saveToStorage('user', data.user);
          
          closeResetModal();
          updateUI();
          showDashboard();
          await loadWatches();
          showToast('Password reset successful! Welcome back.', 'success');
        } else {
          showToast(data.error || 'Failed to reset password', 'error');
        }
      } catch (error) {
        console.error('Reset password error:', error);
        showToast('Failed to reset password', 'error');
      } finally {
        submitBtn.textContent = originalText;
        submitBtn.disabled = false;
      }
    }
    
    function closeResetModal() {
      closeModal('reset-password');
      currentResetToken = null;
      // Clear URL parameter
      const url = new URL(window.location);
      url.searchParams.delete('reset');
      window.history.replaceState({}, '', url);
      // Clear form
      document.getElementById('reset-password').value = '';
      document.getElementById('reset-password-confirm').value = '';
    }
    
    async function checkForResetToken() {
      const urlParams = new URLSearchParams(window.location.search);
      const resetToken = urlParams.get('reset');
      
      if (resetToken) {
        try {
          // Verify the token is valid
          const response = await fetch(`/api/users/verify-reset-token/${resetToken}`);
          const data = await response.json();
          
          if (data.valid) {
            currentResetToken = resetToken;
            document.getElementById('reset-email-display').textContent = 
              `Enter a new password for ${data.email}`;
            openModal('reset-password');
          } else {
            showToast('This reset link is invalid or has expired.', 'error');
            // Clear the URL parameter
            const url = new URL(window.location);
            url.searchParams.delete('reset');
            window.history.replaceState({}, '', url);
          }
        } catch (error) {
          console.error('Error verifying reset token:', error);
          showToast('Failed to verify reset link.', 'error');
        }
      }
    }
".

(** [pattern]: the UTILITY FUNCTIONS banner and [scrollTo] after it. *)
Definition utility_pattern : list atom :=
  [Lit "// ===========================================";
   Spaces;
   Lit "// UTILITY FUNCTIONS";
   Spaces;
   Lit "// ===========================================";
   SpacesNewline;
   Lit "function scrollTo(selector) {";
   Spaces;
   Lit "document.querySelector(selector)?.scrollIntoView({ behavior: 'smooth' });";
   Spaces;
   Lit "}"].

Definition add_password_reset_js (content : string) : string :=
  if contains "handleForgotPassword" content then content
  else if contains "// UTILITY FUNCTIONS" content
  then sub utility_pattern (fun found => found +:+ nl +:+ js_code) content
  else if contains "// INITIALIZATION" content
  then replace "// ===========================================
    // INITIALIZATION"
         (js_code +:+ "
    // ===========================================
    // INITIALIZATION") content
  else content.

(** *** [update_init_function]

    The [re.search] at the head of the function and what is computed from
    its match are not used afterwards; the content is rewritten by what
    follows it. *)

Definition init_old_pattern : string :=
  "try {
          const user = await apiCall(`/users/${savedUser.id}`);
          state.user = user;
          updateUI();
          showDashboard();
        } catch (error) {
          // User no longer exists, clear storage
          clearStorage();
        }
      }
    }".

Definition init_new_pattern : string :=
  "try {
          const user = await apiCall(`/users/${savedUser.id}`);
          state.user = user;
          updateUI();
          showDashboard();
        } catch (error) {
          // User no longer exists, clear storage
          clearStorage();
        }
      }
      
      // Check for password reset token in URL
      await checkForResetToken();
    }".

(** [init_pattern] *)
Definition init_pattern : list atom :=
  [Lit "clearStorage();";
   Spaces;
   Lit "}";
   Spaces;
   Lit "}";
   Spaces;
   Lit "}"].

(** [replacement], with the template's [\n] read as line feeds. *)
Definition init_replacement : string :=
  "clearStorage();
        }
      }
      
      // Check for password reset token in URL
      await checkForResetToken();
    }".

Definition update_init_function (content : string) : string :=
  if contains "checkForResetToken()" content then content
  else if contains init_old_pattern content
  then replace init_old_pattern init_new_pattern content
  else if contains "clearStorage();" content
          && negb (contains "checkForResetToken" content)
  then sub init_pattern (fun _ => init_replacement) content
  else content.

(** The five steps in the order [main] applies them. *)
Definition patches (content : string) : string :=
  let content := patch_login_modal_forgot_link content in
  let content := add_forgot_password_modal content in
  let content := add_reset_password_modal content in
  let content := add_password_reset_js content in
  let content := update_init_function content in
  content.

Definition main : io Z :=
  found ← exists_ INDEX_PATH;
  if negb found then mret 1
  else
    copy INDEX_PATH BACKUP_PATH;;
    content ← read_text INDEX_PATH;
    write_text INDEX_PATH (patches content);;
    mret 0.

(** A page with the login form, the toast container and the script
    sections the steps look for. *)
Definition sample_page : string :=
  "<div class=" +:+ dq +:+ "modal-overlay" +:+ dq +:+ " id=" +:+ dq +:+ "modal-login" +:+ dq +:+ ">
        <div class=" +:+ dq +:+ "form-group" +:+ dq +:+ ">
          <label for=" +:+ dq +:+ "login-password" +:+ dq +:+ ">Password</label>
          <input type=" +:+ dq +:+ "password" +:+ dq +:+ " id=" +:+ dq +:+ "login-password" +:+ dq +:+ " required>
        </div>
  </div>
  <!-- Toast Container -->
  <script>
    // ===========================================
    // INITIALIZATION
    // ===========================================
    async function init() {
      loadFromStorage();
    }
  </script>
".

Definition sample_files : files := {[ INDEX_PATH := sample_page ]}.

End PasswordReset.

(** ** The text of [handleForgotPassword]

    The function as both fix_password_reset_js.py and
    patch_password_reset.py carry it, from its head to its closing brace;
    [ForgotPassword.handleForgotPassword] is its model. *)

Module HandlerText.

Definition handleForgotPassword_text : string :=
  "async function handleForgotPassword(event) {
      event.preventDefault();
      
      const email = document.getElementById('forgot-email').value;
      const submitBtn = document.getElementById('forgot-submit-btn');
      const originalText = submitBtn.textContent;
      
      try {
        submitBtn.textContent = 'Sending...';
        submitBtn.disabled = true;
        
        const response = await fetch('/api/users/forgot-password', {
          method: 'POST',
          headers: { 'Content-Type': 'application/json' },
          body: JSON.stringify({ email }),
        });
        
        const data = await response.json();
        
        if (response.ok) {
          closeModal('forgot-password');
          showToast('If an account exists, a reset link has been sent to your email.', 'success');
          document.getElementById('forgot-email').value = '';
        } else {
          showToast(data.error || 'Failed to send reset email', 'error');
        }
      } catch (error) {
        console.error('Forgot password error:', error);
        showToast('Failed to send reset email', 'error');
      } finally {
        submitBtn.textContent = originalText;
        submitBtn.disabled = false;
      }
    }".

End HandlerText.

(** ** Numbers and strings on the client *)

Module JSText.
Import JS.

(** The decimal digits of a non-negative integer, most significant first,
    put before [acc]; [fuel] bounds their number. *)
Fixpoint digits_of (fuel : nat) (n : Z) (acc : string) : string :=
  match fuel with
  | O => acc
  | S k =>
    let acc := String (ascii_of_nat (48 + Z.to_nat (n mod 10))) acc in
    if n <? 10 then acc else digits_of k (n / 10) acc
  end.

(** [String(n)] / ['' + n] for an integer a Number holds exactly
    ([JS.safe_integer], up to 2^53 - 1 in magnitude): its decimal numeral.
    Beyond that a Number need not hold the integer, and from 10^21 on
    JavaScript writes an exponent; the numeral below stands for the
    integer, not for such a Number.  A number has no more decimal digits
    than binary ones, which bounds the fuel. *)
Definition Number_toString (n : Z) : string :=
  if n <? 0 then "-" +:+ digits_of (S (Z.to_nat (Z.log2 (- n)))) (- n) ""
  else digits_of (S (Z.to_nat (Z.log2 n))) n "".

(** The UTF-16 code units a byte of well-formed UTF-8 stands for: none for
    a continuation byte, two for the lead byte of a four-byte sequence, one
    for every other byte. *)
Definition units (c : ascii) : nat :=
  let n := nat_of_ascii c in
  if ((128 <=? n)%nat && (n <? 192)%nat)%bool then 0%nat
  else if (240 <=? n)%nat then 2%nat
  else 1%nat.

(** [s.length]: the number of UTF-16 code units. *)
Fixpoint length16 (s : string) : nat :=
  match s with
  | EmptyString => O
  | String c r => (units c + length16 r)%nat
  end.

(** The continuation bytes at the head of [s], and what follows them. *)
Fixpoint continuation (s : string) : string * string :=
  match s with
  | EmptyString => (EmptyString, EmptyString)
  | String c r =>
    let n := nat_of_ascii c in
    if ((128 <=? n)%nat && (n <? 192)%nat)%bool
    then let '(h, t) := continuation r in (String c h, t)
    else (EmptyString, s)
  end.

End JSText.

(** ** The bulk-condition dropdown (v29_patch.py, [new_js])

    [handleBulkConditionChange(condition)], the [onchange] handler of the
    select that [new_watches_header] puts into index.html. *)

Module BulkClient.
Import JS JSText.

(** What the handler does that can be observed, in order. *)
Inductive ui : Type :=
| Toast (msg : json) (kind : string)     (* showToast(msg, kind) *)
| ResetSelect                            (* the select's value is set to '' *)
| Confirm (question : string)            (* confirm(question) *)
| ApiCall (path method : string) (body : list (string * json))
| RenderWatches.

(** How [await apiCall(...)] ends: it resolves, or it throws an error whose
    [message] is read. *)
Inductive outcome : Type :=
| Resolved
| Thrown (message : option json).

(** [watch.condition = condition] on a watch object: the property is
    rewritten where it is, or added. *)
Fixpoint assign (k : string) (v : json) (obj : list (string * json))
  : list (string * json) :=
  match obj with
  | [] => [(k, v)]
  | (k', old) :: rest =>
    if String.eqb k k' then (k', v) :: rest else (k', old) :: assign k v rest
  end.

Section Runtime.

(** [String.prototype.toUpperCase], the JavaScript runtime's. *)
Variable toUpperCase : string -> string.

(** [condition.charAt(0).toUpperCase() + condition.slice(1)]: the first
    character in upper case.  A character outside the Basic Multilingual
    Plane (a four-byte sequence) is two code units, which come through
    unchanged. *)
Definition capitalised (condition : string) : string :=
  match condition with
  | EmptyString => EmptyString
  | String c r =>
    if (240 <=? nat_of_ascii c)%nat then condition
    else let '(h, t) := continuation r in toUpperCase (String c h) +:+ t
  end.

Definition conditionLabel (condition : string) : string :=
  if String.eqb condition "any" then "Any Condition" else capitalised condition.

(** The handler: the select's value, [state.user] ([None] for [null], else
    the user's id), [state.watches], the answer to [confirm] and how the
    call ends, to [state.watches] afterwards and what the page did. *)
Definition handleBulkConditionChange (condition : string) (user : option Z)
    (watches : list (list (string * json))) (confirmed : bool) (reply : outcome)
  : list (list (string * json)) * list ui :=
  if negb (truthy (Some (JStr condition))) then (watches, [])
  else
    match user with
    | None => (watches, [Toast (JStr "Please log in first") "error"])
    | Some uid =>
      if (length watches =? 0)%nat
      then (watches, [Toast (JStr "No watches to update") "info"; ResetSelect])
      else
        let question :=
          Confirm ("Change condition for ALL "
                   +:+ Number_toString (Z.of_nat (length watches))
                   +:+ " watches to " +:+ Py.dq +:+ conditionLabel condition
                   +:+ Py.dq +:+ "?") in
        if negb confirmed then (watches, [question; ResetSelect])
        else
          let call :=
            ApiCall ("/watches/bulk-condition/" +:+ Number_toString uid) "PATCH"
                    [("condition", JStr condition)] in
          match reply with
          | Resolved =>
            (map (assign "condition" (JStr condition)) watches,
             [question; call; RenderWatches;
              Toast (JStr ("All watches updated to " +:+ conditionLabel condition
                           +:+ "! 🎯")) "success";
              ResetSelect])
          | Thrown message =>
            (watches,
             [question; call;
              Toast (or_else message (JStr "Failed to update watches")) "error";
              ResetSelect])
          end
    end.

End Runtime.

End BulkClient.

(** ** Resetting a password (fix_password_reset_js.py, [JS_FUNCTIONS];
    patch_password_reset.py, [js_code])

    [handleResetPassword], [closeResetModal] and [checkForResetToken], with
    the page variable [currentResetToken] they share.  A call runs to its
    end before the next one starts. *)

Module ResetPassword.
Import JS JSText.

Inductive ui : Type :=
| PreventDefault
| Toast (msg : json) (kind : string)
| ButtonText (text : string)
| ButtonDisabled (b : bool)
| Post (url : string) (body : list (string * json))   (* fetch(url, {method: 'POST', body}) *)
| Get (url : string)                                  (* fetch(url) *)
| SetUser (user : option json)                        (* state.user = user *)
| SaveToStorage (key : string) (value : option json)
| CloseModal (name : string)
| OpenModal (name : string)
| ClearResetParam      (* 'reset' is deleted from the URL, the URL replaced *)
| ClearResetForm       (* both password fields are set to '' *)
| UpdateUI
| ShowDashboard
| LoadWatches
| EmailDisplay (email : option json)   (* 'Enter a new password for ' + email *)
| ConsoleError (label : string).

(** How [await fetch(...)] followed by [await response.json()] ends. *)
Inductive reply : Type :=
| Rejected
| Replied (ok : bool) (data : json).

(** [closeResetModal()]: the token is forgotten. *)
Definition closeResetModal : option string * list ui :=
  (None, [CloseModal "reset-password"; ClearResetParam; ClearResetForm]).

Definition reset_failed : list ui :=
  [ConsoleError "Reset password error:";
   Toast (JStr "Failed to reset password") "error"].

(** The body of the [try] of [handleResetPassword] after the two awaits:
    the token afterwards and what the page does.  [loaded] says whether
    [await loadWatches()] resolves. *)
Definition on_reply (token : option string) (ok : bool) (data : json)
    (loaded : bool) : option string * list ui :=
  let otherwise :=
    match property data "error" with
    | None => (token, reset_failed)
    | Some e => (token, [Toast (or_else e (JStr "Failed to reset password")) "error"])
    end in
  if negb ok then otherwise
  else
    match property data "success", property data "user" with
    | None, _ | _, None => (token, reset_failed)
    | Some success, Some user =>
      if truthy success then
        (None,
         [SetUser user; SaveToStorage "user" user]
         ++ closeResetModal.2
         ++ [UpdateUI; ShowDashboard; LoadWatches]
         ++ (if loaded
             then [Toast (JStr "Password reset successful! Welcome back.") "success"]
             else reset_failed))
      else otherwise
    end.

(** [handleResetPassword(event)]: [currentResetToken], the two password
    fields, the text on the button and how the request and [loadWatches]
    end, to [currentResetToken] afterwards and what the page does. *)
Definition handleResetPassword (token : option string)
    (password confirmPassword originalText : string) (r : reply) (loaded : bool)
  : option string * list ui :=
  if negb (String.eqb password confirmPassword)
  then (token, [PreventDefault; Toast (JStr "Passwords do not match") "error"])
  else if (length16 password <? 8)%nat
  then (token, [PreventDefault;
                Toast (JStr "Password must be at least 8 characters") "error"])
  else
    match token with
    | None | Some EmptyString =>
      (token, [PreventDefault; Toast (JStr "Invalid reset token") "error"])
    | Some t =>
      let '(token', done) :=
        match r with
        | Rejected => (token, reset_failed)
        | Replied ok data => on_reply token ok data loaded
        end in
      (token',
       [PreventDefault; ButtonText "Resetting..."; ButtonDisabled true;
        Post "/api/users/reset-password"
             [("token", JStr t); ("password", JStr password)]]
       ++ done
       ++ [ButtonText originalText; ButtonDisabled false])
    end.

(** [checkForResetToken()]: [currentResetToken], the [reset] parameter of
    the page's URL ([None] when it has none) and how the request ends. *)
Definition checkForResetToken (token : option string) (resetToken : option string)
    (r : reply) : option string * list ui :=
  match resetToken with
  | None | Some EmptyString => (token, [])
  | Some t =>
    let request := Get ("/api/users/verify-reset-token/" +:+ t) in
    let failed :=
      (token, [request; ConsoleError "Error verifying reset token:";
               Toast (JStr "Failed to verify reset link.") "error"]) in
    match r with
    | Rejected => failed
    | Replied _ data =>
      match property data "valid" with
      | None => failed
      | Some valid =>
        if truthy valid then
          match property data "email" with
          | None => failed
          | Some email =>
            (Some t, [request; EmailDisplay email; OpenModal "reset-password"])
          end
        else
          (token, [request;
                   Toast (JStr "This reset link is invalid or has expired.") "error";
                   ClearResetParam])
      end
    end
  end.

(** What happens on the page, one call after the other. *)
Inductive call : Type :=
| Check (resetToken : option string) (r : reply)
| Reset (password confirmPassword originalText : string) (r : reply) (loaded : bool)
| Close.

Definition step (token : option string) (c : call) : option string * list ui :=
  match c with
  | Check resetToken r => checkForResetToken token resetToken r
  | Reset password confirmPassword originalText r loaded =>
    handleResetPassword token password confirmPassword originalText r loaded
  | Close => closeResetModal
  end.

(** The calls in order, from a value of [currentResetToken]: the value at
    the end and everything the page did. *)
Fixpoint run (token : option string) (calls : list call) : option string * list ui :=
  match calls with
  | [] => (token, [])
  | c :: rest =>
    let '(token', done) := step token c in
    let '(token'', more) := run token' rest in
    (token'', done ++ more)
  end.

(** The tokens the server has called valid in answer to a [Check]. *)
Fixpoint validated (calls : list call) : list string :=
  match calls with
  | [] => []
  | Check (Some t) (Replied _ data) :: rest =>
    match property data "valid" with
    | Some valid => if truthy valid then t :: validated rest else validated rest
    | None => validated rest
    end
  | _ :: rest => validated rest
  end.

End ResetPassword.

(** ** v29_patch.py: what the steps make of a file's content *)

Module V29Text.
Import Py Sys.

(** The content [patch_index_html] writes. *)
Definition index_html_text (content : string) : string :=
  V29.replace_if_found V29.old_watches_header V29.new_watches_header
    (V29.replace_if_found V29.old_edit_watch V29.new_edit_watch
       (V29.replace_if_found V29.old_add_watch V29.new_add_watch content)).

(** The content of a detail page after [patch_set_html] or
    [patch_minifig_html]. *)
Definition detail_page_text (content : string) : string :=
  if contains "openModal('login')" content
  then replace "openModal('login')" "openModal('signup')" content
  else content.

(** What [patch_set_html] and [patch_minifig_html] write, [None] when they
    write nothing. *)
Definition detail_page_write (content : string) : option string :=
  if contains "openModal('login')" content
  then Some (replace "openModal('login')" "openModal('signup')" content)
  else None.

(** The disk after a step that copies [p] to its backup, reads it and
    writes [text] of it when that is some content; a missing [p] leaves
    the disk as it is. *)
Definition after_step (p : string) (text : string -> option string) (fs : files)
  : files :=
  match fs !! p with
  | Some c =>
    match text c with
    | None => <[V29.backup_path p := c]> fs
    | Some new => <[p := new]> (<[V29.backup_path p := c]> fs)
    end
  | None => fs
  end.

(** The disk after the five steps of [main] in their order. *)
Definition after_main (fs : files) : files :=
  after_step V29.minifig_html detail_page_write
    (after_step V29.set_html detail_page_write
       (after_step V29.watches_ts V29.watches_ts_text
          (after_step V29.app_js V29.app_js_text
             (after_step V29.index_html (fun c => Some (index_html_text c)) fs)))).

(** The backups of the five files. *)
Definition backups : list string := map V29.backup_path V29.targets.

End V29Text.

(** ** v30_frontend_patch.py: the checks and the disk after the patches *)

Module V30Text.
Import Py Sys.

(** The list [verify_patches] returns for the contents of set.html and
    minifig.html. *)
Definition errors (set_content minifig_content : string) : list string :=
  V30.check (negb (contains "currencySymbol" set_content))
            "set.html: currencySymbol not found"
  ++ V30.check (negb (contains "getCurrencySymbol" set_content))
               "set.html: getCurrencySymbol function not found"
  ++ V30.check (contains "return '€' + value;" set_content)
               "set.html: hardcoded € still in Y-axis"
  ++ V30.check (negb (contains "getUserCountry" minifig_content))
               "minifig.html: getUserCountry function not found"
  ++ V30.check (negb (contains "country=${getUserCountry()}" minifig_content))
               "minifig.html: country parameter not in API call"
  ++ V30.check (negb (contains "history.symbol" minifig_content))
               "minifig.html: symbol from API not used"
  ++ V30.check (contains "return '€' + value;" minifig_content)
               "minifig.html: hardcoded € still in Y-axis".

(** The disk after the two backups and the two patches, for pages [s] and
    [m]. *)
Definition patched (s m : string) (fs : files) : files :=
  <[V30.minifig_html := V30.minifig_html_text m]>
    (<[V30.set_html := V30.set_html_text s]>
       (<[V30.minifig_html_bak := m]> (<[V30.set_html_bak := s]> fs))).

End V30Text.

(** ** apply-seo.py: the replacement of the head *)

Module SeoText.
Import Py.

Definition NEW_HEAD : string :=
  "<!DOCTYPE html>
<html lang=" +:+ dq +:+ "en" +:+ dq +:+ ">
<head>
  <meta charset=" +:+ dq +:+ "UTF-8" +:+ dq +:+ ">
  <meta name=" +:+ dq +:+ "viewport" +:+ dq +:+ " content=" +:+ dq +:+ "width=device-width, initial-scale=1.0" +:+ dq +:+ ">
  
  <!-- Primary SEO -->
  <title>LEGO Deal Alerts & Price Tracker | ScoutLoot - USA, UK, Europe</title>
  <meta name=" +:+ dq +:+ "description" +:+ dq +:+ " content=" +:+ dq +:+ "Free LEGO deal alerts & price tracker. Get instant notifications when LEGO sets hit your target price on eBay. Track deals in USA, Canada, UK & Europe. Never miss a LEGO bargain!" +:+ dq +:+ ">
  <meta name=" +:+ dq +:+ "keywords" +:+ dq +:+ " content=" +:+ dq +:+ "LEGO deal alerts, LEGO price tracker, LEGO deals, eBay LEGO, cheap LEGO sets, LEGO price alerts, LEGO bargains, LEGO discount finder" +:+ dq +:+ ">
  <meta name=" +:+ dq +:+ "author" +:+ dq +:+ " content=" +:+ dq +:+ "ScoutLoot" +:+ dq +:+ ">
  <meta name=" +:+ dq +:+ "robots" +:+ dq +:+ " content=" +:+ dq +:+ "index, follow, max-image-preview:large" +:+ dq +:+ ">
  <link rel=" +:+ dq +:+ "canonical" +:+ dq +:+ " href=" +:+ dq +:+ "https://scoutloot.com/" +:+ dq +:+ ">
  
  <!-- Open Graph / Facebook -->
  <meta property=" +:+ dq +:+ "og:type" +:+ dq +:+ " content=" +:+ dq +:+ "website" +:+ dq +:+ ">
  <meta property=" +:+ dq +:+ "og:url" +:+ dq +:+ " content=" +:+ dq +:+ "https://scoutloot.com/" +:+ dq +:+ ">
  <meta property=" +:+ dq +:+ "og:title" +:+ dq +:+ " content=" +:+ dq +:+ "LEGO Deal Alerts & Price Tracker | ScoutLoot" +:+ dq +:+ ">
  <meta property=" +:+ dq +:+ "og:description" +:+ dq +:+ " content=" +:+ dq +:+ "Free LEGO price alerts. Set your target price, get instant notifications when deals drop on eBay. USA, Canada, UK & Europe." +:+ dq +:+ ">
  <meta property=" +:+ dq +:+ "og:image" +:+ dq +:+ " content=" +:+ dq +:+ "https://scoutloot.com/og-image.png" +:+ dq +:+ ">
  <meta property=" +:+ dq +:+ "og:site_name" +:+ dq +:+ " content=" +:+ dq +:+ "ScoutLoot" +:+ dq +:+ ">
  <meta property=" +:+ dq +:+ "og:locale" +:+ dq +:+ " content=" +:+ dq +:+ "en_US" +:+ dq +:+ ">

  <!-- Twitter -->
  <meta name=" +:+ dq +:+ "twitter:card" +:+ dq +:+ " content=" +:+ dq +:+ "summary_large_image" +:+ dq +:+ ">
  <meta name=" +:+ dq +:+ "twitter:url" +:+ dq +:+ " content=" +:+ dq +:+ "https://scoutloot.com/" +:+ dq +:+ ">
  <meta name=" +:+ dq +:+ "twitter:title" +:+ dq +:+ " content=" +:+ dq +:+ "LEGO Deal Alerts & Price Tracker | ScoutLoot" +:+ dq +:+ ">
  <meta name=" +:+ dq +:+ "twitter:description" +:+ dq +:+ " content=" +:+ dq +:+ "Free LEGO price alerts. Get notified when sets hit your target price on eBay." +:+ dq +:+ ">
  <meta name=" +:+ dq +:+ "twitter:image" +:+ dq +:+ " content=" +:+ dq +:+ "https://scoutloot.com/og-image.png" +:+ dq +:+ ">
  
  <!-- PWA Manifest -->
  <link rel=" +:+ dq +:+ "manifest" +:+ dq +:+ " href=" +:+ dq +:+ "/manifest.json" +:+ dq +:+ ">
  <meta name=" +:+ dq +:+ "theme-color" +:+ dq +:+ " content=" +:+ dq +:+ "#0A0A0F" +:+ dq +:+ ">
  <meta name=" +:+ dq +:+ "apple-mobile-web-app-capable" +:+ dq +:+ " content=" +:+ dq +:+ "yes" +:+ dq +:+ ">
  <meta name=" +:+ dq +:+ "apple-mobile-web-app-status-bar-style" +:+ dq +:+ " content=" +:+ dq +:+ "black-translucent" +:+ dq +:+ ">
  <meta name=" +:+ dq +:+ "apple-mobile-web-app-title" +:+ dq +:+ " content=" +:+ dq +:+ "ScoutLoot" +:+ dq +:+ ">
  
  <!-- Fonts -->
  <link rel=" +:+ dq +:+ "preconnect" +:+ dq +:+ " href=" +:+ dq +:+ "https://fonts.googleapis.com" +:+ dq +:+ ">
  <link rel=" +:+ dq +:+ "preconnect" +:+ dq +:+ " href=" +:+ dq +:+ "https://fonts.gstatic.com" +:+ dq +:+ " crossorigin>
  <link href=" +:+ dq +:+ "https://fonts.googleapis.com/css2?family=Space+Mono:wght@400;700&family=Outfit:wght@300;400;500;600;700;800&display=swap" +:+ dq +:+ " rel=" +:+ dq +:+ "stylesheet" +:+ dq +:+ ">
  
  <!-- Favicon -->
  <link rel=" +:+ dq +:+ "icon" +:+ dq +:+ " href=" +:+ dq +:+ "/favicon.ico" +:+ dq +:+ " type=" +:+ dq +:+ "image/x-icon" +:+ dq +:+ ">
  <link rel=" +:+ dq +:+ "shortcut icon" +:+ dq +:+ " href=" +:+ dq +:+ "/favicon.ico" +:+ dq +:+ " type=" +:+ dq +:+ "image/x-icon" +:+ dq +:+ ">
  <link rel=" +:+ dq +:+ "apple-touch-icon" +:+ dq +:+ " href=" +:+ dq +:+ "/icon-192.png" +:+ dq +:+ ">
  
  <!-- Structured Data - WebApplication -->
  <script type=" +:+ dq +:+ "application/ld+json" +:+ dq +:+ ">
  {
    " +:+ dq +:+ "@context" +:+ dq +:+ ": " +:+ dq +:+ "https://schema.org" +:+ dq +:+ ",
    " +:+ dq +:+ "@type" +:+ dq +:+ ": " +:+ dq +:+ "WebApplication" +:+ dq +:+ ",
    " +:+ dq +:+ "name" +:+ dq +:+ ": " +:+ dq +:+ "ScoutLoot" +:+ dq +:+ ",
    " +:+ dq +:+ "alternateName" +:+ dq +:+ ": " +:+ dq +:+ "LEGO Deal Alerts" +:+ dq +:+ ",
    " +:+ dq +:+ "description" +:+ dq +:+ ": " +:+ dq +:+ "LEGO deal alerts and price tracker. Get instant notifications when LEGO sets hit your target price on eBay." +:+ dq +:+ ",
    " +:+ dq +:+ "url" +:+ dq +:+ ": " +:+ dq +:+ "https://scoutloot.com" +:+ dq +:+ ",
    " +:+ dq +:+ "applicationCategory" +:+ dq +:+ ": " +:+ dq +:+ "ShoppingApplication" +:+ dq +:+ ",
    " +:+ dq +:+ "operatingSystem" +:+ dq +:+ ": " +:+ dq +:+ "Web Browser" +:+ dq +:+ ",
    " +:+ dq +:+ "browserRequirements" +:+ dq +:+ ": " +:+ dq +:+ "Requires JavaScript" +:+ dq +:+ ",
    " +:+ dq +:+ "offers" +:+ dq +:+ ": {
      " +:+ dq +:+ "@type" +:+ dq +:+ ": " +:+ dq +:+ "Offer" +:+ dq +:+ ",
      " +:+ dq +:+ "price" +:+ dq +:+ ": " +:+ dq +:+ "0" +:+ dq +:+ ",
      " +:+ dq +:+ "priceCurrency" +:+ dq +:+ ": " +:+ dq +:+ "USD" +:+ dq +:+ ",
      " +:+ dq +:+ "description" +:+ dq +:+ ": " +:+ dq +:+ "Free tier available" +:+ dq +:+ "
    },
    " +:+ dq +:+ "featureList" +:+ dq +:+ ": [
      " +:+ dq +:+ "LEGO price alerts" +:+ dq +:+ ",
      " +:+ dq +:+ "eBay deal tracking" +:+ dq +:+ ", 
      " +:+ dq +:+ "Telegram notifications" +:+ dq +:+ ",
      " +:+ dq +:+ "Push notifications" +:+ dq +:+ ",
      " +:+ dq +:+ "USA, Canada, UK & Europe support" +:+ dq +:+ ",
      " +:+ dq +:+ "Multi-currency tracking" +:+ dq +:+ "
    ]
  }
  </script>
  
  <!-- Structured Data - Organization -->
  <script type=" +:+ dq +:+ "application/ld+json" +:+ dq +:+ ">
  {
    " +:+ dq +:+ "@context" +:+ dq +:+ ": " +:+ dq +:+ "https://schema.org" +:+ dq +:+ ",
    " +:+ dq +:+ "@type" +:+ dq +:+ ": " +:+ dq +:+ "Organization" +:+ dq +:+ ",
    " +:+ dq +:+ "name" +:+ dq +:+ ": " +:+ dq +:+ "ScoutLoot" +:+ dq +:+ ",
    " +:+ dq +:+ "url" +:+ dq +:+ ": " +:+ dq +:+ "https://scoutloot.com" +:+ dq +:+ ",
    " +:+ dq +:+ "logo" +:+ dq +:+ ": " +:+ dq +:+ "https://scoutloot.com/icon-512.png" +:+ dq +:+ ",
    " +:+ dq +:+ "description" +:+ dq +:+ ": " +:+ dq +:+ "LEGO deal alerts and price tracking service" +:+ dq +:+ "
  }
  </script>
  
  <!-- Styles -->
  <link rel=" +:+ dq +:+ "stylesheet" +:+ dq +:+ " href=" +:+ dq +:+ "/css/styles.css" +:+ dq +:+ ">
</head>".

(** [.*?stop] under [re.DOTALL] at the head of [s]: what is left after the
    first [stop]. *)
Fixpoint after_first (stop s : string) : option string :=
  match drop_lit stop s with
  | Some rest => Some rest
  | None =>
    match s with
    | EmptyString => None
    | String _ r => after_first stop r
    end
  end.

(** A match of [<!DOCTYPE html>.*?</head>] at the head of [s]: what is left
    after it. *)
Definition match_head (s : string) : option string :=
  match drop_lit "<!DOCTYPE html>" s with
  | Some t => after_first "</head>" t
  | None => None
  end.

(** [re.search(pattern, s, re.DOTALL)] as a truth value. *)
Fixpoint search_head (s : string) : bool :=
  match match_head s with
  | Some _ => true
  | None =>
    match s with
    | EmptyString => false
    | String _ r => search_head r
    end
  end.

(** [re.sub(pattern, NEW_HEAD, s, flags=re.DOTALL)]: [NEW_HEAD] has no
    backslash, so the template is the text itself. *)
Fixpoint sub_head_from (skip : nat) (s : string) : string :=
  match s with
  | EmptyString => EmptyString
  | String c r =>
    match skip with
    | S k => sub_head_from k r
    | O =>
      match match_head s with
      | Some rest =>
        NEW_HEAD +:+ sub_head_from (String.length s - String.length rest - 1) r
      | None => String c (sub_head_from 0 r)
      end
    end
  end.

(** What [main] writes, [None] when it finds no head. *)
Definition replace_head (content : string) : option string :=
  if search_head content then Some (sub_head_from 0 content) else None.

End SeoText.

(** ** patch-notification-prefs.py: the two rewritings *)

Module NotifPrefsText.
Import Py.

Definition notification_ui : string :=
  "<div class=" +:+ dq +:+ "form-divider" +:+ dq +:+ ">Notifications</div>
        
        <div class=" +:+ dq +:+ "form-group" +:+ dq +:+ ">
          <label style=" +:+ dq +:+ "display: flex; align-items: center; gap: 12px; cursor: pointer; padding: 8px 0;" +:+ dq +:+ ">
            <input type=" +:+ dq +:+ "checkbox" +:+ dq +:+ " id=" +:+ dq +:+ "settings-weekly-digest" +:+ dq +:+ " checked style=" +:+ dq +:+ "width: 20px; height: 20px; accent-color: var(--accent);" +:+ dq +:+ ">
            <span style=" +:+ dq +:+ "color: var(--text-secondary);" +:+ dq +:+ ">
              📊 <strong>Weekly Digest</strong> — Sunday summary of all your watches
            </span>
          </label>
        </div>
        
        <div class=" +:+ dq +:+ "form-group" +:+ dq +:+ ">
          <label style=" +:+ dq +:+ "display: flex; align-items: center; gap: 12px; cursor: pointer; padding: 8px 0;" +:+ dq +:+ ">
            <input type=" +:+ dq +:+ "checkbox" +:+ dq +:+ " id=" +:+ dq +:+ "settings-still-available" +:+ dq +:+ " style=" +:+ dq +:+ "width: 20px; height: 20px; accent-color: var(--accent);" +:+ dq +:+ ">
            <span style=" +:+ dq +:+ "color: var(--text-secondary);" +:+ dq +:+ ">
              💡 <strong>" +:+ dq +:+ "Still Available" +:+ dq +:+ " Reminders</strong> — Notify after 3 days if deal &gt;20% off is still there
            </span>
          </label>
        </div>
        
        ".

(** [save_button_pattern] *)
Definition save_button_pattern : list atom :=
  [Lit ("<div style=" +:+ dq +:+ "margin-top: 24px;" +:+ dq +:+ ">");
   Spaces;
   Lit ("<button type=" +:+ dq +:+ "submit" +:+ dq +:+ " class=" +:+ dq +:+ "btn btn-primary" +:+ dq);
   NotGt;
   Lit ">Save Settings</button>";
   Spaces;
   Lit "</div>";
   Spaces;
   Lit "</form>";
   Spaces;
   Lit "</div>";
   Spaces;
   Lit "</div>";
   SpacesNewline;
   Lit "<!-- Toast"].

(** The button the alternative test looks for. *)
Definition save_button : string :=
  "<button type=" +:+ dq +:+ "submit" +:+ dq +:+ " class=" +:+ dq +:+ "btn btn-primary" +:+ dq +:+ " style=" +:+ dq +:+ "width: 100%;" +:+ dq +:+ ">Save Settings</button>".

(** The text the alternative replacement looks for. *)
Definition save_block : string :=
  "<div style=" +:+ dq +:+ "margin-top: 24px;" +:+ dq +:+ ">
          <button type=" +:+ dq +:+ "submit" +:+ dq +:+ " class=" +:+ dq +:+ "btn btn-primary" +:+ dq +:+ " style=" +:+ dq +:+ "width: 100%;" +:+ dq +:+ ">Save Settings</button>
        </div>
      </form>".

Definition old_settings_body : string :=
  "ship_to_country: country,
          timezone: timezone,".
Definition new_settings_body : string :=
  "ship_to_country: country,
          timezone: timezone,
          weekly_digest_enabled: document.getElementById('settings-weekly-digest').checked,
          still_available_reminders: document.getElementById('settings-still-available').checked,".

Definition old_load : string :=
  "document.getElementById('settings-country').value = state.user.ship_to_country;".
Definition new_load : string :=
  "document.getElementById('settings-country').value = state.user.ship_to_country;
          document.getElementById('settings-weekly-digest').checked = state.user.weekly_digest_enabled ?? true;
          document.getElementById('settings-still-available').checked = state.user.still_available_reminders ?? false;".

(** Part 1: public/index.html. *)
Definition html_text (html : string) : string :=
  let html :=
    if search save_button_pattern html
    then sub save_button_pattern (fun found => notification_ui +:+ found) html
    else if contains save_button html
    then replace save_block (notification_ui +:+ save_block) html
    else replace ("<div class=" +:+ dq +:+ "form-divider" +:+ dq +:+ ">Telegram</div>")
                 ("<div class=" +:+ dq +:+ "form-divider" +:+ dq +:+ ">Telegram</div>")
                 html in
  let html := V29.replace_if_found old_settings_body new_settings_body html in
  V29.replace_if_found old_load new_load html.

Definition old_destructure : string :=
  "const { ship_to_country, timezone } = req.body;".
Definition new_destructure : string :=
  "const { ship_to_country, timezone, weekly_digest_enabled, still_available_reminders } = req.body;".

Definition new_route : string :=
  "
// Update user settings (generic PATCH)
router.patch('/:id', async (req: Request, res: Response): Promise<void> => {
  try {
    const id = parseInt(req.params.id, 10);
    if (isNaN(id)) {
      res.status(400).json({ error: 'Invalid user ID' });
      return;
    }

    const { 
      ship_to_country, 
      timezone, 
      weekly_digest_enabled, 
      still_available_reminders 
    } = req.body;

    const updates: string[] = [];
    const values: (string | boolean)[] = [];
    let paramCount = 1;

    if (ship_to_country !== undefined) {
      updates.push(`ship_to_country = $${paramCount++}`);
      values.push(ship_to_country);
    }
    if (timezone !== undefined) {
      updates.push(`timezone = $${paramCount++}`);
      values.push(timezone);
    }
    if (weekly_digest_enabled !== undefined) {
      updates.push(`weekly_digest_enabled = $${paramCount++}`);
      values.push(weekly_digest_enabled);
    }
    if (still_available_reminders !== undefined) {
      updates.push(`still_available_reminders = $${paramCount++}`);
      values.push(still_available_reminders);
    }

    if (updates.length === 0) {
      res.status(400).json({ error: 'No fields to update' });
      return;
    }

    updates.push('updated_at = NOW()');
    values.push(id);

    const result = await query(
      `UPDATE users SET ${updates.join(', ')} WHERE id = $${paramCount} AND deleted_at IS NULL RETURNING *`,
      values
    );

    if (result.rows.length === 0) {
      res.status(404).json({ error: 'User not found' });
      return;
    }

    const { password_hash: _, ...safeUser } = result.rows[0] as Record<string, unknown>;
    res.json(safeUser);
  } catch (error) {
    console.error('Update user settings error:', error);
    res.status(500).json({ error: 'Failed to update user settings' });
  }
});

".

(** Part 2: src/routes/users.ts. *)
Definition users_ts_text (users_ts : string) : string :=
  if contains "weekly_digest_enabled" users_ts then users_ts
  else if contains "router.patch('/:id'," users_ts then
    let users_ts := V29.replace_if_found old_destructure new_destructure users_ts in
    if contains "ship_to_country, timezone" users_ts
       && negb (contains "weekly_digest_enabled" users_ts)
    then replace "ship_to_country, timezone }"
           "ship_to_country, timezone, weekly_digest_enabled, still_available_reminders }"
           users_ts
    else users_ts
  else if contains "export default router;" users_ts
  then replace "export default router;" (new_route +:+ "export default router;")
         users_ts
  else users_ts +:+ new_route.

(** The script with its rewritings. *)
Definition script : Sys.io Z := NotifPrefs.script html_text users_ts_text.

End NotifPrefsText.

(** ** public/patch-index-html.py: the form toggle and the style sheet *)

Module IndexHtmlText.
Import Py Sys.

Definition FILE : string := "index.html".

Definition old_form_start : string :=
  "<form class=" +:+ dq +:+ "add-watch-form" +:+ dq +:+ " onsubmit=" +:+ dq +:+ "handleAddWatch(event)" +:+ dq +:+ ">
        <div class=" +:+ dq +:+ "form-group autocomplete-container" +:+ dq +:+ ">
          <label for=" +:+ dq +:+ "watch-set" +:+ dq +:+ ">Set Number or Name</label>".
Definition new_form_start : string :=
  "<form class=" +:+ dq +:+ "add-watch-form" +:+ dq +:+ " onsubmit=" +:+ dq +:+ "handleAddWatch(event)" +:+ dq +:+ ">
        <!-- V24: Item Type Toggle -->
        <div class=" +:+ dq +:+ "watch-type-toggle" +:+ dq +:+ ">
          <button type=" +:+ dq +:+ "button" +:+ dq +:+ " class=" +:+ dq +:+ "toggle-btn active" +:+ dq +:+ " data-type=" +:+ dq +:+ "set" +:+ dq +:+ " onclick=" +:+ dq +:+ "switchWatchType('set')" +:+ dq +:+ ">
            🧱 Set
          </button>
          <button type=" +:+ dq +:+ "button" +:+ dq +:+ " class=" +:+ dq +:+ "toggle-btn" +:+ dq +:+ " data-type=" +:+ dq +:+ "minifig" +:+ dq +:+ " onclick=" +:+ dq +:+ "switchWatchType('minifig')" +:+ dq +:+ ">
            🧍 Minifigure
          </button>
        </div>
        
        <div class=" +:+ dq +:+ "form-group autocomplete-container" +:+ dq +:+ ">
          <label for=" +:+ dq +:+ "watch-set" +:+ dq +:+ ">Set Number or Name</label>".

Definition css_additions : string :=
  "
/* V24: Minifig Support Styles */
.watch-type-toggle {
  display: flex;
  gap: 0;
  margin-bottom: 16px;
  border-radius: 8px;
  overflow: hidden;
  border: 1px solid rgba(255, 255, 255, 0.1);
}

.watch-type-toggle .toggle-btn {
  flex: 1;
  padding: 12px 16px;
  border: none;
  background: rgba(255, 255, 255, 0.05);
  color: var(--text-muted);
  cursor: pointer;
  font-size: 0.95rem;
  font-weight: 500;
  transition: all 0.2s ease;
  display: flex;
  align-items: center;
  justify-content: center;
  gap: 8px;
}

.watch-type-toggle .toggle-btn:hover {
  background: rgba(255, 255, 255, 0.1);
  color: var(--text);
}

.watch-type-toggle .toggle-btn.active {
  background: var(--accent);
  color: white;
}

.watch-type-toggle .toggle-btn:first-child {
  border-radius: 7px 0 0 7px;
}

.watch-type-toggle .toggle-btn:last-child {
  border-radius: 0 7px 7px 0;
}

.watch-type-badge {
  display: inline-block;
  font-size: 0.65rem;
  padding: 2px 6px;
  border-radius: 4px;
  margin-left: 8px;
  vertical-align: middle;
  text-transform: uppercase;
  letter-spacing: 0.5px;
  font-weight: 600;
}

.watch-type-badge.minifig {
  background: linear-gradient(135deg, #9333ea, #7c3aed);
  color: white;
}

".

(** [s.rfind(sub)]: where the last occurrence of [sub] starts, [None] for
    Python's [-1]. *)
Fixpoint rfind (sub s : string) : option nat :=
  match s with
  | EmptyString => if String.prefix sub s then Some O else None
  | String _ r =>
    match rfind sub r with
    | Some i => Some (S i)
    | None => if String.prefix sub s then Some O else None
    end
  end.

(** Patch 1: the toggle buttons at the head of the Add Watch form. *)
Definition form_text (content : string) : string :=
  if contains old_form_start content
  then replace old_form_start new_form_start content
  else content.

(** Patch 2: [content[:last_style_pos] + css_additions +
    content[last_style_pos:]], where the slices at [-1] cut before the
    last character. *)
Definition style_text (content : string) : string :=
  if contains "</style>" content then
    let last_style_pos :=
      match rfind "</style>" content with
      | Some i => i
      | None => (String.length content - 1)%nat
      end in
    take last_style_pos content +:+ css_additions +:+ drop last_style_pos content
  else content.

(** What [main] writes for the content it read. *)
Definition patches (content : string) : string := style_text (form_text content).

Definition main (stamp : string) : io Z := V24.main FILE patches stamp.

End IndexHtmlText.

(** ** Files that do not decode, writes that fail

    The scripts open their files as text.  A read decodes the bytes, and
    raises where they are not text in the encoding in use; it hands over
    [\n] for every line end.  A write can fail when the file is opened or
    after it has been emptied.  [shutil.copy] copies bytes.  None of the
    scripts modelled here catches these errors. *)

Module TextIO.
Import Py.

(** What a file holds: the encoding of a text, given by that text, or
    bytes that the encoding cannot decode. *)
Inductive content : Type :=
| Text (s : string)
| Undecodable (bytes : string).

Abbreviation disk := (gmap string content).

(** What opening a path for writing runs into: [open] raises and the file
    stays as it is, or the file is emptied and the write raises after [n]
    characters of the data. *)
Inductive fault : Type :=
| Denied
| Cut (n : nat).

Inductive error : Type :=
| FileNotFoundError (path : string)
| UnicodeDecodeError (path : string)
| OSError (path : string)
| SystemExit (code : Z).

Definition tio (A : Type) : Type := disk -> disk * (error + A).

#[export] Instance tio_ret : MRet tio := fun A a d => (d, inr a).

#[export] Instance tio_bind : MBind tio := fun A B k m d =>
  match m d with
  | (d', inr a) => k a d'
  | (d', inl e) => (d', inl e)
  end.

Definition raise {A} (e : error) : tio A := fun d => (d, inl e).

(** The text a read in text mode hands over: [\r\n] and [\r] become
    [\n]. *)
Fixpoint universal_newlines (s : string) : string :=
  match s with
  | EmptyString => EmptyString
  | String c r =>
    if Ascii.eqb c "013"
    then String "010"
           match r with
           | String d r' =>
             if Ascii.eqb d "010" then universal_newlines r'
             else universal_newlines r
           | EmptyString => EmptyString
           end
    else String c (universal_newlines r)
  end.

(** The first [n] characters of what was to be written. *)
Definition cut (n : nat) (c : content) : content :=
  match c with
  | Text s => Text (take n s)
  | Undecodable b => Undecodable (take n b)
  end.

Section Host.

(** The paths that cannot be written, and how the write fails. *)
Variable faults : string -> option fault.

(** [os.path.exists(p)] *)
Definition exists_ (p : string) : tio bool :=
  fun d => (d, inr (bool_decide (is_Some (d !! p)))).

(** [open(p, 'r').read()] *)
Definition read_text (p : string) : tio string :=
  fun d => match d !! p with
           | None => (d, inl (FileNotFoundError p))
           | Some (Undecodable _) => (d, inl (UnicodeDecodeError p))
           | Some (Text s) => (d, inr (universal_newlines s))
           end.

(** Opening [p] for writing and writing [c]. *)
Definition store (p : string) (c : content) : tio unit :=
  fun d => match faults p with
           | None => (<[p := c]> d, inr tt)
           | Some Denied => (d, inl (OSError p))
           | Some (Cut n) => (<[p := cut n c]> d, inl (OSError p))
           end.

(** [open(p, 'w').write(s)]; on the server [\n] is written as it is. *)
Definition write_text (p s : string) : tio unit := store p (Text s).

(** [shutil.copy(src, dst)] *)
Definition copy (src dst : string) : tio unit :=
  fun d => match d !! src with
           | None => (d, inl (FileNotFoundError src))
           | Some c => store dst c d
           end.

End Host.

(** The errors of reading and writing, as against a missing file and
    [sys.exit]. *)
Definition io_error (e : error) : bool :=
  match e with
  | UnicodeDecodeError _ | OSError _ => true
  | FileNotFoundError _ | SystemExit _ => false
  end.

(** The text [target] held before a run is still on disk after it: in
    [target] itself, which the run did not change, or in [backup], there
    with [\n] for every line end. *)
Definition keeps_text (before after : disk) (target backup : string) : Prop :=
  after !! target = before !! target
  \/ exists s, before !! target = Some (Text s)
       /\ after !! backup = Some (Text (universal_newlines s)).

(** No path fails. *)
Definition no_faults : string -> option fault := fun _ => None.

(** The write of [p] fails as [f], every other write goes through. *)
Definition fails_at (p : string) (f : fault) : string -> option fault :=
  fun q => if String.eqb q p then Some f else None.

End TextIO.

(** ** v30_frontend_patch.py on such a disk *)

Module V30IO.
Import Py TextIO.

Section Run.
Variable faults : string -> option fault.

Definition patch_set_html : tio bool :=
  content ← read_text V30.set_html;
  write_text faults V30.set_html (V30.set_html_text content);;
  mret true.

Definition patch_minifig_html : tio bool :=
  content ← read_text V30.minifig_html;
  write_text faults V30.minifig_html (V30.minifig_html_text content);;
  mret true.

Definition verify_patches : tio (list string) :=
  set_content ← read_text V30.set_html;
  minifig_content ← read_text V30.minifig_html;
  mret (V30Text.errors set_content minifig_content).

(** [main()]; the script ends with status 0 when it returns. *)
Definition main : tio Z :=
  found ← exists_ V30.set_html;
  if negb found then raise (SystemExit 1)
  else
    copy faults V30.set_html V30.set_html_bak;;
    copy faults V30.minifig_html V30.minifig_html_bak;;
    patch_set_html;;
    patch_minifig_html;;
    errors ← verify_patches;
    match errors with
    | [] => mret 0
    | _ :: _ =>
      copy faults V30.set_html_bak V30.set_html;;
      copy faults V30.minifig_html_bak V30.minifig_html;;
      raise (SystemExit 1)
    end.

End Run.

(** Both pages carry the patch of the text they held, and the checks pass
    on them. *)
Definition both_patched (before after : disk) : Prop :=
  exists s m,
    before !! V30.set_html = Some (Text s)
    /\ before !! V30.minifig_html = Some (Text m)
    /\ after !! V30.set_html
       = Some (Text (V30.set_html_text (universal_newlines s)))
    /\ after !! V30.minifig_html
       = Some (Text (V30.minifig_html_text (universal_newlines m)))
    /\ verify_patches after = (after, inr []).

(** Both pages are what they were. *)
Definition both_as_before (before after : disk) : Prop :=
  after !! V30.set_html = before !! V30.set_html
  /\ after !! V30.minifig_html = before !! V30.minifig_html.

(** Bytes that are no UTF-8: a lone [0xFF]. *)
Definition garbled : content := Undecodable (String (ascii_of_nat 255) EmptyString).

Definition sample_disk : disk :=
  {[ V30.set_html := Text V30.sample_page; V30.minifig_html := Text V30.sample_page ]}.

Definition garbled_disk : disk :=
  {[ V30.set_html := Text V30.sample_page; V30.minifig_html := garbled ]}.

End V30IO.

(** ** patch-notification-prefs.py on such a disk *)

Module NotifPrefsIO.
Import Py TextIO.

Section Script.
Variable faults : string -> option fault.
Variable html_patches : string -> string.
Variable users_ts_patches : string -> string.

(** The script's top level: each backup is written from the text read. *)
Definition script : tio Z :=
  html ← read_text NotifPrefs.index_html;
  write_text faults NotifPrefs.index_bak html;;
  write_text faults NotifPrefs.index_html (html_patches html);;
  users ← read_text NotifPrefs.users_ts;
  write_text faults NotifPrefs.users_bak users;;
  write_text faults NotifPrefs.users_ts (users_ts_patches users);;
  mret 0.

End Script.

(** A page with Windows line ends, and a disk that holds it. *)
Definition crlf_page : string :=
  "<html>" +:+ String "013" (String "010" "</html>").

Definition crlf_disk : disk :=
  {[ NotifPrefs.index_html := Text crlf_page;
     NotifPrefs.users_ts := Text "export default router;" ]}.

End NotifPrefsIO.

(* ===================================================================== *)
(** * Part II: theorems                                                   *)
(* ===================================================================== *)

(** Two concrete paths differ. *)
Ltac paths_differ := let H := fresh in intros H; cbv in H; discriminate H.

(** A concrete path is none of the listed ones. *)
Ltac not_among :=
  rewrite !not_elem_of_cons; split_and!; [paths_differ.. | apply not_elem_of_nil].

(** ** The bulk-condition route *)

Section WatchesFacts.
Import JS Watches.

Lemma selected_iff uid w :
  selected uid w = true <-> user_id w = uid /\ status w = "active".
Proof.
  unfold selected. rewrite andb_true_iff, Z.eqb_eq, String.eqb_eq. tauto.
Qed.

Lemma includes_conditions c :
  includes ["new"; "used"; "any"] (Some (JStr c)) = true
  <-> c = "new" \/ c = "used" \/ c = "any".
Proof.
  simpl. rewrite orb_false_r, !orb_true_iff, !String.eqb_eq. tauto.
Qed.

(** Every decimal numeral is a user id the route reads: the ids it turns
    away are among those that are no numerals. *)
Lemma parseInt_decimal_numeral s :
  decimal_numeral s = true -> is_Some (parseInt s).
Proof.
  assert (Hdigits : forall c r, is_Some (digit c) ->
             is_Some (parseInt (String c r))).
  { intros c r [d Hd]. unfold parseInt.
    destruct c as [[] [] [] [] [] [] [] []]; vm_compute in Hd; try discriminate;
      simpl; eauto. }
  assert (Hfirst : forall r, negb (String.eqb r "") && all_digits r = true ->
             exists c r', r = String c r' /\ is_Some (digit c)).
  { intros [|c r']; [discriminate|]. unfold all_digits. simpl.
    rewrite andb_true_iff, bool_decide_eq_true. intros [Hc _]. eauto. }
  unfold decimal_numeral.
  destruct s as [|c r]; [discriminate|].
  destruct (Ascii.eqb c "-") eqn:Hm; [apply Ascii.eqb_eq in Hm as ->|].
  { intros (c & r' & -> & [d Hd])%Hfirst. unfold parseInt. simpl. rewrite Hd. eauto. }
  destruct (Ascii.eqb c "+") eqn:Hp; [apply Ascii.eqb_eq in Hp as ->|].
  { intros (c & r' & -> & [d Hd])%Hfirst. unfold parseInt. simpl. rewrite Hd. eauto. }
  intros H. assert (negb (String.eqb (String c r) "") && all_digits (String c r) = true) as H'.
  { destruct c as [[] [] [] [] [] [] [] []]; try discriminate; exact H. }
  apply Hfirst in H' as (c' & r' & [= <- <-] & Hd). by apply Hdigits.
Qed.

(** What the statement does to the row at each position. *)
Lemma update_condition_lookup c uid now rows i w :
  rows !! i = Some w ->
  (update_condition c uid now rows).1 !! i
  = Some (if selected uid w then assign c now w else w).
Proof.
  intros Hw. unfold update_condition. simpl.
  rewrite list_lookup_fmap, Hw. reflexivity.
Qed.

Lemma update_condition_count c uid now rows :
  (update_condition c uid now rows).2
  = Z.of_nat (length (filter (fun w => user_id w = uid /\ status w = "active") rows)).
Proof.
  unfold update_condition. simpl. do 2 f_equal.
  apply list_filter_iff. intros w. apply selected_iff.
Qed.

(** Rows the statement does not select are left as they were. *)
Lemma update_condition_none c uid now rows :
  (forall w, w ∈ rows -> selected uid w = false) ->
  update_condition c uid now rows = (rows, 0).
Proof.
  intros Hno. unfold update_condition. f_equal.
  - induction rows as [|w rows IH]; [reflexivity|]. simpl.
    rewrite (Hno w) by left. f_equal. apply IH.
    intros w' Hw'. apply Hno. by right.
  - induction rows as [|w rows IH]; [reflexivity|].
    rewrite filter_cons. destruct (decide (selected uid w = true)) as [Hs|_].
    + rewrite (Hno w) in Hs by left. discriminate.
    + apply IH. intros w' Hw'. apply Hno. by right.
Qed.

(** A well-formed request reaches the statement. *)
Lemma bulk_condition_valid now req db uid c :
  parseInt (userId req) = Some uid ->
  assoc "condition" (body req) = Some (JStr c) ->
  c = "new" \/ c = "used" \/ c = "any" ->
  bulk_condition now req db =
  match query c uid now db with
  | Some (db', n) =>
    (db', Response 200 (JObj [("success", JBool true); ("updated", JNum n);
                              ("condition", JStr c)]))
  | None => (db, error 500 "Failed to update watches")
  end.
Proof.
  intros Hid Hc Hin. unfold bulk_condition. rewrite Hid, Hc.
  apply includes_conditions in Hin as Hinc. rewrite Hinc.
  assert (truthy (Some (JStr c)) = true) as ->.
  { destruct Hin as [->|[->| ->]]; reflexivity. }
  reflexivity.
Qed.

Lemma query_reachable c uid now db :
  reachable db = true ->
  query c uid now db
  = Some ({| watches := (update_condition c uid now (watches db)).1;
             reachable := reachable db |},
          (update_condition c uid now (watches db)).2).
Proof. intros Hup. unfold query. rewrite Hup. reflexivity. Qed.

Lemma safe_12 : safe_integer 12.
Proof. unfold safe_integer. simpl. lia. Defined.

(** C1.  For a user id [uid] (one a Number holds exactly, as every id of
    the table is) and a condition [c] among new, used and any,
    the route answers 200 with [updated] the number of the user's active
    watches; the table keeps its rows in place, every active watch of the
    user has condition [c] (and the statement's time stamp) and is
    otherwise as before, every other watch is untouched; with no active
    watch of the user the answer is still the success, with count 0, and
    the table is as before. *)
Theorem bulk_condition_sets_every_active_watch now req db uid c :
  reachable db = true ->
  parseInt (userId req) = Some uid ->
  safe_integer uid ->
  assoc "condition" (body req) = Some (JStr c) ->
  c = "new" \/ c = "used" \/ c = "any" ->
  exists db' n,
    bulk_condition now req db
    = (db', Response 200 (JObj [("success", JBool true); ("updated", JNum n);
                                ("condition", JStr c)]))
    /\ n = Z.of_nat (length (filter (fun w => user_id w = uid /\ status w = "active")
                                    (watches db)))
    /\ length (watches db') = length (watches db)
    /\ (forall i w, watches db !! i = Some w ->
          exists w', watches db' !! i = Some w'
            /\ id w' = id w /\ user_id w' = user_id w
            /\ item_id w' = item_id w /\ status w' = status w
            /\ (user_id w = uid /\ status w = "active" ->
                condition w' = c /\ updated_at w' = now)
            /\ (~ (user_id w = uid /\ status w = "active") -> w' = w))
    /\ ((forall w, w ∈ watches db -> ~ (user_id w = uid /\ status w = "active")) ->
        n = 0 /\ db' = db).
Proof.
  intros Hup Hid _ Hc Hin.
  rewrite (bulk_condition_valid now req db uid c Hid Hc Hin).
  rewrite (query_reachable c uid now db Hup).
  eexists _, _. split; [reflexivity|].
  split; [apply update_condition_count|].
  split; [simpl; apply length_fmap|].
  split.
  - intros i w Hw. cbn [watches].
    rewrite (update_condition_lookup c uid now _ i w Hw).
    eexists. split; [reflexivity|].
    destruct (selected uid w) eqn:Hs.
    + apply selected_iff in Hs. simpl.
      repeat (split; [reflexivity|]).
      split; [intros _; split; reflexivity | intros Hn; contradiction].
    + repeat (split; [reflexivity|]).
      split; [|intros _; reflexivity].
      intros Hy. apply selected_iff in Hy. congruence.
  - intros Hno.
    rewrite update_condition_none.
    + split; [reflexivity|]. destruct db; simpl. reflexivity.
    + intros w Hw. destruct (selected uid w) eqn:Hs; [|reflexivity].
      apply selected_iff in Hs. destruct (Hno w Hw Hs).
Qed.

(** The route on the sample table, for user 12 and condition new. *)
Lemma bulk_condition_sets_every_active_watch_witness :
  exists db',
    bulk_condition 200 (sample_request "12" "new") sample_db
    = (db', Response 200 (JObj [("success", JBool true); ("updated", JNum 1);
                                ("condition", JStr "new")]))
    /\ length (watches db') = 3%nat.
Proof.
  destruct (bulk_condition_sets_every_active_watch 200
              (sample_request "12" "new") sample_db 12 "new"
              eq_refl eq_refl safe_12 eq_refl (or_introl eq_refl))
    as (db' & n & Hr & Hn & Hlen & _).
  exists db'. subst n. split; [exact Hr | exact Hlen].
Defined.

(** C2, as the claim states it, fails: after a first call that set every
    active watch of user 12 to new (none is left with another condition),
    the second call reports 1 again, not 0. *)
Lemma bulk_condition_second_count_not_zero :
  let req := sample_request "12" "new" in
  let first := bulk_condition 200 req sample_db in
  let second := bulk_condition 300 req first.1 in
  first.2 = Response 200 (JObj [("success", JBool true); ("updated", JNum 1);
                                ("condition", JStr "new")])
  /\ filter (fun w => user_id w = 12 /\ status w = "active" /\ condition w <> "new")
            (watches first.1) = []
  /\ second.2 = Response 200 (JObj [("success", JBool true); ("updated", JNum 1);
                                    ("condition", JStr "new")]).
Proof. repeat split. Qed.

(** C2, amended.  A second call right after the first answers as the first
    did, with the same count (the number of the user's active watches, which
    the statement rewrites again), and leaves every column but [updated_at]
    of every watch as the first call left it; at the same clock reading the
    table is the same. *)
Theorem bulk_condition_twice now1 now2 req db uid c :
  reachable db = true ->
  parseInt (userId req) = Some uid ->
  safe_integer uid ->
  assoc "condition" (body req) = Some (JStr c) ->
  c = "new" \/ c = "used" \/ c = "any" ->
  let first := bulk_condition now1 req db in
  let second := bulk_condition now2 req first.1 in
  second.2 = first.2
  /\ second.2 = Response 200 (JObj
       [("success", JBool true);
        ("updated", JNum (Z.of_nat (length (filter
            (fun w => user_id w = uid /\ status w = "active") (watches db)))));
        ("condition", JStr c)])
  /\ length (watches second.1) = length (watches first.1)
  /\ (forall i w, watches first.1 !! i = Some w ->
        exists w', watches second.1 !! i = Some w'
          /\ id w' = id w /\ user_id w' = user_id w /\ item_id w' = item_id w
          /\ condition w' = condition w /\ status w' = status w)
  /\ (now2 = now1 -> second.1 = first.1).
Proof.
  intros Hup Hid _ Hc Hin first second. subst first second.
  rewrite (bulk_condition_valid now1 req db uid c Hid Hc Hin).
  rewrite (query_reachable c uid now1 db Hup). simpl fst.
  rewrite (bulk_condition_valid now2 req _ uid c Hid Hc Hin).
  rewrite query_reachable by exact Hup. simpl fst. simpl snd.
  set (rows1 := map _ (watches db)).
  assert (Hcount : length (filter (fun w => selected uid w = true) rows1)
                   = length (filter (fun w => selected uid w = true) (watches db))).
  { subst rows1. induction (watches db) as [|w rows IH]; [reflexivity|].
    simpl map. rewrite !filter_cons.
    destruct (selected uid w) eqn:Hs.
    - assert (selected uid (assign c now1 w) = true) as Hs' by exact Hs.
      rewrite Hs'. simpl. rewrite IH. reflexivity.
    - rewrite Hs. simpl. exact IH. }
  split; [rewrite Hcount; reflexivity|].
  split.
  { rewrite Hcount.
    rewrite (list_filter_iff (fun w => selected uid w = true)
               (fun w => user_id w = uid /\ status w = "active"))
      by (intros w; apply selected_iff).
    reflexivity. }
  split; [apply length_fmap|].
  split.
  - intros i w Hw. cbn [watches] in Hw |- *.
    rewrite list_lookup_fmap, Hw. simpl.
    eexists. split; [reflexivity|].
    destruct (selected uid w) eqn:Hs; [|repeat split].
    repeat split. simpl.
    subst rows1. apply list_lookup_fmap_Some in Hw as (w0 & -> & Hw0).
    destruct (selected uid w0) eqn:Hs0; [reflexivity|]. congruence.
  - intros ->. f_equal. subst rows1. rewrite <- list_fmap_compose.
    apply list_fmap_ext. intros i w _. simpl.
    destruct (selected uid w) eqn:Hs.
    + assert (selected uid (assign c now1 w) = true) as -> by exact Hs. reflexivity.
    + rewrite Hs. reflexivity.
Qed.

(** Two calls on the sample table, a clock tick apart. *)
Lemma bulk_condition_twice_witness :
  let req := sample_request "12" "new" in
  (bulk_condition 300 req (bulk_condition 200 req sample_db).1).2
  = (bulk_condition 200 req sample_db).2.
Proof.
  exact (proj1 (bulk_condition_twice 200 300 (sample_request "12" "new")
                  sample_db 12 "new" eq_refl eq_refl safe_12 eq_refl
                  (or_introl eq_refl))).
Defined.

(** C7, as the claim states it, fails: the id 12abc is no number, yet the
    route reads it as 12, answers 200 and rewrites a watch of user 12. *)
Lemma bulk_condition_accepts_numeric_prefix :
  let result := bulk_condition 200 (sample_request "12abc" "new") sample_db in
  decimal_numeral "12abc" = false
  /\ result.2 = Response 200 (JObj [("success", JBool true); ("updated", JNum 1);
                                    ("condition", JStr "new")])
  /\ watches result.1 !! 0%nat = Some (Watch 1 12 "75192" "new" "active" 200)
  /\ watches sample_db !! 0%nat = Some (Watch 1 12 "75192" "used" "active" 100).
Proof. repeat split. Qed.

(** C7, amended.  A request whose user id [parseInt] reads no integer from,
    or whose condition is not one of the strings new, used and any (missing
    and non-string values included), is answered 400 and the table is left
    as it was. *)
Theorem bulk_condition_rejects_malformed now req db :
  parseInt (userId req) = None
  \/ (forall c, assoc "condition" (body req) = Some (JStr c) ->
                c <> "new" /\ c <> "used" /\ c <> "any") ->
  exists msg, bulk_condition now req db = (db, Response 400 (JObj [("error", JStr msg)])).
Proof.
  intros Hbad. unfold bulk_condition.
  destruct (parseInt (userId req)) as [uid|] eqn:Hid.
  - destruct Hbad as [Hbad|Hbad]; [discriminate|].
    assert (includes ["new"; "used"; "any"] (assoc "condition" (body req)) = false) as ->.
    { destruct (assoc "condition" (body req)) as [[| | |c| |]|]; try reflexivity.
      destruct (includes _ _) eqn:Hinc; [|reflexivity].
      apply includes_conditions in Hinc. destruct (Hbad c eq_refl) as (?&?&?).
      destruct Hinc as [?|[?|?]]; contradiction. }
    rewrite orb_true_r. eexists. reflexivity.
  - eexists. reflexivity.
Qed.

(** A request without a numeric id, and one with an unknown condition. *)
Lemma bulk_condition_rejects_malformed_witness :
  (exists msg, bulk_condition 200 (sample_request "abc" "new") sample_db
               = (sample_db, Response 400 (JObj [("error", JStr msg)])))
  /\ (exists msg, bulk_condition 200 (sample_request "12" "mint") sample_db
                  = (sample_db, Response 400 (JObj [("error", JStr msg)]))).
Proof.
  split.
  - apply (bulk_condition_rejects_malformed 200 (sample_request "abc" "new") sample_db).
    left. reflexivity.
  - apply (bulk_condition_rejects_malformed 200 (sample_request "12" "mint") sample_db).
    right. intros c [= <-]. repeat split; discriminate.
Defined.

End WatchesFacts.

(** ** The forgot-password handler *)

Section ForgotPasswordFacts.
Import JS ForgotPassword.

(** C3.  Whatever e-mail was typed and whatever the acknowledging reply
    carries (so whether or not the server found an account), the page does
    the same things in the same order: it closes the modal, shows the one
    generic success toast and clears the field.  Only the request itself
    carries the e-mail. *)
Theorem forgot_password_reveals_nothing email1 email2 text data1 data2 :
  (handleForgotPassword email1 text (Replied true data1)).2
  = (handleForgotPassword email2 text (Replied true data2)).2
  /\ (handleForgotPassword email1 text (Replied true data1)).2
     = [PreventDefault; ButtonText "Sending..."; ButtonDisabled true;
        CloseModal "forgot-password";
        Toast (JStr "If an account exists, a reset link has been sent to your email.")
              "success";
        ClearEmail;
        ButtonText text; ButtonDisabled false].
Proof. split; reflexivity. Qed.

(** The success toast is shown after an acknowledging reply only. *)
Lemma forgot_password_success_only_if_ok email text r :
  Toast (JStr generic_success) "success" ∈ (handleForgotPassword email text r).2 ->
  exists data, r = Replied true data.
Proof.
  destruct r as [|[] data]; [|eauto|]; unfold handleForgotPassword; simpl.
  - rewrite !elem_of_cons, elem_of_nil. intros H.
    repeat destruct H as [H|H]; try discriminate; contradiction.
  - unfold on_reply. destruct (property data "error") as [e|]; simpl;
      rewrite !elem_of_cons, elem_of_nil; intros H;
      repeat destruct H as [H|H]; try discriminate; try contradiction.
Qed.

(** Both scripts insert the same text of the handler. *)
Lemma handleForgotPassword_text_in_both_scripts :
  Py.contains HandlerText.handleForgotPassword_text Fix.JS_FUNCTIONS = true
  /\ Py.contains HandlerText.handleForgotPassword_text PasswordReset.js_code = true.
Proof. split; by vm_compute. Qed.

End ForgotPasswordFacts.

(** ** The currency helpers *)

Section CurrencyFacts.
Import JS Currency.


(** The country the helper compares: the stored user's [ship_to_country]
    when it is a string. *)
Lemma getCurrencySymbol_string_code toUpperCase fields code :
  assoc "ship_to_country" fields = Some (JStr code) ->
  getCurrencySymbol toUpperCase (Parsed (JObj fields))
  = if String.eqb (toUpperCase code) "US" then "$"
    else if String.eqb (toUpperCase code) "CA" then "C$"
    else if String.eqb (toUpperCase code) "GB" then pound
    else euro.
Proof.
  intros Hc. unfold getCurrencySymbol, getCurrencySymbol_try. simpl. rewrite Hc.
  assert (or_else (Some (JStr code)) (JStr "") = JStr code) as ->.
  { unfold or_else. simpl. destruct code; reflexivity. }
  simpl. repeat (destruct (String.eqb _ _); [reflexivity|]). reflexivity.
Qed.



End CurrencyFacts.

(** ** Notification preferences *)

Section SettingsFacts.
Import JS Settings.

(** C8.  For a user record without the two preference fields (or with
    [null] in them) the settings view shows the weekly-digest box checked
    and the still-available box unchecked; that is also how the two boxes
    are when the page is parsed. *)
Theorem settings_defaults (user : list (string * json)) :
  assoc "weekly_digest_enabled" user = None
  \/ assoc "weekly_digest_enabled" user = Some JNull ->
  assoc "still_available_reminders" user = None
  \/ assoc "still_available_reminders" user = Some JNull ->
  load user = {| weekly_digest := true; still_available := false |}
  /\ as_parsed = {| weekly_digest := true; still_available := false |}.
Proof.
  intros Hw Hs. split; [|reflexivity].
  unfold load. destruct Hw as [-> | ->], Hs as [-> | ->]; reflexivity.
Qed.

(** A user record from before the patch. *)
Lemma settings_defaults_witness :
  load old_user = {| weekly_digest := true; still_available := false |}
  /\ as_parsed = {| weekly_digest := true; still_available := false |}.
Proof.
  apply (settings_defaults old_user); left; reflexivity.
Defined.

(** A stored preference is shown as stored. *)
Lemma settings_load_stored (user : list (string * json)) (w s : bool) :
  assoc "weekly_digest_enabled" user = Some (JBool w) ->
  assoc "still_available_reminders" user = Some (JBool s) ->
  load user = {| weekly_digest := w; still_available := s |}.
Proof. intros Hw Hs. unfold load. rewrite Hw, Hs. reflexivity. Qed.

End SettingsFacts.

(** ** The user settings route *)

Section UsersFacts.
Import JS Users.

Lemma assoc_None_iff k (fields : list (string * json)) :
  assoc k fields = None <-> forall v, (k, v) ∉ fields.
Proof.
  induction fields as [|[k' v'] rest IH]; simpl.
  - split; [intros _ v; apply not_elem_of_nil|reflexivity].
  - destruct (String.eqb k k') eqn:Hk.
    + apply String.eqb_eq in Hk as ->. split; [discriminate|].
      intros H. destruct (H v'). left.
    + apply String.eqb_neq in Hk. rewrite IH. split.
      * intros H v [[= -> _]|Hin]%elem_of_cons; [congruence|]. exact (H v Hin).
      * intros H v Hin. apply (H v). by right.
Qed.

(** What is left after the destructuring has no [password_hash]. *)
Lemma safeUser_no_password_hash (r : list (string * json)) :
  assoc "password_hash" (safeUser r) = None.
Proof.
  apply assoc_None_iff. intros v Hin. unfold safeUser in Hin.
  apply list_elem_of_filter in Hin as [Hk _]. simpl in Hk. discriminate.
Qed.

Lemma safeUser_filter (r : list (string * json)) :
  safeUser r = filter (fun kv => kv.1 <> "password_hash") r.
Proof.
  unfold safeUser. apply list_filter_iff. intros [k v]. simpl.
  rewrite negb_true_iff. apply String.eqb_neq.
Qed.

(** Every row the statement returns is a row of the table afterwards. *)
Lemma update_returning_in_table sets id now rows r :
  r ∈ (update_returning sets id now rows).2 ->
  r ∈ (update_returning sets id now rows).1.
Proof.
  unfold update_returning. simpl.
  intros (r0 & -> & Hin)%list_elem_of_fmap.
  apply list_elem_of_filter in Hin as [Hsel Hin].
  apply list_elem_of_fmap. exists r0. rewrite Hsel. split; [reflexivity|exact Hin].
Qed.

(** The other answers of the route carry an [error] field only. *)
Lemma patch_user_error_payload now req db db' code payload :
  patch_user now req db = (db', Response code payload) ->
  code <> 200 ->
  exists msg, payload = JObj [("error", JStr msg)].
Proof.
  unfold patch_user.
  destruct (parseInt (id_param req)) as [id|]; [|intros [= <- <- <-] _; eauto].
  destruct (length (assignments (body req)) =? 0)%nat; [intros [= <- <- <-] _; eauto|].
  destruct (query _ id now db) as [[db1 [|first rest]]|];
    intros [= <- <- <-] Hc; eauto. congruence.
Qed.

End UsersFacts.

(** ** Python strings *)

Section PyFacts.
Import Py.

Lemma append_cons (c : ascii) (a b : string) :
  String c a +:+ b = String c (a +:+ b).
Proof. reflexivity. Qed.

Lemma append_nil_r (s : string) : s +:+ "" = s.
Proof.
  induction s as [|c s IH]; [reflexivity|]. rewrite append_cons. by f_equal.
Qed.

Lemma append_assoc (a b c : string) : (a +:+ b) +:+ c = a +:+ (b +:+ c).
Proof.
  induction a as [|x a IH]; [reflexivity|]. rewrite !append_cons. by f_equal.
Qed.

Lemma length_append (a b : string) :
  String.length (a +:+ b) = (String.length a + String.length b)%nat.
Proof.
  induction a as [|x a IH]; [reflexivity|]. rewrite append_cons. simpl. by f_equal.
Qed.

(** A path and the path of its backup are two paths. *)
Lemma append_neq (p suffix : string) : suffix <> "" -> p <> p +:+ suffix.
Proof.
  intros Hs Heq. apply (f_equal String.length) in Heq.
  rewrite length_append in Heq. destruct suffix; [congruence|]. simpl in Heq. lia.
Qed.

Lemma prefix_iff (p s : string) :
  String.prefix p s = true <-> exists r, s = p +:+ r.
Proof.
  revert s. induction p as [|c p IH]; intros s.
  - split; [intros _; by exists s|]. intros _. by destruct s.
  - destruct s as [|d s]; [split; [discriminate|intros [r [=]]]|].
    simpl. destruct (ascii_dec c d) as [->|Hne].
    + rewrite IH. split; intros [r Hr]; exists r.
      * rewrite append_cons. congruence.
      * rewrite append_cons in Hr. congruence.
    + split; [discriminate|]. intros [r [= -> _]]. contradiction.
Qed.

(** [sub in s] holds exactly when [s] has [sub] somewhere inside. *)
Lemma contains_iff (sub s : string) :
  contains sub s = true <-> exists a b, s = a +:+ sub +:+ b.
Proof.
  induction s as [|c s IH].
  - change (contains sub "") with (String.prefix sub "" || false).
    rewrite orb_false_r, prefix_iff. split.
    + intros [r Hr]. by exists "", r.
    + intros ([|x a] & b & Hab); [by exists b|discriminate].
  - change (contains sub (String c s))
      with (String.prefix sub (String c s) || contains sub s).
    rewrite orb_true_iff, IH. split.
    + intros [Hp|(a & b & ->)].
      * apply prefix_iff in Hp as [r Hr]. by exists "", r.
      * by exists (String c a), b.
    + intros ([|x a] & b & Hab).
      * left. apply prefix_iff. by exists b.
      * right. injection Hab as -> ->. by exists a, b.
Qed.

Lemma contains_middle (m a b c : string) :
  contains m b = true -> contains m (a +:+ b +:+ c) = true.
Proof.
  rewrite !contains_iff. intros (x & y & ->).
  exists (a +:+ x), (y +:+ c). by rewrite !append_assoc.
Qed.

Lemma contains_append_r (m a b : string) :
  contains m b = true -> contains m (a +:+ b) = true.
Proof.
  intros H. rewrite <- (append_nil_r b). by apply contains_middle.
Qed.

(** Where [old] occurs, [replace] puts [new]. *)
Lemma replace_present (old new s : string) :
  old <> "" -> contains old s = true ->
  exists a b, replace old new s = a +:+ new +:+ b.
Proof.
  intros Hne. destruct old as [|o old]; [congruence|]. unfold replace.
  induction s as [|c s IH]; [discriminate|].
  cbn [contains replace_from]. destruct (String.prefix (String o old) (String c s)).
  - intros _. by eexists "", _.
  - simpl. intros Hc. destruct (IH Hc) as (a & b & ->). by exists (String c a), b.
Qed.

(** Where [old] does not occur, [replace] changes nothing. *)
Lemma replace_absent (old new s : string) :
  contains old s = false -> replace old new s = s.
Proof.
  destruct old as [|o old].
  - destruct s; discriminate.
  - unfold replace. induction s as [|c s IH]; [reflexivity|].
    cbn [contains replace_from].
    destruct (String.prefix (String o old) (String c s)); [discriminate|].
    simpl. intros Hc. by rewrite (IH Hc).
Qed.

(** A [replace] whose [new] carries a marker leaves the marker in the
    text, where [old] occurred. *)
Lemma replace_inserts_marker (marker old new s : string) :
  old <> "" -> contains old s = true -> contains marker new = true ->
  contains marker (replace old new s) = true.
Proof.
  intros Hne Hold Hm. destruct (replace_present old new s Hne Hold) as (a & b & ->).
  by apply contains_middle.
Qed.

(** *** The regular expressions *)

Lemma drop_lit_length text s r :
  drop_lit text s = Some r -> (String.length r + String.length text = String.length s)%nat.
Proof.
  revert s. induction text as [|a t IH]; intros [|b s]; simpl; try discriminate.
  - intros [= <-]. simpl. lia.
  - intros [= <-]. simpl. lia.
  - destruct (Ascii.eqb a b); [|discriminate]. intros H. apply IH in H. lia.
Qed.

Lemma drop_space_length s r :
  drop_space s = Some r -> (String.length r < String.length s)%nat.
Proof.
  destruct s as [|c s]; [discriminate|]. simpl.
  destruct (space1 c); [intros [= <-]; lia|].
  destruct c as [[] [] [] [] [] [] [] []]; try discriminate;
    destruct s as [|[[] [] [] [] [] [] [] []] s]; try discriminate;
    try (intros [= <-]; simpl; lia);
    destruct s as [|d s]; try discriminate;
    try (destruct (JS.ws_e2_80 d); [|discriminate]);
    try (destruct d as [[] [] [] [] [] [] [] []]; try discriminate);
    intros [= <-]; simpl; lia.
Qed.

Lemma drop_spaces_length fuel s :
  (String.length (drop_spaces fuel s) <= String.length s)%nat.
Proof.
  revert s. induction fuel as [|k IH]; intros s; simpl; [lia|].
  destruct (drop_space s) as [r|] eqn:Hr; [|lia].
  apply drop_space_length in Hr. specialize (IH r). lia.
Qed.

Lemma drop_equals_length s :
  (String.length (drop_equals s) <= String.length s)%nat.
Proof.
  induction s as [|c s IH]; simpl; [lia|].
  destruct c as [[] [] [] [] [] [] [] []]; simpl; lia.
Qed.

Lemma drop_not_gt_length s :
  (String.length (drop_not_gt s) <= String.length s)%nat.
Proof.
  induction s as [|c s IH]; simpl; [lia|].
  destruct (Ascii.eqb c ">"); simpl; lia.
Qed.

Lemma match_here_length p s rest :
  match_here p s = Some rest -> (String.length rest <= String.length s)%nat.
Proof.
  revert s. induction p as [|[text| | | |] p IH]; intros s; simpl.
  - intros [= <-]. lia.
  - destruct (drop_lit text s) as [r|] eqn:Hr; [|discriminate].
    intros H. apply IH in H. apply drop_lit_length in Hr. lia.
  - intros H. apply IH in H.
    pose proof (drop_spaces_length (String.length s) s). lia.
  - destruct s as [|c s]; [discriminate|].
    destruct c as [[] [] [] [] [] [] [] []]; try discriminate.
    intros H. apply IH in H. pose proof (drop_equals_length s). simpl. lia.
  - intros H. apply IH in H. pose proof (drop_not_gt_length s). lia.
  - destruct (contains _ _); [|discriminate].
    intros H. apply IH in H.
    pose proof (drop_spaces_length (String.length s) s). lia.
Qed.

(** A pattern that starts with literal text matches text that is not
    empty. *)
Lemma match_here_consumes c text p s rest :
  match_here (Lit (String c text) :: p) s = Some rest ->
  (String.length rest < String.length s)%nat.
Proof.
  cbn [match_here].
  destruct (drop_lit (String c text) s) as [r|] eqn:Hr; [|discriminate].
  intros H. apply match_here_length in H. apply drop_lit_length in Hr.
  simpl in Hr. lia.
Qed.

(** Where the pattern is found, [sub] puts a replacement. *)
Lemma sub_present c text p repl s :
  search (Lit (String c text) :: p) s = true ->
  exists a found b, sub (Lit (String c text) :: p) repl s = a +:+ repl found +:+ b.
Proof.
  unfold sub. set (pat := Lit (String c text) :: p).
  induction s as [|x s IH].
  - simpl. discriminate.
  - cbn [search sub_from].
    destruct (match_here pat (String x s)) as [rest|] eqn:Hm.
    + intros _. apply match_here_consumes in Hm.
      destruct (String.length (String x s) - String.length rest)%nat as [|k] eqn:Hn;
        [lia|].
      by eexists "", _, _.
    + intros Hs. destruct (IH Hs) as (a & found & b & ->).
      by exists (String x a), found, b.
Qed.

(** *** Pieces put into a text *)

Lemma prefix_empty s : String.prefix "" s = true.
Proof. by destruct s. Qed.

Lemma prefix_append_agree q l t :
  String.prefix q (l +:+ t) = true -> agree q l = true.
Proof.
  unfold agree. revert l. induction q as [|a q IH]; intros l.
  - intros _. by rewrite prefix_empty.
  - destruct l as [|b l]; [intros _; by rewrite prefix_empty, orb_true_r|].
    rewrite append_cons. simpl. destruct (ascii_dec a b) as [->|Hne].
    + destruct (ascii_dec b b); [|contradiction]. apply IH.
    + discriminate.
Qed.

Lemma prefix_inserted piece q s t :
  forallb (fun q' => negb (agree q' piece)) (tails q) = true ->
  inserted piece s t -> String.prefix q t = true -> String.prefix q s = true.
Proof.
  intros Hq Hins. revert q Hq.
  induction Hins as [|c s t Hins IH|s t Hins IH]; intros q Hq.
  - done.
  - destruct q as [|a q]; [done|]. simpl in *.
    apply andb_true_iff in Hq as [_ Hq].
    destruct (ascii_dec a c); [|done]. by apply IH.
  - destruct q as [|a q]; [intros _; apply prefix_empty|].
    intros Hp. apply prefix_append_agree in Hp.
    simpl in Hq. apply andb_true_iff in Hq as [Hq _]. by rewrite Hp in Hq.
Qed.

Lemma contains_cons p c s :
  contains p (String c s) = String.prefix p (String c s) || contains p s.
Proof. reflexivity. Qed.

Lemma contains_put p piece t :
  forallb (fun l => negb (agree p l)) (tails piece) = true ->
  contains p (piece +:+ t) = true -> contains p t = true.
Proof.
  induction piece as [|c l IH]; [done|].
  simpl tails. simpl forallb. intros [Hc Hl]%andb_true_iff.
  rewrite append_cons, contains_cons. intros [Hp|Hp]%orb_true_iff.
  - rewrite <- append_cons in Hp. apply prefix_append_agree in Hp.
    by rewrite Hp in Hc.
  - by apply IH.
Qed.

Lemma contains_inserted p piece s t :
  apart p piece = true -> inserted piece s t ->
  contains p t = true -> contains p s = true.
Proof.
  intros [Ha Hb]%andb_true_iff Hins.
  induction Hins as [|c s t Hins IH|s t Hins IH].
  - done.
  - rewrite !contains_cons. intros [Hp|Hp]%orb_true_iff.
    + apply orb_true_iff. left.
      by apply (prefix_inserted piece p _ (String c t)); [|constructor|].
    + apply orb_true_iff. right. by apply IH.
  - intros Hp. by apply IH, (contains_put p piece).
Qed.

Lemma inserted_refl piece s : inserted piece s s.
Proof. induction s; by constructor. Qed.

Lemma inserted_app piece a s t :
  inserted piece s t -> inserted piece (a +:+ s) (a +:+ t).
Proof. intros H. induction a; [done|]. rewrite !append_cons. by constructor. Qed.

Lemma take_drop n s : take n s +:+ drop n s = s.
Proof.
  revert s. induction n as [|n IH]; intros [|c s]; try reflexivity.
  simpl take. simpl drop. rewrite append_cons. by rewrite IH.
Qed.

Lemma inserted_sub p piece s skip :
  inserted piece (drop skip s) (sub_from p (fun found => found +:+ piece) skip s).
Proof.
  revert skip. induction s as [|c r IH]; intros skip.
  - destruct skip; constructor.
  - destruct skip as [|k]; [|apply IH].
    cbn [sub_from drop].
    destruct (match_here p (String c r)) as [rest|]; [|constructor; apply (IH 0%nat)].
    destruct (String.length (String c r) - String.length rest)%nat as [|k] eqn:Hn;
      [constructor; apply (IH 0%nat)|].
    rewrite append_assoc.
    rewrite <- (take_drop (S k) (String c r)) at 1.
    apply inserted_app. simpl drop. constructor. apply IH.
Qed.

Lemma strip_cons x c s :
  replace (String x "") "" (String c s)
  = if ascii_dec x c then replace (String x "") "" s
    else String c (replace (String x "") "" s).
Proof.
  unfold replace. cbn [replace_from String.prefix String.length Nat.sub].
  destruct (ascii_dec x c); [|reflexivity]. by rewrite prefix_empty.
Qed.

Lemma strip_app x a b :
  replace (String x "") "" (a +:+ b)
  = replace (String x "") "" a +:+ replace (String x "") "" b.
Proof.
  induction a as [|c a IH]; [reflexivity|].
  rewrite append_cons, !strip_cons, IH. by destruct (ascii_dec x c).
Qed.

Lemma sub_absent p repl s : search p s = false -> sub p repl s = s.
Proof.
  unfold sub. induction s as [|x s IH]; [reflexivity|].
  cbn [search sub_from]. destruct (match_here p (String x s)); [discriminate|].
  intros Hs. by rewrite (IH Hs).
Qed.

End PyFacts.

(** ** Running script steps *)

Section SysFacts.
Import Py Sys.

Lemma run_bind {A B} (m : io A) (k : A -> io B) (fs : files) :
  (m ≫= k) fs
  = match m fs with
    | (fs', inr a) => k a fs'
    | (fs', inl e) => (fs', inl e)
    end.
Proof. reflexivity. Qed.

Lemma run_ret {A} (a : A) (fs : files) : (mret a : io A) fs = (fs, inr a).
Proof. reflexivity. Qed.

Lemma run_exists p (fs : files) :
  exists_ p fs = (fs, inr (bool_decide (is_Some (fs !! p)))).
Proof. reflexivity. Qed.

Lemma run_read p (fs : files) c :
  fs !! p = Some c -> read_text p fs = (fs, inr c).
Proof. intros H. unfold read_text. by rewrite H. Qed.

Lemma run_read_missing p (fs : files) :
  fs !! p = None -> read_text p fs = (fs, inl (FileNotFoundError p)).
Proof. intros H. unfold read_text. by rewrite H. Qed.

Lemma run_write p c (fs : files) : write_text p c fs = (<[p := c]> fs, inr tt).
Proof. reflexivity. Qed.

Lemma run_copy src dst (fs : files) c :
  fs !! src = Some c -> copy src dst fs = (<[dst := c]> fs, inr tt).
Proof. intros H. unfold copy. rewrite run_bind, (run_read _ _ _ H). reflexivity. Qed.

Lemma run_copy_missing src dst (fs : files) :
  fs !! src = None -> copy src dst fs = (fs, inl (FileNotFoundError src)).
Proof. intros H. unfold copy. rewrite run_bind, (run_read_missing _ _ H). reflexivity. Qed.

(** *** Steps that leave paths alone, steps that back a file up *)

Lemma leaves_ret {A} paths (a : A) : leaves paths (mret a : io A).
Proof. intros fs q _. reflexivity. Qed.

Lemma leaves_raise {A} paths e : leaves paths (raise e : io A).
Proof. intros fs q _. reflexivity. Qed.

Lemma leaves_exists paths p : leaves paths (exists_ p).
Proof. intros fs q _. reflexivity. Qed.

Lemma leaves_dir_exists paths d : leaves paths (dir_exists d).
Proof. intros fs q _. reflexivity. Qed.

Lemma leaves_read paths p : leaves paths (read_text p).
Proof. intros fs q _. unfold read_text. by destruct (fs !! p). Qed.

Lemma leaves_write paths p c : p ∉ paths -> leaves paths (write_text p c).
Proof.
  intros Hp fs q Hq. rewrite run_write. simpl. apply lookup_insert_ne.
  intros ->. contradiction.
Qed.

Lemma leaves_bind {A B} paths (m : io A) (k : A -> io B) :
  leaves paths m -> (forall a, leaves paths (k a)) -> leaves paths (m ≫= k).
Proof.
  intros Hm Hk fs q Hq. rewrite run_bind. specialize (Hm fs q Hq).
  destruct (m fs) as [fs' [e|a]]; simpl in *; [exact Hm|].
  rewrite (Hk a fs' q Hq). exact Hm.
Qed.

Lemma leaves_copy paths src dst : dst ∉ paths -> leaves paths (copy src dst).
Proof.
  intros Hd. apply leaves_bind; [apply leaves_read|]. intros c. by apply leaves_write.
Qed.

Lemma leaves_try_except {A} paths (body handler : io A) :
  leaves paths body -> leaves paths handler -> leaves paths (try_except body handler).
Proof.
  intros Hb Hh fs q Hq. unfold try_except. specialize (Hb fs q Hq).
  destruct (body fs) as [fs' [[path|code]|a]]; simpl in *; try exact Hb.
  rewrite (Hh fs' q Hq). exact Hb.
Qed.

Lemma backs_up_leaves {A} p b (m : io A) : leaves [p] m -> backs_up p b m.
Proof. intros Hm fs. left. apply Hm. left. Qed.

(** The step that backs the file up comes first, and the rest leaves the
    file and its backup alone. *)
Lemma backs_up_bind_first {A B} p b (m : io A) (k : A -> io B) :
  backs_up p b m -> (forall a, leaves [p; b] (k a)) -> backs_up p b (m ≫= k).
Proof.
  intros Hm Hk fs. unfold keeps_original. rewrite run_bind. specialize (Hm fs).
  destruct (m fs) as [fs' [e|a]]; simpl in *; [exact Hm|].
  rewrite !(Hk a fs') by (rewrite !elem_of_cons; auto). exact Hm.
Qed.

(** The first step leaves the file and its backup alone, and the rest backs
    the file up. *)
Lemma backs_up_bind_rest {A B} p b (m : io A) (k : A -> io B) :
  leaves [p; b] m -> (forall a, backs_up p b (k a)) -> backs_up p b (m ≫= k).
Proof.
  intros Hm Hk fs. unfold keeps_original. rewrite run_bind.
  pose proof (Hm fs p) as Hp. pose proof (Hm fs b) as Hb.
  destruct (m fs) as [fs' [e|a]]; simpl in *.
  - left. apply Hp. left.
  - rewrite <- Hp by left. apply Hk.
Qed.

Lemma backs_up_try_except {A} p b (body handler : io A) :
  backs_up p b body -> leaves [p; b] handler ->
  backs_up p b (try_except body handler).
Proof.
  intros Hb Hh fs. unfold keeps_original, try_except. specialize (Hb fs).
  destruct (body fs) as [fs' [[path|code]|a]]; simpl in *; try exact Hb.
  rewrite !(Hh fs') by (rewrite !elem_of_cons; auto). exact Hb.
Qed.

End SysFacts.

Section RewritesFacts.
Import Py Sys.

Lemma rewrites_backs_up {A} p b (m : io A) :
  p <> b -> rewrites_with_backup p b m -> backs_up p b m.
Proof.
  intros Hpb Hm fs. unfold keeps_original.
  destruct (Hm fs) as [->|(c & Hc & [->|[new ->]])].
  - by left.
  - right. rewrite Hc. apply lookup_insert_eq.
  - right. rewrite Hc, lookup_insert_ne by done. apply lookup_insert_eq.
Qed.

Lemma rewrites_leaves {A} p b paths (m : io A) :
  rewrites_with_backup p b m -> p ∉ paths -> b ∉ paths -> leaves paths m.
Proof.
  intros Hm Hp Hb fs q Hq.
  assert (q <> p) by (intros ->; contradiction).
  assert (q <> b) by (intros ->; contradiction).
  destruct (Hm fs) as [->|(c & Hc & [->|[new ->]])].
  - reflexivity.
  - by rewrite lookup_insert_ne.
  - by rewrite !lookup_insert_ne.
Qed.

End RewritesFacts.

Section V29Facts.
Import Py Sys V29.

Lemma backup_path_neq p : p <> backup_path p.
Proof. apply append_neq. discriminate. Qed.

(** [backup_file] copies an existing file and changes no other path than
    the backup's. *)
Lemma run_backup_file p (fs : files) :
  backup_file p fs
  = match fs !! p with
    | Some c => (<[backup_path p := c]> fs, inr true)
    | None => (fs, inr false)
    end.
Proof.
  unfold backup_file. rewrite run_bind, run_exists.
  destruct (fs !! p) as [c|] eqn:Hp; simpl.
  - rewrite run_bind, (run_copy _ _ _ _ Hp). reflexivity.
  - reflexivity.
Qed.

(** The common shape of the five patch functions: back up, read, and
    write or not. *)
Lemma run_backup_read_write p (text : string -> option string) (fs : files) :
  (backup_file p;;
   content ← read_text p;
   match text content with
   | None => mret tt
   | Some content => write_text p content
   end) fs
  = match fs !! p with
    | Some c =>
      match text c with
      | None => (<[backup_path p := c]> fs, inr tt)
      | Some new => (<[p := new]> (<[backup_path p := c]> fs), inr tt)
      end
    | None => (fs, inl (FileNotFoundError p))
    end.
Proof.
  rewrite run_bind, run_backup_file. destruct (fs !! p) as [c|] eqn:Hp.
  - rewrite run_bind, (run_read _ _ c).
    2: { rewrite lookup_insert_ne by (symmetry; apply backup_path_neq). exact Hp. }
    destruct (text c); reflexivity.
  - rewrite run_bind, (run_read_missing _ _ Hp). reflexivity.
Qed.

Lemma rewrites_backup_read_write p (text : string -> option string) :
  rewrites_with_backup p (backup_path p)
    (backup_file p;;
     content ← read_text p;
     match text content with
     | None => mret tt
     | Some content => write_text p content
     end).
Proof.
  intros fs. rewrite run_backup_read_write.
  destruct (fs !! p) as [c|]; [|by left]. right. exists c. split; [done|].
  destruct (text c); simpl; eauto.
Qed.

Lemma run_patch_index_html (fs : files) :
  patch_index_html fs
  = (backup_file index_html;;
     content ← read_text index_html;
     match Some (replace_if_found old_watches_header new_watches_header
                   (replace_if_found old_edit_watch new_edit_watch
                      (replace_if_found old_add_watch new_add_watch content))) with
     | None => mret tt
     | Some content => write_text index_html content
     end) fs.
Proof. reflexivity. Qed.

Lemma rewrites_patch_index_html :
  rewrites_with_backup index_html (backup_path index_html) patch_index_html.
Proof.
  intros fs. rewrite run_patch_index_html.
  apply (rewrites_backup_read_write index_html (fun c => Some _)).
Qed.

Lemma rewrites_patch_app_js :
  rewrites_with_backup app_js (backup_path app_js) patch_app_js.
Proof. apply rewrites_backup_read_write. Qed.

Lemma rewrites_patch_watches_ts :
  rewrites_with_backup watches_ts (backup_path watches_ts) patch_watches_ts.
Proof. apply rewrites_backup_read_write. Qed.

Lemma rewrites_patch_detail_page p :
  rewrites_with_backup p (backup_path p) (patch_detail_page p).
Proof.
  intros fs.
  pose proof (rewrites_backup_read_write p
    (fun content => if contains "openModal('login')" content
                    then Some (replace "openModal('login')" "openModal('signup')" content)
                    else None) fs) as H.
  simpl in H.
  unfold patch_detail_page. rewrite run_bind, run_exists.
  destruct (fs !! p) as [c|] eqn:Hp; simpl; [|by left].
  assert (Heq : forall cont : string,
    (if contains "openModal('login')" cont
     then write_text p (replace "openModal('login')" "openModal('signup')" cont)
     else mret tt)
    = match (if contains "openModal('login')" cont
             then Some (replace "openModal('login')" "openModal('signup')" cont)
             else None) with
      | None => mret tt
      | Some content => write_text p content
      end).
  { intros cont. by destruct (contains _ cont). }
  rewrite !run_bind in *. destruct (backup_file p fs) as [fs1 [e|a]]; [exact H|].
  rewrite !run_bind in *. destruct (read_text p fs1) as [fs2 [e|cont]]; [exact H|].
  rewrite Heq. exact H.
Qed.

(** What each step leaves in its file. *)
Lemma patch_app_js_content (fs : files) :
  (patch_app_js fs).1 !! app_js
  = (fun c => default c (app_js_text c)) <$> fs !! app_js.
Proof.
  unfold patch_app_js. rewrite run_backup_read_write.
  destruct (fs !! app_js) as [c|] eqn:Hp; simpl; [|exact Hp].
  destruct (app_js_text c); simpl.
  - by rewrite lookup_insert_eq.
  - rewrite lookup_insert_ne by (symmetry; apply backup_path_neq). exact Hp.
Qed.

Lemma patch_watches_ts_content (fs : files) :
  (patch_watches_ts fs).1 !! watches_ts
  = (fun c => default c (watches_ts_text c)) <$> fs !! watches_ts.
Proof.
  unfold patch_watches_ts. rewrite run_backup_read_write.
  destruct (fs !! watches_ts) as [c|] eqn:Hp; simpl; [|exact Hp].
  destruct (watches_ts_text c); simpl.
  - by rewrite lookup_insert_eq.
  - rewrite lookup_insert_ne by (symmetry; apply backup_path_neq). exact Hp.
Qed.

End V29Facts.

(** ** The v30 patch as a whole *)

Section V30Facts.
Import Py Sys V30.

(** With both pages on disk [verify_patches] reads them and changes
    nothing. *)
Lemma run_verify_patches (fs : files) a b :
  fs !! set_html = Some a -> fs !! minifig_html = Some b ->
  exists errors, verify_patches fs = (fs, inr errors).
Proof.
  intros Ha Hb. unfold verify_patches.
  rewrite run_bind, (run_read _ _ _ Ha), run_bind, (run_read _ _ _ Hb), run_ret.
  eauto.
Qed.

Lemma run_patch_set_html (fs : files) s :
  fs !! set_html = Some s ->
  patch_set_html fs = (<[set_html := set_html_text s]> fs, inr true).
Proof.
  intros Hs. unfold patch_set_html. rewrite run_bind, (run_read _ _ _ Hs).
  rewrite run_bind, run_write. reflexivity.
Qed.

Lemma run_patch_minifig_html (fs : files) m :
  fs !! minifig_html = Some m ->
  patch_minifig_html fs = (<[minifig_html := minifig_html_text m]> fs, inr true).
Proof.
  intros Hm. unfold patch_minifig_html. rewrite run_bind, (run_read _ _ _ Hm).
  rewrite run_bind, run_write. reflexivity.
Qed.

End V30Facts.

(** ** Running a patch twice *)

Section IdempotenceFacts.
Import Py Sys.

Lemma contains_append_l (m a b : string) :
  contains m a = true -> contains m (a +:+ b) = true.
Proof.
  intros H. change (a +:+ b) with ("" +:+ a +:+ b). by apply contains_middle.
Qed.

(** A step that does nothing once its marker is in the text, and that
    leaves the marker whenever it changes the text, is idempotent. *)
Lemma guarded_idempotent (marker : string) (step : string -> string) :
  (forall c, contains marker c = true -> step c = c) ->
  (forall c, step c = c \/ contains marker (step c) = true) ->
  forall c, step (step c) = step c.
Proof.
  intros Hskip Hmark c. destruct (Hmark c) as [Heq|Hm].
  - by rewrite !Heq.
  - by apply Hskip.
Qed.

Lemma app_js_text_idempotent c :
  default (default c (V29.app_js_text c)) (V29.app_js_text (default c (V29.app_js_text c)))
  = default c (V29.app_js_text c).
Proof.
  apply (guarded_idempotent "handleBulkConditionChange"
           (fun c => default c (V29.app_js_text c))).
  - intros c' Hc. unfold V29.app_js_text. by rewrite Hc.
  - intros c'. unfold V29.app_js_text.
    destruct (contains _ c') eqn:Hc; [by left|right]. simpl.
    apply contains_append_r. by vm_compute.
Qed.

Lemma watches_ts_text_idempotent c :
  default (default c (V29.watches_ts_text c))
          (V29.watches_ts_text (default c (V29.watches_ts_text c)))
  = default c (V29.watches_ts_text c).
Proof.
  apply (guarded_idempotent "bulk-condition"
           (fun c => default c (V29.watches_ts_text c))).
  - intros c' Hc. unfold V29.watches_ts_text. by rewrite Hc.
  - intros c'. unfold V29.watches_ts_text.
    destruct (contains "bulk-condition" c') eqn:Hc; [by left|].
    destruct (List.find _ _) as [pattern|] eqn:Hf.
    + right. cbn [from_option id]. apply List.find_some in Hf as [Hin Hp].
      apply replace_inserts_marker; [|exact Hp|].
      * intros ->. simpl in Hin. intuition discriminate.
      * apply contains_append_l. by vm_compute.
    + destruct (contains "const router = Router();" c') eqn:Hr; [right|by left].
      cbn [from_option id]. apply replace_inserts_marker; [discriminate|exact Hr|].
      apply contains_append_r. by vm_compute.
Qed.

Lemma JS_FUNCTIONS_marker : contains Fix.marker Fix.JS_FUNCTIONS = true.
Proof. by vm_compute. Qed.

(** [insert_functions] changes nothing or leaves the marker. *)
Lemma insert_functions_marker c :
  Fix.insert_functions c = c \/ contains Fix.marker (Fix.insert_functions c) = true.
Proof.
  unfold Fix.insert_functions.
  destruct (search Fix.pattern c) eqn:H1.
  { right. unfold Fix.pattern in *.
    eapply sub_present in H1 as (a & found & b & ->).
    apply contains_middle, contains_append_r, JS_FUNCTIONS_marker. }
  destruct (search Fix.pattern2 c) eqn:H2.
  { right. unfold Fix.pattern2 in *.
    eapply sub_present in H2 as (a & found & b & ->).
    apply contains_middle, contains_append_l, JS_FUNCTIONS_marker. }
  destruct (contains "async function init() {" c) eqn:H3.
  - right. apply replace_inserts_marker; [discriminate|exact H3|].
    apply contains_append_l, JS_FUNCTIONS_marker.
  - left. by apply replace_absent.
Qed.

Lemma run_fix_main (fs : files) :
  Fix.main fs
  = match fs !! Fix.INDEX_PATH with
    | Some c =>
      if contains Fix.marker c then (fs, inr 0)
      else (<[Fix.INDEX_PATH := Fix.insert_functions c]> fs, inr 0)
    | None => (fs, inl (FileNotFoundError Fix.INDEX_PATH))
    end.
Proof.
  unfold Fix.main. rewrite run_bind.
  destruct (fs !! Fix.INDEX_PATH) as [c|] eqn:Hp.
  - rewrite (run_read _ _ _ Hp). destruct (contains Fix.marker c); [reflexivity|].
    rewrite run_bind, run_write. reflexivity.
  - by rewrite (run_read_missing _ _ Hp).
Qed.

(** The steps of patch_password_reset.py that test for their marker. *)
Lemma add_forgot_password_modal_idempotent c :
  PasswordReset.add_forgot_password_modal (PasswordReset.add_forgot_password_modal c)
  = PasswordReset.add_forgot_password_modal c.
Proof.
  apply (guarded_idempotent "modal-forgot-password").
  - intros c' Hc. unfold PasswordReset.add_forgot_password_modal. by rewrite Hc.
  - intros c'. unfold PasswordReset.add_forgot_password_modal.
    destruct (contains "modal-forgot-password" c'); [by left|].
    destruct (contains PasswordReset.settings_modal_end c') eqn:H1.
    { right. apply replace_inserts_marker; [discriminate|exact H1|by vm_compute]. }
    destruct (contains "<!-- Toast Container -->" c') eqn:H2; [right|by left].
    apply replace_inserts_marker; [discriminate|exact H2|by vm_compute].
Qed.

Lemma add_reset_password_modal_idempotent c :
  PasswordReset.add_reset_password_modal (PasswordReset.add_reset_password_modal c)
  = PasswordReset.add_reset_password_modal c.
Proof.
  apply (guarded_idempotent "modal-reset-password").
  - intros c' Hc. unfold PasswordReset.add_reset_password_modal. by rewrite Hc.
  - intros c'. unfold PasswordReset.add_reset_password_modal.
    destruct (contains "modal-reset-password" c'); [by left|].
    destruct (contains "<!-- Toast Container -->" c') eqn:H2; [right|by left].
    apply replace_inserts_marker; [discriminate|exact H2|by vm_compute].
Qed.

Lemma js_code_marker : contains "handleForgotPassword" PasswordReset.js_code = true.
Proof. by vm_compute. Qed.

Lemma add_password_reset_js_idempotent c :
  PasswordReset.add_password_reset_js (PasswordReset.add_password_reset_js c)
  = PasswordReset.add_password_reset_js c.
Proof.
  apply (guarded_idempotent "handleForgotPassword").
  - intros c' Hc. unfold PasswordReset.add_password_reset_js. by rewrite Hc.
  - intros c'. unfold PasswordReset.add_password_reset_js.
    destruct (contains "handleForgotPassword" c'); [by left|].
    destruct (contains "// UTILITY FUNCTIONS" c').
    { destruct (search PasswordReset.utility_pattern c') eqn:Hs.
      - right. unfold PasswordReset.utility_pattern in *.
        eapply sub_present in Hs as (a & found & b & ->).
        apply contains_middle, contains_append_r, contains_append_r, js_code_marker.
      - left. by apply sub_absent. }
    destruct (contains "// INITIALIZATION" c'); [|by left].
    destruct (contains "// ===========================================
    // INITIALIZATION" c') eqn:H2.
    + right. apply replace_inserts_marker; [discriminate|exact H2|].
      apply contains_append_l, js_code_marker.
    + left. by apply replace_absent.
Qed.

Lemma update_init_function_idempotent c :
  PasswordReset.update_init_function (PasswordReset.update_init_function c)
  = PasswordReset.update_init_function c.
Proof.
  apply (guarded_idempotent "checkForResetToken()").
  - intros c' Hc. unfold PasswordReset.update_init_function. by rewrite Hc.
  - intros c'. unfold PasswordReset.update_init_function.
    destruct (contains "checkForResetToken()" c'); [by left|].
    destruct (contains PasswordReset.init_old_pattern c') eqn:H1.
    { right. apply replace_inserts_marker; [discriminate|exact H1|by vm_compute]. }
    destruct (_ && _); [|by left].
    destruct (search PasswordReset.init_pattern c') eqn:Hs.
    + right. unfold PasswordReset.init_pattern in *.
      eapply (sub_present _ _ _ (fun _ => PasswordReset.init_replacement))
        in Hs as (a & found & b & ->).
      apply contains_middle. by vm_compute.
    + left. by apply sub_absent.
Qed.

(** The first step of patch_password_reset.py on its alternative branch. *)
Lemma squeeze_app a b :
  PasswordReset.squeeze (a +:+ b)
  = PasswordReset.squeeze a +:+ PasswordReset.squeeze b.
Proof. unfold PasswordReset.squeeze, nl. by rewrite !strip_app. Qed.

Lemma inserted_squeeze piece s t :
  inserted piece s t ->
  inserted (PasswordReset.squeeze piece) (PasswordReset.squeeze s)
           (PasswordReset.squeeze t).
Proof.
  induction 1 as [|c s t Hins IH|s t Hins IH].
  - constructor.
  - change (String c s) with (String c "" +:+ s).
    change (String c t) with (String c "" +:+ t).
    rewrite !squeeze_app. by apply inserted_app.
  - rewrite squeeze_app. by constructor.
Qed.

(** The link cannot complete the text the first branch looks for. *)
Lemma forgot_link_apart :
  apart (PasswordReset.squeeze PasswordReset.login_old_pattern)
        (PasswordReset.squeeze PasswordReset.forgot_link) = true.
Proof. by vm_compute. Qed.

(** Where the page does not carry the text of [old_pattern], the step adds
    the link at most once. *)
Lemma patch_login_modal_forgot_link_alternative c :
  contains (PasswordReset.squeeze PasswordReset.login_old_pattern)
           (PasswordReset.squeeze c) = false ->
  PasswordReset.patch_login_modal_forgot_link
    (PasswordReset.patch_login_modal_forgot_link c)
  = PasswordReset.patch_login_modal_forgot_link c.
Proof.
  intros Hold.
  assert (Hskip : forall c', contains (PasswordReset.squeeze PasswordReset.login_old_pattern)
                               (PasswordReset.squeeze c') = false ->
            contains "Forgot password?" c' = true ->
            PasswordReset.patch_login_modal_forgot_link c' = c').
  { intros c' H1 H2. unfold PasswordReset.patch_login_modal_forgot_link.
    rewrite H1, H2. cbn [negb]. by rewrite andb_false_r. }
  unfold PasswordReset.patch_login_modal_forgot_link at 2 3. rewrite Hold.
  destruct (_ && _) eqn:Hg.
  2: { unfold PasswordReset.patch_login_modal_forgot_link. by rewrite Hold, Hg. }
  destruct (search PasswordReset.login_alt_pattern c) eqn:Hs.
  - apply Hskip.
    + destruct (contains _ (PasswordReset.squeeze (sub _ _ c))) eqn:Hc'; [|done].
      rewrite <- Hold. symmetry.
      eapply contains_inserted; [apply forgot_link_apart| |exact Hc'].
      apply inserted_squeeze, (inserted_sub _ _ c 0).
    + unfold PasswordReset.login_alt_pattern in *.
      eapply sub_present in Hs as (a & found & b & ->).
      apply contains_middle, contains_append_r. by vm_compute.
  - rewrite (sub_absent _ _ _ Hs).
    unfold PasswordReset.patch_login_modal_forgot_link. rewrite Hold, Hg.
    by apply sub_absent.
Qed.

(** On the sample page the step takes the alternative branch and adds one
    link. *)
Lemma forgot_link_sample_page :
  let once := PasswordReset.patch_login_modal_forgot_link PasswordReset.sample_page in
  contains (PasswordReset.squeeze PasswordReset.login_old_pattern)
           (PasswordReset.squeeze PasswordReset.sample_page) = false
  /\ count "Forgot password?" PasswordReset.sample_page = 0%nat
  /\ count "Forgot password?" once = 1%nat.
Proof. split_and!; by vm_compute. Qed.

(** [patch_login_modal_forgot_link] tests for the link only on its
    alternative branch.  The test of the first branch compares the texts
    without spaces and line feeds: on a page that carries the text of
    [old_pattern] with other spacing (here in a comment) next to the login
    form, each run puts one more link after the password field. *)
Lemma forgot_link_first_branch_repeats :
  let page := "<!-- " +:+ replace "<div class" "<div  class"
                            PasswordReset.login_old_pattern +:+ " -->
" +:+ PasswordReset.sample_page in
  let once := PasswordReset.patch_login_modal_forgot_link page in
  let twice := PasswordReset.patch_login_modal_forgot_link once in
  count "Forgot password?" page = 0%nat
  /\ count "Forgot password?" once = 1%nat
  /\ count "Forgot password?" twice = 2%nat.
Proof. split_and!; by vm_compute. Qed.

(** C5, as the claim states it, fails: v30_frontend_patch.py has no test
    for a patch already applied.  A second run of [patch_set_html] puts the
    helper into set.html a second time. *)
Lemma v30_patch_set_html_twice_differs :
  let once := (V30.patch_set_html V30.sample_files).1 in
  let twice := (V30.patch_set_html once).1 in
  once !! V30.set_html = Some (V30.set_html_text V30.sample_page)
  /\ twice !! V30.set_html
     = Some (V30.set_html_text (V30.set_html_text V30.sample_page))
  /\ count "function getCurrencySymbol()" (V30.set_html_text V30.sample_page) = 1%nat
  /\ count "function getCurrencySymbol()"
           (V30.set_html_text (V30.set_html_text V30.sample_page)) = 2%nat.
Proof.
  cbv zeta.
  assert (H0 : V30.sample_files !! V30.set_html = Some V30.sample_page)
    by (unfold V30.sample_files; by rewrite lookup_insert_eq).
  rewrite (run_patch_set_html _ _ H0). cbn [fst].
  assert (H1 : <[V30.set_html := V30.set_html_text V30.sample_page]> V30.sample_files
               !! V30.set_html = Some (V30.set_html_text V30.sample_page))
    by apply lookup_insert_eq.
  split; [exact H1|].
  rewrite (run_patch_set_html _ _ H1). cbn [fst].
  split; [apply lookup_insert_eq|].
  split; by vm_compute.
Qed.

(** C5, amended.  Where a step first tests for the marker of its own patch
    ([patch_app_js] and [patch_watches_ts] of v29_patch.py, [main] of
    fix_password_reset_js.py, the four steps of patch_password_reset.py after
    the first, and the first on a page without the text of its
    [old_pattern], where it takes the branch that tests for the link), a
    second run finds the text as the first run left it and leaves it so. *)
Theorem marker_guarded_steps_idempotent (fs : files) :
  (let once := (V29.patch_app_js fs).1 in
   (V29.patch_app_js once).1 !! V29.app_js = once !! V29.app_js)
  /\ (let once := (V29.patch_watches_ts fs).1 in
      (V29.patch_watches_ts once).1 !! V29.watches_ts = once !! V29.watches_ts)
  /\ (let once := (Fix.main fs).1 in (Fix.main once).1 = once)
  /\ (forall content,
        let twice (step : string -> string) := step (step content) in
        twice PasswordReset.add_forgot_password_modal
        = PasswordReset.add_forgot_password_modal content
        /\ twice PasswordReset.add_reset_password_modal
           = PasswordReset.add_reset_password_modal content
        /\ twice PasswordReset.add_password_reset_js
           = PasswordReset.add_password_reset_js content
        /\ twice PasswordReset.update_init_function
           = PasswordReset.update_init_function content
        /\ (contains (PasswordReset.squeeze PasswordReset.login_old_pattern)
                     (PasswordReset.squeeze content) = false ->
            twice PasswordReset.patch_login_modal_forgot_link
            = PasswordReset.patch_login_modal_forgot_link content)).
Proof.
  split_and!; cbv zeta.
  - rewrite !patch_app_js_content.
    destruct (fs !! V29.app_js) as [c|]; [|reflexivity]. simpl. f_equal.
    apply app_js_text_idempotent.
  - rewrite !patch_watches_ts_content.
    destruct (fs !! V29.watches_ts) as [c|]; [|reflexivity]. simpl. f_equal.
    apply watches_ts_text_idempotent.
  - rewrite (run_fix_main fs).
    destruct (fs !! Fix.INDEX_PATH) as [c|] eqn:Hp.
    + destruct (contains Fix.marker c) eqn:Hc; simpl.
      * rewrite run_fix_main, Hp, Hc. reflexivity.
      * rewrite run_fix_main, lookup_insert_eq.
        destruct (insert_functions_marker c) as [Heq|Hm].
        -- rewrite Heq, Hc. simpl. by rewrite Heq, insert_insert_eq.
        -- by rewrite Hm.
    + simpl. by rewrite run_fix_main, Hp.
  - intros content. split_and!.
    + apply add_forgot_password_modal_idempotent.
    + apply add_reset_password_modal_idempotent.
    + apply add_password_reset_js_idempotent.
    + apply update_init_function_idempotent.
    + apply patch_login_modal_forgot_link_alternative.
Qed.

Lemma marker_guarded_steps_idempotent_witness :
  let page := PasswordReset.sample_page in
  contains (PasswordReset.squeeze PasswordReset.login_old_pattern)
           (PasswordReset.squeeze page) = false
  /\ PasswordReset.patch_login_modal_forgot_link
       (PasswordReset.patch_login_modal_forgot_link page)
     = PasswordReset.patch_login_modal_forgot_link page.
Proof.
  cbv zeta. split; [vm_compute; reflexivity|].
  destruct (marker_guarded_steps_idempotent PasswordReset.sample_files)
    as (_ & _ & _ & H).
  apply (H PasswordReset.sample_page). vm_compute. reflexivity.
Defined.

End IdempotenceFacts.

(** ** Backups *)

Section BackupFacts.
Import Py Sys.

(** One of the five patch functions of v29_patch.py, with its file. *)
Ltac v29_step :=
  first [ apply rewrites_patch_index_html
        | apply rewrites_patch_app_js
        | apply rewrites_patch_watches_ts
        | apply rewrites_patch_detail_page ].

Ltac v29_leaves :=
  repeat first
    [ apply leaves_ret
    | apply leaves_bind; [eapply rewrites_leaves; [v29_step | not_among | not_among] | intros _] ].

Ltac v29_sequence :=
  first
    [ apply backs_up_bind_first;
      [ apply rewrites_backs_up; [apply backup_path_neq | v29_step]
      | intros _; v29_leaves ]
    | apply backs_up_bind_rest;
      [ eapply rewrites_leaves; [v29_step | not_among | not_among]
      | intros _; v29_sequence ] ].

(** v29_patch.py: each of the five files is as it was, or its [.bak.v29]
    copy holds what it was. *)
Lemma v29_main_backs_up p :
  p ∈ V29.targets -> backs_up p (V29.backup_path p) V29.main.
Proof.
  intros Hp. unfold V29.main.
  apply backs_up_bind_rest; [apply leaves_dir_exists|]. intros found.
  destruct (negb found); [apply backs_up_leaves, leaves_ret|].
  apply backs_up_try_except; [|apply leaves_ret].
  unfold V29.targets in Hp. rewrite !elem_of_cons, elem_of_nil in Hp.
  unfold V29.patch_set_html, V29.patch_minifig_html.
  destruct Hp as [->|[->|[->|[->|[->|[]]]]]]; v29_sequence.
Qed.

(** A step that leaves alone the backups made so far. *)
Ltac leaves_backups :=
  repeat first
    [ apply leaves_ret | apply leaves_raise | apply leaves_read
    | apply leaves_write; not_among | apply leaves_copy; not_among
    | apply leaves_bind; [|intros ?]
    | match goal with |- leaves _ (match ?x with _ => _ end) => destruct x end ].

(** v30_frontend_patch.py: both pages. *)
Lemma v30_main_backs_up (fs : files) :
  keeps_original fs (V30.main fs).1 V30.set_html V30.set_html_bak
  /\ keeps_original fs (V30.main fs).1 V30.minifig_html V30.minifig_html_bak.
Proof.
  unfold keeps_original, V30.main. rewrite run_bind, run_exists.
  destruct (fs !! V30.set_html) as [s|] eqn:Hs; simpl; [|by split; left].
  rewrite run_bind, (run_copy _ _ _ _ Hs).
  set (fs1 := <[V30.set_html_bak := s]> fs).
  assert (H1m : fs1 !! V30.minifig_html = fs !! V30.minifig_html)
    by (apply lookup_insert_ne; paths_differ).
  rewrite run_bind. destruct (fs !! V30.minifig_html) as [m|] eqn:Hm.
  2: { rewrite (run_copy_missing _ _ _ H1m). simpl. split; [right|left; done].
       apply lookup_insert_eq. }
  rewrite (run_copy _ _ _ _ H1m).
  set (fs2 := <[V30.minifig_html_bak := m]> fs1).
  assert (H2 : fs2 !! V30.set_html_bak = Some s /\ fs2 !! V30.minifig_html_bak = Some m).
  { split; [|apply lookup_insert_eq]. unfold fs2.
    rewrite lookup_insert_ne by paths_differ. apply lookup_insert_eq. }
  assert (Hrest : forall (A : Type) (rest : io A),
             leaves [V30.set_html_bak; V30.minifig_html_bak] rest ->
             (rest fs2).1 !! V30.set_html_bak = Some s
             /\ (rest fs2).1 !! V30.minifig_html_bak = Some m).
  { intros A rest Hl. rewrite !(Hl fs2) by (rewrite !elem_of_cons; auto). exact H2. }
  split; right; apply Hrest;
    unfold V30.patch_set_html, V30.patch_minifig_html, V30.verify_patches;
    leaves_backups.
Qed.

(** The shape of the scripts that copy the file, read it and write it
    back. *)
Lemma rewrites_copy_read_write {A} p b (text : string -> string) (a : A) :
  p <> b ->
  rewrites_with_backup p b
    (copy p b;; content ← read_text p; write_text p (text content);; mret a).
Proof.
  intros Hpb fs. rewrite run_bind.
  destruct (fs !! p) as [c|] eqn:Hp.
  - rewrite (run_copy _ _ _ _ Hp), run_bind, (run_read _ _ c)
      by (rewrite lookup_insert_ne by done; exact Hp).
    rewrite run_bind, run_write. simpl. right. exists c. eauto.
  - rewrite (run_copy_missing _ _ _ Hp). by left.
Qed.

(** patch-index-html.py and patch-app-js.py: the backup carries the time
    stamp. *)
Lemma v24_main_backs_up FILE patches stamp :
  backs_up FILE (FILE +:+ ".bak." +:+ stamp) (V24.main FILE patches stamp).
Proof.
  unfold V24.main.
  apply backs_up_bind_rest; [apply leaves_exists|]. intros found.
  destruct (negb found); [apply backs_up_leaves, leaves_ret|].
  apply rewrites_backs_up, rewrites_copy_read_write; apply append_neq; discriminate.
Qed.

(** patch_password_reset.py *)
Lemma password_reset_main_backs_up :
  backs_up PasswordReset.INDEX_PATH PasswordReset.BACKUP_PATH PasswordReset.main.
Proof.
  unfold PasswordReset.main.
  apply backs_up_bind_rest; [apply leaves_exists|]. intros found.
  destruct (negb found); [apply backs_up_leaves, leaves_ret|].
  apply rewrites_backs_up; [paths_differ|].
  apply (rewrites_copy_read_write _ _ PasswordReset.patches). paths_differ.
Qed.

(** apply-seo.py: the backup carries the time stamp. *)
Lemma seo_main_backs_up replace_head stamp :
  backs_up Seo.INDEX_FILE (Seo.INDEX_FILE +:+ ".backup-seo-" +:+ stamp)
    (Seo.main replace_head stamp).
Proof.
  intros fs. unfold keeps_original, Seo.main, Seo.backup_name. rewrite run_bind.
  destruct (fs !! Seo.INDEX_FILE) as [c|] eqn:Hp.
  - rewrite (run_read _ _ _ Hp), run_bind, (run_copy _ _ _ _ Hp).
    right. destruct (replace_head c) as [new|]; simpl.
    + rewrite lookup_insert_ne by (apply append_neq; discriminate).
      apply lookup_insert_eq.
    + apply lookup_insert_eq.
  - rewrite (run_read_missing _ _ Hp). by left.
Qed.

(** C6, as the claim states it, fails: fix_password_reset_js.py rewrites
    index.html and copies nothing.  After its run on a disk that holds the
    sample page, index.html is the only file, and it is not what it was. *)
Lemma fix_password_reset_js_keeps_no_backup :
  let after := (Fix.main Fix.sample_files).1 in
  Fix.sample_files !! Fix.INDEX_PATH = Some Fix.sample_page
  /\ after = {[ Fix.INDEX_PATH := Fix.insert_functions Fix.sample_page ]}
  /\ String.eqb (Fix.insert_functions Fix.sample_page) Fix.sample_page = false
  /\ (Fix.main Fix.sample_files).2 = inr 0.
Proof.
  cbv zeta. split; [apply lookup_singleton_eq|].
  assert (Hrun : Fix.main Fix.sample_files
                 = ({[ Fix.INDEX_PATH := Fix.insert_functions Fix.sample_page ]}, inr 0)).
  { unfold Fix.main. rewrite run_bind, (run_read _ _ Fix.sample_page)
      by apply lookup_singleton_eq.
    assert (contains Fix.marker Fix.sample_page = false) as -> by (by vm_compute).
    rewrite run_bind, run_write. unfold Fix.sample_files.
    by rewrite insert_singleton_eq. }
  rewrite Hrun. split; [reflexivity|]. split; [by vm_compute|reflexivity].
Qed.

End BackupFacts.

(* ===================================================================== *)
(** * Part III: further properties of the scripts and of the inserted code *)
(* ===================================================================== *)

Set Warnings "-clear-no-such-hyp".

(** ** What [str.replace] keeps and what it removes *)

Section ReplaceFacts.
Import Py.

Lemma agree_comm x y : agree x y = agree y x.
Proof. unfold agree. apply orb_comm. Qed.

Lemma replace_from_nil old new skip : replace_from old new skip "" = "".
Proof. by destruct skip. Qed.

(** What stands at the head of the rewritten text without a copy of [new]
    starting inside it stood at the head of the text. *)
Lemma prefix_replace_back old new q r :
  forallb (fun q' => negb (agree q' new)) (tails q) = true ->
  String.prefix q (replace_from old new 0 r) = true -> String.prefix q r = true.
Proof.
  revert r. induction q as [|a q IH]; intros r Hq; [intros _; apply prefix_empty|].
  simpl in Hq. apply andb_true_iff in Hq as [Ha Hq].
  destruct r as [|c r]; [done|]. cbn [replace_from].
  destruct (String.prefix old (String c r)).
  - intros Hp. apply prefix_append_agree in Hp. by rewrite Hp in Ha.
  - simpl. destruct (ascii_dec a c); [|done]. by apply IH.
Qed.

(** Where no occurrence of [old] starts inside it, what stands at the head
    of the text stands at the head of the rewritten text. *)
Lemma prefix_replace_forward old new q r :
  forallb (fun q' => negb (agree q' old)) (tails q) = true ->
  String.prefix q r = true -> String.prefix q (replace_from old new 0 r) = true.
Proof.
  revert r. induction q as [|a q IH]; intros r Hq; [intros _; apply prefix_empty|].
  simpl in Hq. apply andb_true_iff in Hq as [Ha Hq].
  destruct r as [|c r]; [done|]. intros Hp. cbn [replace_from].
  destruct (String.prefix old (String c r)) eqn:Ho.
  - apply prefix_iff in Hp as [rest Hr]. rewrite Hr in Ho.
    apply prefix_append_agree in Ho. by rewrite agree_comm, Ho in Ha.
  - simpl in *. destruct (ascii_dec a c); [|done]. by apply IH.
Qed.

Lemma replace_from_free p old new s skip :
  apart p new = true ->
  contains p s = false ->
  contains p (replace_from old new skip s) = false.
Proof.
  intros [Ha Hb]%andb_true_iff. revert skip.
  induction s as [|c r IH]; intros skip Hs; [by rewrite replace_from_nil|].
  rewrite contains_cons in Hs. apply orb_false_iff in Hs as [Hp Hr].
  destruct skip as [|k]; [|by apply IH]. cbn [replace_from].
  destruct (String.prefix old (String c r)).
  - destruct (contains p (new +:+ _)) eqn:Hc; [|done].
    apply contains_put in Hc; [|done]. by rewrite IH in Hc.
  - rewrite contains_cons, IH, orb_false_r by done.
    destruct (String.prefix p (String c (replace_from old new 0 r))) eqn:Hc; [|done].
    assert (String.prefix p (String c r) = true) as Hq; [|by rewrite Hq in Hp].
    destruct p as [|a p]; [done|]. simpl in Hc |- *.
    destruct (ascii_dec a c); [|done].
    simpl in Ha. apply andb_true_iff in Ha as [_ Ha].
    by apply (prefix_replace_back old new).
Qed.

Lemma replace_from_removes old new s skip :
  old <> "" -> apart old new = true ->
  contains old (replace_from old new skip s) = false.
Proof.
  intros Hne [Ha Hb]%andb_true_iff. revert skip.
  induction s as [|c r IH]; intros skip.
  - rewrite replace_from_nil. by destruct old.
  - destruct skip as [|k]; [|by apply IH]. cbn [replace_from].
    destruct (String.prefix old (String c r)) eqn:Hp.
    + destruct (contains old (new +:+ _)) eqn:Hc; [|done].
      apply contains_put in Hc; [|done]. by rewrite IH in Hc.
    + rewrite contains_cons, IH, orb_false_r.
      destruct (String.prefix old (String c (replace_from old new 0 r))) eqn:Hc; [|done].
      assert (String.prefix old (String c r) = true) as Hq; [|by rewrite Hq in Hp].
      destruct old as [|a p]; [done|]. simpl in Hc |- *.
      destruct (ascii_dec a c); [|done].
      simpl in Ha. apply andb_true_iff in Ha as [_ Ha].
      by apply (prefix_replace_back (String a p) new).
Qed.

Lemma drop_append a b : drop (String.length a) (a +:+ b) = b.
Proof. induction a as [|c a IH]; [by destruct b|]. by rewrite append_cons. Qed.

Lemma replace_from_keeps m old new s skip :
  old <> "" -> apart m old = true ->
  contains m (drop skip s) = true ->
  contains m (replace_from old new skip s) = true.
Proof.
  intros Hne [Ha Hb]%andb_true_iff. revert skip.
  induction s as [|c r IH]; intros skip.
  - rewrite replace_from_nil. by destruct skip.
  - destruct skip as [|k]; [|apply IH]. cbn [drop replace_from].
    destruct (String.prefix old (String c r)) eqn:Hp.
    + apply prefix_iff in Hp as [rest Hr]. rewrite Hr. intros Hc.
      apply contains_put in Hc; [|done].
      apply contains_append_r, IH.
      destruct old as [|a old]; [done|]. rewrite append_cons in Hr.
      injection Hr as _ ->.
      replace (String.length (String a old) - 1)%nat with (String.length old)
        by (simpl; lia).
      by rewrite drop_append.
    + rewrite !contains_cons. intros [Hc|Hc]%orb_true_iff; apply orb_true_iff.
      * left. destruct m as [|a m]; [done|]. simpl in Hc |- *.
        destruct (ascii_dec a c); [|done].
        simpl in Ha. apply andb_true_iff in Ha as [_ Ha].
        by apply prefix_replace_forward.
      * right. by apply (IH 0%nat).
Qed.

(** [s.replace(old, new)] leaves no [old] when [old] and [new] cannot
    overlap. *)
Lemma replace_removes old new s :
  old <> "" -> apart old new = true -> contains old (replace old new s) = false.
Proof.
  intros Hne Ha. destruct old; [done|]. by apply replace_from_removes.
Qed.

Lemma replace_keeps_absent p old new s :
  old <> "" -> apart p new = true ->
  contains p s = false -> contains p (replace old new s) = false.
Proof.
  intros Hne Ha Hs. destruct old; [done|]. by apply replace_from_free.
Qed.

Lemma replace_keeps_present m old new s :
  old <> "" -> apart m old = true ->
  contains m s = true -> contains m (replace old new s) = true.
Proof.
  intros Hne Ha Hs. destruct old as [|a old]; [done|].
  by apply replace_from_keeps.
Qed.

Lemma replace_from_same old skip s :
  old <> "" -> (skip <= String.length s)%nat ->
  replace_from old old skip s = drop skip s.
Proof.
  intros Hne. revert skip. induction s as [|c r IH]; intros skip Hs.
  - by destruct skip.
  - destruct skip as [|k]; [|apply IH; simpl in Hs; lia].
    cbn [replace_from drop].
    destruct (String.prefix old (String c r)) eqn:Hp.
    + apply prefix_iff in Hp as [rest Hr].
      destruct old as [|a old]; [done|]. rewrite append_cons in Hr.
      injection Hr as -> ->.
      replace (String.length (String _ old) - 1)%nat with (String.length old)
        by (simpl; lia).
      rewrite IH by (rewrite length_append; lia).
      by rewrite drop_append.
    + f_equal. apply (IH 0%nat). lia.
Qed.

(** Replacing a text by itself changes nothing. *)
Lemma replace_same old s : old <> "" -> replace old old s = s.
Proof.
  intros Hne. destruct old as [|a old]; [done|].
  apply (replace_from_same (String a old) 0 s); [done|lia].
Qed.

End ReplaceFacts.

(** ** v29_patch.py: the steps and their order *)

Section V29Facts.
Import Py Sys V29 V29Text.

Lemma replace_if_found_removes old new c :
  old <> "" -> apart old new = true ->
  contains old (replace_if_found old new c) = false.
Proof.
  intros Hne Ha. unfold replace_if_found.
  destruct (contains old c) eqn:Hc; [by apply replace_removes|done].
Qed.

Lemma replace_if_found_keeps_absent p old new c :
  old <> "" -> apart p new = true ->
  contains p c = false -> contains p (replace_if_found old new c) = false.
Proof.
  intros Hne Ha Hp. unfold replace_if_found.
  destruct (contains old c); [by apply replace_keeps_absent|done].
Qed.

Lemma replace_if_found_absent old new c :
  contains old c = false -> replace_if_found old new c = c.
Proof. intros H. unfold replace_if_found. by rewrite H. Qed.

(** The three fragments [patch_index_html] looks for are gone from what it
    writes. *)
Lemma index_html_text_clean c :
  contains old_add_watch (index_html_text c) = false
  /\ contains old_edit_watch (index_html_text c) = false
  /\ contains old_watches_header (index_html_text c) = false.
Proof.
  unfold index_html_text. split_and!.
  - apply replace_if_found_keeps_absent; [done|by vm_compute|].
    apply replace_if_found_keeps_absent; [done|by vm_compute|].
    apply replace_if_found_removes; [done|by vm_compute].
  - apply replace_if_found_keeps_absent; [done|by vm_compute|].
    apply replace_if_found_removes; [done|by vm_compute].
  - apply replace_if_found_removes; [done|by vm_compute].
Qed.

Lemma index_html_text_idempotent c :
  index_html_text (index_html_text c) = index_html_text c.
Proof.
  destruct (index_html_text_clean c) as (H1 & H2 & H3).
  unfold index_html_text at 1.
  by rewrite (replace_if_found_absent _ _ _ H1), (replace_if_found_absent _ _ _ H2),
    (replace_if_found_absent _ _ _ H3).
Qed.

Lemma run_step p text (fs : files) :
  (backup_file p;;
   content ← read_text p;
   match text content with
   | None => mret tt
   | Some content => write_text p content
   end) fs
  = match fs !! p with
    | Some _ => (after_step p text fs, inr tt)
    | None => (fs, inl (FileNotFoundError p))
    end.
Proof.
  rewrite run_backup_read_write. unfold after_step.
  destruct (fs !! p) as [c|]; [|done]. by destruct (text c).
Qed.

Lemma run_patch_index_html_step (fs : files) :
  patch_index_html fs
  = match fs !! index_html with
    | Some _ => (after_step index_html (fun c => Some (index_html_text c)) fs, inr tt)
    | None => (fs, inl (FileNotFoundError index_html))
    end.
Proof. apply (run_step index_html (fun c => Some (index_html_text c))). Qed.

Lemma run_patch_app_js_step (fs : files) :
  patch_app_js fs
  = match fs !! app_js with
    | Some _ => (after_step app_js app_js_text fs, inr tt)
    | None => (fs, inl (FileNotFoundError app_js))
    end.
Proof. apply run_step. Qed.

Lemma run_patch_watches_ts_step (fs : files) :
  patch_watches_ts fs
  = match fs !! watches_ts with
    | Some _ => (after_step watches_ts watches_ts_text fs, inr tt)
    | None => (fs, inl (FileNotFoundError watches_ts))
    end.
Proof. apply run_step. Qed.


Lemma run_patch_detail_page p (fs : files) :
  patch_detail_page p fs = (after_step p detail_page_write fs, inr tt).
Proof.
  unfold patch_detail_page. rewrite run_bind, run_exists.
  unfold after_step, detail_page_write.
  destruct (fs !! p) as [c|] eqn:Hc.
  - rewrite bool_decide_true by eauto. cbn [negb].
    rewrite run_bind, run_backup_file, Hc, run_bind.
    rewrite (run_read _ _ c)
      by (rewrite lookup_insert_ne; [done|symmetry; apply backup_path_neq]).
    destruct (contains "openModal('login')" c); [by rewrite run_write|done].
  - rewrite bool_decide_false; [done|]. intros [? ?]; congruence.
Qed.

Lemma run_dir_exists d (fs : files) p c :
  fs !! p = Some c -> String.prefix (d +:+ "/") p = true ->
  dir_exists d fs = (fs, inr true).
Proof.
  intros Hp Hd. unfold dir_exists. do 2 f_equal.
  apply existsb_exists. exists (p, c). split; [|done].
  apply list_elem_of_In, elem_of_map_to_list, Hp.
Qed.

Lemma lookup_after_step p text (fs : files) q :
  q <> p -> q <> backup_path p -> after_step p text fs !! q = fs !! q.
Proof.
  intros H1 H2. unfold after_step.
  destruct (fs !! p) as [c|]; [|done].
  destruct (text c); by rewrite ?lookup_insert_ne.
Qed.

Lemma lookup_after_step_backup p text (fs : files) c :
  fs !! p = Some c -> after_step p text fs !! backup_path p = Some c.
Proof.
  intros Hp. unfold after_step. rewrite Hp.
  destruct (text c).
  - rewrite lookup_insert_ne by apply backup_path_neq. apply lookup_insert_eq.
  - apply lookup_insert_eq.
Qed.

Lemma lookup_after_step_target p text (fs : files) :
  after_step p text fs !! p = (fun c => default c (text c)) <$> fs !! p.
Proof.
  unfold after_step. destruct (fs !! p) as [c|] eqn:Hp; simpl; [|done].
  destruct (text c); simpl.
  - apply lookup_insert_eq.
  - rewrite lookup_insert_ne; [done|]. symmetry. apply backup_path_neq.
Qed.

Lemma after_step_is_Some p text (fs : files) q :
  is_Some (fs !! q) -> is_Some (after_step p text fs !! q).
Proof.
  intros Hq. unfold after_step.
  destruct (fs !! p) as [c|]; [|done].
  destruct (text c); rewrite ?lookup_insert_is_Some'; auto.
Qed.

(** [main] where index.html, app.js and watches.ts exist: all five steps
    run and the script ends with 0. *)
Lemma run_v29_main (fs : files) :
  is_Some (fs !! index_html) -> is_Some (fs !! app_js) ->
  is_Some (fs !! watches_ts) ->
  main fs = (after_main fs, inr 0).
Proof.
  intros [a Ha] Hb Hc. unfold main, after_main.
  rewrite run_bind, (run_dir_exists _ _ index_html a) by done. cbn [negb].
  unfold try_except.
  set (fs1 := after_step index_html _ fs).
  set (fs2 := after_step app_js _ fs1).
  set (fs3 := after_step watches_ts _ fs2).
  set (fs4 := after_step set_html _ fs3).
  assert (H1 : patch_index_html fs = (fs1, inr tt))
    by (by rewrite run_patch_index_html_step, Ha).
  assert (H2 : patch_app_js fs1 = (fs2, inr tt)).
  { rewrite run_patch_app_js_step.
    destruct (after_step_is_Some index_html (fun c => Some (index_html_text c))
                fs app_js Hb) as [b Hb'].
    change (fs1 !! app_js = Some b) in Hb'. by rewrite Hb'. }
  assert (H3 : patch_watches_ts fs2 = (fs3, inr tt)).
  { rewrite run_patch_watches_ts_step.
    destruct (after_step_is_Some app_js app_js_text fs1 watches_ts) as [c Hc'];
      [by apply after_step_is_Some|].
    change (fs2 !! watches_ts = Some c) in Hc'. by rewrite Hc'. }
  rewrite run_bind, H1, run_bind, H2, run_bind, H3.
  unfold patch_set_html, patch_minifig_html.
  by rewrite run_bind, run_patch_detail_page, run_bind, run_patch_detail_page.
Qed.

Lemma after_main_targets (g : files) :
  after_main g !! index_html = index_html_text <$> g !! index_html
  /\ after_main g !! app_js = (fun c => default c (app_js_text c)) <$> g !! app_js
  /\ after_main g !! watches_ts
     = (fun c => default c (watches_ts_text c)) <$> g !! watches_ts
  /\ after_main g !! set_html = detail_page_text <$> g !! set_html
  /\ after_main g !! minifig_html = detail_page_text <$> g !! minifig_html.
Proof.
  assert (Hd : forall c, default c (detail_page_write c) = detail_page_text c).
  { intros c. unfold detail_page_write, detail_page_text.
    by destruct (contains _ c). }
  unfold after_main. split_and!.
  - rewrite !lookup_after_step by paths_differ. by rewrite lookup_after_step_target.
  - rewrite !lookup_after_step by paths_differ. rewrite lookup_after_step_target.
    by rewrite lookup_after_step by paths_differ.
  - rewrite !lookup_after_step by paths_differ. rewrite lookup_after_step_target.
    by rewrite !lookup_after_step by paths_differ.
  - rewrite !lookup_after_step by paths_differ. rewrite lookup_after_step_target.
    rewrite !lookup_after_step by paths_differ.
    destruct (g !! set_html); simpl; by rewrite ?Hd.
  - rewrite lookup_after_step_target.
    rewrite !lookup_after_step by paths_differ.
    destruct (g !! minifig_html); simpl; by rewrite ?Hd.
Qed.

Lemma after_main_backups (g : files) p c :
  p ∈ targets -> g !! p = Some c -> after_main g !! backup_path p = Some c.
Proof.
  unfold targets. rewrite !elem_of_cons, elem_of_nil.
  intros [->|[->|[->|[->|[->|[]]]]]] Hp; unfold after_main.
  - rewrite !lookup_after_step by paths_differ. by apply lookup_after_step_backup.
  - rewrite !lookup_after_step by paths_differ. apply lookup_after_step_backup.
    by rewrite !lookup_after_step by paths_differ.
  - rewrite !lookup_after_step by paths_differ. apply lookup_after_step_backup.
    by rewrite !lookup_after_step by paths_differ.
  - rewrite !lookup_after_step by paths_differ. apply lookup_after_step_backup.
    by rewrite !lookup_after_step by paths_differ.
  - apply lookup_after_step_backup.
    by rewrite !lookup_after_step by paths_differ.
Qed.

Lemma after_main_is_Some (g : files) q :
  is_Some (g !! q) -> is_Some (after_main g !! q).
Proof. intros H. unfold after_main. by do 5 apply after_step_is_Some. Qed.

Lemma detail_page_text_clean c :
  contains "openModal('login')" (detail_page_text c) = false.
Proof.
  unfold detail_page_text. destruct (contains _ c) eqn:Hc; [|done].
  apply replace_removes; [done|by vm_compute].
Qed.

Lemma detail_page_text_idempotent c :
  detail_page_text (detail_page_text c) = detail_page_text c.
Proof.
  unfold detail_page_text at 1. by rewrite detail_page_text_clean.
Qed.

Lemma patch_detail_page_content p (fs : files) :
  (patch_detail_page p fs).1 !! p = detail_page_text <$> fs !! p.
Proof.
  rewrite run_patch_detail_page. cbn [fst]. rewrite lookup_after_step_target.
  destruct (fs !! p) as [c|]; [|done]. simpl. f_equal.
  unfold detail_page_write, detail_page_text. by destruct (contains _ c).
Qed.

Lemma patch_index_html_content (fs : files) :
  (patch_index_html fs).1 !! index_html = index_html_text <$> fs !! index_html.
Proof.
  rewrite run_patch_index_html_step.
  destruct (fs !! index_html) as [c|] eqn:Hc; cbn [fst]; [|by rewrite Hc].
  by rewrite lookup_after_step_target, Hc.
Qed.

(** X1.  [patch_index_html] writes index.html with the three old fragments
    replaced: none of them (the select with the broken [<label>] option
    among them) is left in the page, and a second run of the step finds
    nothing to replace and leaves the page as the first run wrote it. *)
Theorem v29_patch_index_html_twice (fs : files) :
  let once := (patch_index_html fs).1 in
  once !! index_html = index_html_text <$> fs !! index_html
  /\ (forall page, once !! index_html = Some page ->
        contains old_add_watch page = false
        /\ contains old_edit_watch page = false
        /\ contains old_watches_header page = false)
  /\ (patch_index_html once).1 !! index_html = once !! index_html.
Proof.
  cbv zeta. rewrite !patch_index_html_content. split; [done|]. split.
  - intros page. destruct (fs !! index_html) as [c|]; [|done].
    intros [= <-]. apply index_html_text_clean.
  - destruct (fs !! index_html) as [c|]; [|done]. simpl.
    by rewrite index_html_text_idempotent.
Qed.

(** X2.  [patch_set_html] and [patch_minifig_html] leave no
    [openModal('login')] in the page they are given, and running them
    again changes nothing. *)
Theorem v29_patch_detail_page_twice (p : string) (fs : files) :
  let once := (patch_detail_page p fs).1 in
  once !! p = detail_page_text <$> fs !! p
  /\ (forall page, once !! p = Some page ->
        contains "openModal('login')" page = false)
  /\ (patch_detail_page p once).1 !! p = once !! p
  /\ patch_set_html = patch_detail_page set_html
  /\ patch_minifig_html = patch_detail_page minifig_html.
Proof.
  cbv zeta. rewrite !patch_detail_page_content. split; [done|]. split_and!; [| |done..].
  - intros page. destruct (fs !! p) as [c|]; [|done].
    intros [= <-]. apply detail_page_text_clean.
  - destruct (fs !! p) as [c|]; [|done]. simpl.
    by rewrite detail_page_text_idempotent.
Qed.

(** X3.  Where index.html, app.js and watches.ts exist, [main] ends with
    0, and a second run leaves each of the five files as the first run
    left it; but it copies each file over its [.bak.v29] again, so after
    the second run a backup holds what the first run wrote, not what was
    there before it. *)
Theorem v29_main_twice (fs : files) :
  is_Some (fs !! index_html) -> is_Some (fs !! app_js) ->
  is_Some (fs !! watches_ts) ->
  let once := (main fs).1 in
  let twice := (main once).1 in
  (main fs).2 = inr 0 /\ (main once).2 = inr 0
  /\ (forall p, p ∈ targets -> twice !! p = once !! p)
  /\ (forall p c, p ∈ targets -> once !! p = Some c ->
        twice !! backup_path p = Some c).
Proof.
  intros Ha Hb Hc. cbv zeta. rewrite (run_v29_main fs) by done. cbn [fst snd].
  rewrite (run_v29_main (after_main fs)) by (by apply after_main_is_Some).
  cbn [fst snd]. split; [done|]. split; [done|]. split.
  - intros p. unfold targets. rewrite !elem_of_cons, elem_of_nil.
    destruct (after_main_targets (after_main fs)) as (H1 & H2 & H3 & H4 & H5).
    destruct (after_main_targets fs) as (G1 & G2 & G3 & G4 & G5).
    intros [->|[->|[->|[->|[->|[]]]]]].
    + rewrite H1, G1. destruct (fs !! index_html); [|done]. simpl.
      by rewrite index_html_text_idempotent.
    + rewrite H2, G2. destruct (fs !! app_js); [|done]. simpl.
      by rewrite app_js_text_idempotent.
    + rewrite H3, G3. destruct (fs !! watches_ts); [|done]. simpl.
      by rewrite watches_ts_text_idempotent.
    + rewrite H4, G4. destruct (fs !! set_html); [|done]. simpl.
      by rewrite detail_page_text_idempotent.
    + rewrite H5, G5. destruct (fs !! minifig_html); [|done]. simpl.
      by rewrite detail_page_text_idempotent.
  - intros p c. apply after_main_backups.
Qed.

Lemma v29_main_twice_witness :
  let fs : files := {[ index_html := "<html></html>"; app_js := "let a;";
                       watches_ts := "const router = Router();" ]} in
  (main (main fs).1).1 !! watches_ts = (main fs).1 !! watches_ts.
Proof.
  cbv zeta.
  refine (proj1 (proj2 (proj2 (v29_main_twice _ _ _ _))) watches_ts _).
  - rewrite lookup_insert_eq. eauto.
  - rewrite lookup_insert_ne by paths_differ. rewrite lookup_insert_eq. eauto.
  - rewrite !lookup_insert_ne by paths_differ. rewrite lookup_singleton_eq. eauto.
  - unfold targets. rewrite !elem_of_cons. tauto.
Defined.

(** X4.  [main] stops at the first file it cannot read and undoes nothing.
    Without index.html nothing at all is written and the script ends with
    1, whatever other files exist.  With index.html but without app.js the
    script ends with 1 as well, and index.html stays rewritten, with its
    backup beside it; no other file is touched. *)
Theorem v29_main_stops_at_missing_file (fs : files) :
  (fs !! index_html = None -> main fs = (fs, inr 1))
  /\ (forall page, fs !! index_html = Some page -> fs !! app_js = None ->
        let result := main fs in
        result.2 = inr 1
        /\ result.1 !! index_html = Some (index_html_text page)
        /\ result.1 !! backup_path index_html = Some page
        /\ (forall q, q <> index_html -> q <> backup_path index_html ->
              result.1 !! q = fs !! q)).
Proof.
  split.
  - intros Hi. unfold main. rewrite run_bind. unfold dir_exists at 1.
    destruct (existsb _ _); [|done]. cbn [negb]. unfold try_except.
    by rewrite run_bind, run_patch_index_html_step, Hi.
  - intros page Hi Ha.
    assert (Hrun : main fs
              = (after_step index_html (fun c => Some (index_html_text c)) fs, inr 1)).
    { unfold main. rewrite run_bind, (run_dir_exists _ _ index_html page) by done.
      cbn [negb]. unfold try_except.
      rewrite run_bind, run_patch_index_html_step, Hi.
      rewrite run_bind, run_patch_app_js_step.
      by rewrite lookup_after_step, Ha by paths_differ. }
    cbv zeta. rewrite Hrun. cbn [fst snd]. split_and!.
    + done.
    + by rewrite lookup_after_step_target, Hi.
    + by apply lookup_after_step_backup.
    + intros q H1 H2. by apply lookup_after_step.
Qed.

(** X5.  [main] writes nowhere but in the five files and their [.bak.v29]
    copies: every other path holds after the run what it held before,
    however the run ends. *)
Theorem v29_main_touches_only_its_files (fs : files) (q : string) :
  q ∉ targets -> q ∉ backups -> (main fs).1 !! q = fs !! q.
Proof.
  unfold backups, targets. cbn [map]. rewrite !not_elem_of_cons.
  intros (T1 & T2 & T3 & T4 & T5 & _) (B1 & B2 & B3 & B4 & B5 & _).
  assert (Hq : forall p, q <> p -> p ∉ [q])
    by (intros p Hp; rewrite not_elem_of_cons; split; [done|apply not_elem_of_nil]).
  assert (Hl : leaves [q] main).
  { unfold main. apply leaves_bind; [apply leaves_dir_exists|]. intros found.
    destruct (negb found); [apply leaves_ret|].
    apply leaves_try_except; [|apply leaves_ret].
    apply leaves_bind;
      [eapply rewrites_leaves; [apply rewrites_patch_index_html|by apply Hq..]|].
    intros _. apply leaves_bind;
      [eapply rewrites_leaves; [apply rewrites_patch_app_js|by apply Hq..]|].
    intros _. apply leaves_bind;
      [eapply rewrites_leaves; [apply rewrites_patch_watches_ts|by apply Hq..]|].
    intros _. apply leaves_bind;
      [eapply rewrites_leaves; [apply rewrites_patch_detail_page|by apply Hq..]|].
    intros _. apply leaves_bind;
      [eapply rewrites_leaves; [apply rewrites_patch_detail_page|by apply Hq..]|].
    intros _. apply leaves_ret. }
  apply Hl. rewrite elem_of_cons. by left.
Qed.

Lemma v29_main_touches_only_its_files_witness :
  let fs : files := {[ index_html := "<html></html>"; "/etc/hosts" := "127.0.0.1" ]} in
  (main fs).1 !! "/etc/hosts" = fs !! "/etc/hosts".
Proof.
  cbv zeta. apply v29_main_touches_only_its_files.
  - unfold targets. not_among.
  - unfold backups, targets. cbn [map]. not_among.
Defined.

End V29Facts.

(** ** v30_frontend_patch.py: when the patch goes through *)

Section V30Facts.
Import Py Sys V30 V30Text.

Lemma run_verify (fs : files) a b :
  fs !! set_html = Some a -> fs !! minifig_html = Some b ->
  verify_patches fs = (fs, inr (errors a b)).
Proof.
  intros Ha Hb. unfold verify_patches.
  rewrite run_bind, (run_read _ _ a Ha), run_bind, (run_read _ _ b Hb), run_ret.
  unfold errors. by rewrite <- !app_assoc.
Qed.

(** [main] where both pages exist. *)
Lemma run_v30_main (fs : files) s m :
  fs !! set_html = Some s -> fs !! minifig_html = Some m ->
  main fs
  = match errors (set_html_text s) (minifig_html_text m) with
    | [] => (patched s m fs, inr 0)
    | _ :: _ =>
      (<[minifig_html := m]> (<[set_html := s]> (patched s m fs)),
       inl (SystemExit 1))
    end.
Proof.
  intros Hs Hm. unfold main, patched.
  rewrite run_bind, run_exists, bool_decide_true by eauto. cbn [negb].
  rewrite run_bind, (run_copy _ _ _ s) by done.
  set (fs1 := <[set_html_bak := s]> fs).
  assert (H1 : fs1 !! minifig_html = Some m)
    by (subst fs1; by rewrite lookup_insert_ne by paths_differ).
  rewrite run_bind, (run_copy _ _ _ m) by done.
  set (fs2 := <[minifig_html_bak := m]> fs1).
  assert (H2 : fs2 !! set_html = Some s)
    by (subst fs2 fs1; by rewrite !lookup_insert_ne by paths_differ).
  rewrite run_bind, (run_patch_set_html _ s) by done.
  set (fs3 := <[set_html := set_html_text s]> fs2).
  assert (H3 : fs3 !! minifig_html = Some m)
    by (subst fs3 fs2; by rewrite !lookup_insert_ne by paths_differ).
  rewrite run_bind, (run_patch_minifig_html _ m) by done.
  set (fs4 := <[minifig_html := minifig_html_text m]> fs3).
  assert (H4s : fs4 !! set_html = Some (set_html_text s)).
  { subst fs4 fs3. rewrite lookup_insert_ne by paths_differ. apply lookup_insert_eq. }
  assert (H4m : fs4 !! minifig_html = Some (minifig_html_text m))
    by apply lookup_insert_eq.
  rewrite run_bind, (run_verify _ _ _ H4s H4m).
  destruct (errors _ _) as [|e errs]; [done|].
  assert (H4b : fs4 !! set_html_bak = Some s).
  { subst fs4 fs3 fs2 fs1. rewrite !lookup_insert_ne by paths_differ.
    apply lookup_insert_eq. }
  rewrite run_bind, (run_copy _ _ _ s) by done.
  assert (H5b : <[set_html := s]> fs4 !! minifig_html_bak = Some m).
  { subst fs4 fs3 fs2. rewrite !lookup_insert_ne by paths_differ.
    apply lookup_insert_eq. }
  by rewrite run_bind, (run_copy _ _ _ m) by done.
Qed.

Lemma set_html_text_verified s :
  contains "let priceChart = null;" s = true ->
  contains "currencySymbol" (set_html_text s) = true
  /\ contains "getCurrencySymbol" (set_html_text s) = true
  /\ contains "return '€' + value;" (set_html_text s) = false.
Proof.
  intros Hs. unfold set_html_text. split_and!.
  - apply replace_keeps_present; [done|by vm_compute|].
    apply replace_keeps_present; [done|by vm_compute|].
    apply replace_inserts_marker; [done|done|by vm_compute].
  - apply replace_keeps_present; [done|by vm_compute|].
    apply replace_keeps_present; [done|by vm_compute|].
    apply replace_inserts_marker; [done|done|by vm_compute].
  - apply replace_removes; [done|by vm_compute].
Qed.

Lemma minifig_html_text_verified m :
  contains "let priceChart = null;" m = true ->
  contains "/api/minifigs/${figNum}/history?days=${days}`" m = true ->
  contains "const history = await response.json();" m = true ->
  contains "getUserCountry" (minifig_html_text m) = true
  /\ contains "country=${getUserCountry()}" (minifig_html_text m) = true
  /\ contains "history.symbol" (minifig_html_text m) = true
  /\ contains "return '€' + value;" (minifig_html_text m) = false.
Proof.
  intros Ha Hu Hh. unfold minifig_html_text. split_and!.
  - do 4 (apply replace_keeps_present; [done|by vm_compute|]).
    apply replace_inserts_marker; [done|done|by vm_compute].
  - do 3 (apply replace_keeps_present; [done|by vm_compute|]).
    apply replace_inserts_marker; [done| |by vm_compute].
    apply replace_keeps_present; [done|by vm_compute|done].
  - do 2 (apply replace_keeps_present; [done|by vm_compute|]).
    apply replace_inserts_marker; [done| |by vm_compute].
    do 2 (apply replace_keeps_present; [done|by vm_compute|]). done.
  - apply replace_removes; [done|by vm_compute].
Qed.

(** X6.  The patch goes through on every pair of pages that have the lines
    it builds on: [let priceChart = null;] in both, and in minifig.html the
    history request and the line that reads its answer.  Then nothing is
    rolled back, [main] returns, and both pages hold the rewritten text.
    The two checks for a hard-coded Euro sign on the Y axis cannot fail
    after the patches, whatever the pages were. *)
Theorem v30_main_succeeds (fs : files) (s m : string) :
  fs !! set_html = Some s -> fs !! minifig_html = Some m ->
  contains "let priceChart = null;" s = true ->
  contains "let priceChart = null;" m = true ->
  contains "/api/minifigs/${figNum}/history?days=${days}`" m = true ->
  contains "const history = await response.json();" m = true ->
  (main fs).2 = inr 0
  /\ (main fs).1 !! set_html = Some (set_html_text s)
  /\ (main fs).1 !! minifig_html = Some (minifig_html_text m)
  /\ (forall s' m', contains "return '€' + value;" (set_html_text s') = false
                    /\ contains "return '€' + value;" (minifig_html_text m') = false).
Proof.
  intros Hs Hm Ha Hb Hu Hh. rewrite (run_v30_main fs s m Hs Hm).
  destruct (set_html_text_verified s Ha) as (S1 & S2 & S3).
  destruct (minifig_html_text_verified m Hb Hu Hh) as (M1 & M2 & M3 & M4).
  unfold errors. rewrite S1, S2, S3, M1, M2, M3, M4. cbn [negb check app fst snd].
  split; [done|]. unfold patched. split_and!.
  - rewrite lookup_insert_ne by paths_differ. apply lookup_insert_eq.
  - apply lookup_insert_eq.
  - intros s' m'. split; apply replace_removes; done || by vm_compute.
Qed.

Lemma v30_main_succeeds_witness :
  (main sample_files).2 = inr 0
  /\ (main sample_files).1 !! set_html = Some (set_html_text sample_page).
Proof.
  assert (Hs : sample_files !! set_html = Some sample_page)
    by (unfold sample_files; by rewrite lookup_insert_eq).
  assert (Hm : sample_files !! minifig_html = Some sample_page).
  { unfold sample_files. rewrite lookup_insert_ne by paths_differ.
    by rewrite lookup_singleton_eq. }
  destruct (v30_main_succeeds sample_files sample_page sample_page Hs Hm)
    as (H1 & H2 & _); try (vm_compute; reflexivity).
  by split.
Defined.

(** X7.  [main] copies each page over its [.bak.v29] before anything else,
    whatever that file held: these are the names v29_patch.py gives its
    own backups of the two pages.  So where v29_patch.py was run first,
    the backups hold after v30 the pages as v29 left them, and what v29
    had saved from before its own run is overwritten. *)
Theorem v30_main_overwrites_v29_backups (fs0 : files) (s m : string) :
  let fs := (V29.main fs0).1 in
  fs !! V29.set_html = Some s -> fs !! V29.minifig_html = Some m ->
  (main fs).1 !! V29.backup_path V29.set_html = Some s
  /\ (main fs).1 !! V29.backup_path V29.minifig_html = Some m.
Proof.
  cbv zeta. intros Hs Hm.
  change V29.set_html with set_html in *.
  change V29.minifig_html with minifig_html in *.
  change (V29.backup_path set_html) with set_html_bak.
  change (V29.backup_path minifig_html) with minifig_html_bak.
  rewrite (run_v30_main _ s m Hs Hm).
  destruct (errors _ _); cbn [fst]; unfold patched; split;
    rewrite !lookup_insert_ne by paths_differ; apply lookup_insert_eq.
Qed.

Lemma v30_main_overwrites_v29_backups_witness :
  let fs0 : files :=
    {[ V29.index_html := "<html></html>"; V29.app_js := "let a;";
       V29.watches_ts := "const router = Router();";
       V29.set_html := "openModal('login')"; V29.minifig_html := "<html></html>" ]} in
  (main (V29.main fs0).1).1 !! V29.backup_path V29.set_html
  = Some "openModal('signup')".
Proof.
  cbv zeta.
  refine (proj1 (v30_main_overwrites_v29_backups _ _ "<html></html>" _ _)).
  - rewrite run_v29_main by (vm_compute; eauto). cbn [fst].
    destruct (after_main_targets
      ({[ V29.index_html := "<html></html>"; V29.app_js := "let a;";
          V29.watches_ts := "const router = Router();";
          V29.set_html := "openModal('login')";
          V29.minifig_html := "<html></html>" ]})) as (_ & _ & _ & -> & _).
    vm_compute. reflexivity.
  - rewrite run_v29_main by (vm_compute; eauto). cbn [fst].
    destruct (after_main_targets
      ({[ V29.index_html := "<html></html>"; V29.app_js := "let a;";
          V29.watches_ts := "const router = Router();";
          V29.set_html := "openModal('login')";
          V29.minifig_html := "<html></html>" ]})) as (_ & _ & _ & _ & ->).
    vm_compute. reflexivity.
Defined.

End V30Facts.

(** ** patch_password_reset.py and fix_password_reset_js.py: the handlers *)

Section HandlerFacts.
Import Py Sys.

Lemma contains_trans a b c :
  contains a b = true -> contains b c = true -> contains a c = true.
Proof.
  rewrite !contains_iff. intros (x & y & ->) (u & v & ->).
  exists (u +:+ x), (y +:+ v). by rewrite !append_assoc.
Qed.

Lemma contains_absent_trans a b c :
  contains a b = true -> contains a c = false -> contains b c = false.
Proof.
  intros Hab Hac. destruct (contains b c) eqn:Hbc; [|done].
  by rewrite (contains_trans a b c Hab Hbc) in Hac.
Qed.

(** X8.  On a page that has the toast container and nothing of the patch
    yet, [add_forgot_password_modal] puts in a form whose [onsubmit] names
    [handleForgotPassword]; [add_password_reset_js], which runs later in
    the same [main], takes that name for its own mark and adds nothing.
    The page is left calling a handler that is not defined in it. *)
Theorem password_reset_js_step_is_skipped (page : string) :
  contains "handleForgotPassword" page = false ->
  contains "modal-forgot-password" page = false ->
  contains "<!-- Toast Container -->" page = true ->
  let with_modals :=
    PasswordReset.add_reset_password_modal
      (PasswordReset.add_forgot_password_modal page) in
  PasswordReset.add_password_reset_js with_modals = with_modals
  /\ contains ("onsubmit=" +:+ dq +:+ "handleForgotPassword(event)" +:+ dq)
              with_modals = true
  /\ contains "async function handleForgotPassword(event)" with_modals = false.
Proof.
  intros Hh Hm Ht. cbv zeta.
  set (onsubmit := "onsubmit=" +:+ dq +:+ "handleForgotPassword(event)" +:+ dq).
  set (def := "async function handleForgotPassword(event)").
  assert (Hd : contains def page = false).
  { apply (contains_absent_trans "handleForgotPassword"); [by vm_compute|done]. }
  set (c2 := PasswordReset.add_forgot_password_modal page).
  assert (H2 : contains onsubmit c2 = true /\ contains def c2 = false).
  { subst c2. unfold PasswordReset.add_forgot_password_modal. rewrite Hm.
    destruct (contains PasswordReset.settings_modal_end page) eqn:Hs.
    - split.
      + apply replace_inserts_marker; [done|done|by vm_compute].
      + apply replace_keeps_absent; [done|by vm_compute|done].
    - rewrite Ht. split.
      + apply replace_inserts_marker; [done|done|by vm_compute].
      + apply replace_keeps_absent; [done|by vm_compute|done]. }
  destruct H2 as [H2a H2b].
  set (c3 := PasswordReset.add_reset_password_modal c2).
  assert (H3 : contains onsubmit c3 = true /\ contains def c3 = false).
  { subst c3. unfold PasswordReset.add_reset_password_modal.
    destruct (contains "modal-reset-password" c2); [done|].
    destruct (contains "<!-- Toast Container -->" c2); [|done]. split.
    - apply replace_keeps_present; [done|by vm_compute|done].
    - apply replace_keeps_absent; [done|by vm_compute|done]. }
  destruct H3 as [H3a H3b]. split; [|done].
  unfold PasswordReset.add_password_reset_js.
  by rewrite (contains_trans "handleForgotPassword" onsubmit c3) by (done || by vm_compute).
Qed.

Lemma password_reset_js_step_is_skipped_witness :
  let with_modals :=
    PasswordReset.add_reset_password_modal
      (PasswordReset.add_forgot_password_modal PasswordReset.sample_page) in
  PasswordReset.add_password_reset_js with_modals = with_modals
  /\ contains "async function handleForgotPassword(event)" with_modals = false.
Proof.
  cbv zeta.
  destruct (password_reset_js_step_is_skipped PasswordReset.sample_page)
    as (H1 & _ & H3); try (vm_compute; reflexivity).
  by split.
Defined.

(** X9.  fix_password_reset_js.py puts the handlers into a page that has
    no definition of [handleForgotPassword] exactly when the page has one
    of its three insertion points: the [scrollTo] helper, the banner of the
    INITIALIZATION section, or the head of [init].  Then index.html holds
    the text of both handlers afterwards; without an insertion point the
    script writes the page back as it was. *)
Theorem fix_main_inserts_the_handlers (fs : files) (content : string) :
  fs !! Fix.INDEX_PATH = Some content ->
  contains Fix.marker content = false ->
  let found :=
    search Fix.pattern content || search Fix.pattern2 content
    || contains "async function init() {" content in
  (Fix.main fs).2 = inr 0
  /\ (Fix.main fs).1 = <[Fix.INDEX_PATH := Fix.insert_functions content]> fs
  /\ (found = true ->
      contains HandlerText.handleForgotPassword_text (Fix.insert_functions content)
      = true
      /\ contains "async function handleResetPassword(event) {"
                  (Fix.insert_functions content) = true)
  /\ (found = false -> Fix.insert_functions content = content).
Proof.
  intros Hf Hm. cbv zeta. rewrite run_fix_main, Hf, Hm. cbn [fst snd].
  split; [done|]. split; [done|].
  assert (Hjs : forall t, contains t Fix.JS_FUNCTIONS = true ->
            forall a x b, contains t (a +:+ (x +:+ Fix.JS_FUNCTIONS) +:+ b) = true
                       /\ contains t (a +:+ (Fix.JS_FUNCTIONS +:+ x) +:+ b) = true).
  { intros t Ht a x b. split; apply contains_middle;
      [by apply contains_append_r|by apply contains_append_l]. }
  unfold Fix.insert_functions.
  destruct (search Fix.pattern content) eqn:H1.
  { split; [intros _|done]. unfold Fix.pattern in *.
    eapply sub_present in H1 as (a & x & b & ->).
    split; apply Hjs; by vm_compute. }
  destruct (search Fix.pattern2 content) eqn:H2.
  { split; [intros _|done]. unfold Fix.pattern2 in *.
    eapply sub_present in H2 as (a & x & b & ->).
    split; apply contains_middle, contains_append_l; by vm_compute. }
  destruct (contains "async function init() {" content) eqn:H3.
  - split; [intros _|done].
    split; (apply replace_inserts_marker; [done|done|by vm_compute]).
  - split; [done|intros _]. by apply replace_absent.
Qed.

Lemma fix_main_inserts_the_handlers_witness :
  (Fix.main Fix.sample_files).1
  = <[Fix.INDEX_PATH := Fix.insert_functions Fix.sample_page]> Fix.sample_files.
Proof.
  refine (proj1 (proj2 (fix_main_inserts_the_handlers Fix.sample_files
                          Fix.sample_page _ _))).
  - apply lookup_singleton_eq.
  - vm_compute. reflexivity.
Defined.

End HandlerFacts.

(** ** apply-seo.py: the head and the rest of the page *)

Section SeoFacts.
Import Py Sys SeoText.

Lemma drop_lit_iff text s r : drop_lit text s = Some r <-> s = text +:+ r.
Proof.
  revert s. induction text as [|a t IH]; intros s.
  - simpl. split; [by intros [= ->]|by intros ->].
  - destruct s as [|b s]; [split; [done|by rewrite append_cons]|].
    simpl. rewrite append_cons. destruct (Ascii.eqb_spec a b) as [->|Hne].
    + rewrite IH. split; [by intros ->|by intros [= ->]].
    + split; [done|]. intros [= -> _]. done.
Qed.

Lemma drop_lit_append text r : drop_lit text (text +:+ r) = Some r.
Proof. by apply drop_lit_iff. Qed.

Lemma drop_lit_prefix text s :
  String.prefix text s = false -> drop_lit text s = None.
Proof.
  intros Hp. destruct (drop_lit text s) as [r|] eqn:Hd; [|done].
  apply drop_lit_iff in Hd as ->.
  assert (String.prefix text (text +:+ r) = true) as H by (apply prefix_iff; eauto).
  by rewrite H in Hp.
Qed.

Lemma after_first_eq stop s :
  after_first stop s
  = match drop_lit stop s with
    | Some rest => Some rest
    | None =>
      match s with
      | EmptyString => None
      | String _ r => after_first stop r
      end
    end.
Proof. by destruct s. Qed.

(** Where [p] is at the head of [m +:+ t], it lies within [m] or goes on
    into [t]. *)
Lemma prefix_split p m t :
  String.prefix p (m +:+ t) = true ->
  String.prefix p m = true
  \/ exists p2, p = m +:+ p2 /\ String.prefix p2 t = true.
Proof.
  revert m. induction p as [|a p IH]; intros m; [intros _; left; apply prefix_empty|].
  destruct m as [|b m]; [intros H; right; by exists (String a p)|].
  rewrite append_cons. simpl. destruct (ascii_dec a b) as [->|]; [|done].
  intros [H|(p2 & -> & H)]%IH; [by left|right].
  exists p2. by rewrite append_cons.
Qed.

Lemma tails_append m q : q <> "" -> m <> "" -> In q (tl (tails (m +:+ q))).
Proof.
  intros Hq. induction m as [|a m IH]; [intros H; by destruct H|intros _].
  rewrite append_cons. simpl. destruct m as [|b m].
  - change ("" +:+ q) with q. destruct q; [done|]. by left.
  - rewrite append_cons. simpl. right.
    specialize (IH ltac:(done)). rewrite append_cons in IH. exact IH.
Qed.

(** The first [stop] of a text: where [stop] cannot overlap itself and is
    not in [mid], the text past the first [stop] of [mid +:+ stop +:+ rest]
    is [rest]. *)
Lemma after_first_found stop mid rest :
  stop <> "" ->
  forallb (fun q => negb (agree q stop)) (tl (tails stop)) = true ->
  contains stop mid = false ->
  after_first stop (mid +:+ stop +:+ rest) = Some rest.
Proof.
  intros Hne Hb. induction mid as [|c mid IH]; intros Hm.
  - rewrite after_first_eq. change ("" +:+ ?x) with x. by rewrite drop_lit_append.
  - rewrite contains_cons in Hm. apply orb_false_iff in Hm as [Hp Hm].
    rewrite after_first_eq, append_cons.
    rewrite drop_lit_prefix; [by apply IH|].
    destruct (String.prefix stop (String c (mid +:+ stop +:+ rest))) eqn:Hs; [|done].
    rewrite <- append_cons in Hs.
    apply prefix_split in Hs as [Hs|(p2 & Hp2 & Hs)]; [by rewrite Hs in Hp|].
    destruct p2 as [|x p2].
    { rewrite append_nil_r in Hp2. subst stop.
      assert (String.prefix (String c mid) (String c mid) = true) as H
        by (apply prefix_iff; exists ""; by rewrite append_nil_r).
      by rewrite H in Hp. }
    apply prefix_append_agree in Hs.
    rewrite forallb_forall in Hb.
    specialize (Hb (String x p2)). rewrite Hp2 in Hb at 1.
    rewrite Hs in Hb. discriminate Hb. by apply tails_append.
Qed.

Lemma sub_head_from_skip skip s :
  sub_head_from skip s = sub_head_from 0 (drop skip s).
Proof.
  revert skip. induction s as [|c r IH]; intros skip; [by destruct skip|].
  destruct skip as [|k]; [done|]. cbn [sub_head_from drop]. apply IH.
Qed.

Lemma sub_head_absent s : search_head s = false -> sub_head_from 0 s = s.
Proof.
  induction s as [|c r IH]; [done|]. cbn [search_head sub_head_from].
  destruct (match_head (String c r)); [done|]. intros H. by rewrite IH.
Qed.

Lemma NEW_HEAD_shape :
  exists mid, NEW_HEAD = "<!DOCTYPE html>" +:+ mid +:+ "</head>"
              /\ contains "</head>" mid = false.
Proof.
  exists (take (String.length NEW_HEAD - 15 - 7) (drop 15 NEW_HEAD)).
  split; by vm_compute.
Qed.

(** The head is replaced and the rest of the page kept. *)
Lemma replace_head_page mid rest :
  contains "</head>" mid = false -> search_head rest = false ->
  replace_head ("<!DOCTYPE html>" +:+ mid +:+ "</head>" +:+ rest)
  = Some (NEW_HEAD +:+ rest).
Proof.
  intros Hm Hr.
  assert (Hh : match_head ("<!DOCTYPE html>" +:+ mid +:+ "</head>" +:+ rest)
               = Some rest).
  { unfold match_head. rewrite drop_lit_append.
    by apply after_first_found. }
  unfold replace_head.
  set (s := "<!DOCTYPE html>" +:+ mid +:+ "</head>" +:+ rest) in *.
  assert (Hs : exists r, s = String "<" r) by (by eexists).
  destruct Hs as [r Hs]. rewrite Hs in *.
  cbn [search_head sub_head_from]. rewrite Hh. f_equal. f_equal.
  rewrite sub_head_from_skip.
  assert (Hd : drop (String.length (String "<" r) - String.length rest - 1) r = rest).
  { assert (r = "!DOCTYPE html>" +:+ mid +:+ "</head>" +:+ rest) as ->
      by (subst s; by injection Hs).
    rewrite <- !append_assoc.
    replace (String.length _ - _ - 1)%nat
      with (String.length (("!DOCTYPE html>" +:+ mid) +:+ "</head>")).
    - apply drop_append.
    - cbn [String.length]. rewrite !length_append. lia. }
  rewrite Hd. by apply sub_head_absent.
Qed.

(** X10.  On a page that starts with its doctype, has its first [</head>]
    after it and no second head further on, [main] writes [NEW_HEAD]
    followed by everything that came after [</head>], unchanged, and ends
    with 0; the page as it was is in the backup.  A second run writes the
    same page again.  Where no head is found, [main] ends with 1 and
    index.html is as it was, though a backup has been made. *)
Theorem seo_main_replaces_the_head (fs : files) (stamp mid rest : string) :
  contains "</head>" mid = false -> search_head rest = false ->
  let page := "<!DOCTYPE html>" +:+ mid +:+ "</head>" +:+ rest in
  fs !! Seo.INDEX_FILE = Some page ->
  let once := Seo.main replace_head stamp fs in
  once.2 = inr 0
  /\ once.1 !! Seo.INDEX_FILE = Some (NEW_HEAD +:+ rest)
  /\ once.1 !! Seo.backup_name stamp = Some page
  /\ (forall stamp', (Seo.main replace_head stamp' once.1).1 !! Seo.INDEX_FILE
                     = Some (NEW_HEAD +:+ rest))
  /\ (forall (gs : files) other,
        gs !! Seo.INDEX_FILE = Some other -> search_head other = false ->
        Seo.main replace_head stamp gs
        = (<[Seo.backup_name stamp := other]> gs, inr 1)).
Proof.
  intros Hm Hr. cbv zeta. intros Hp.
  assert (Hne : forall st, Seo.INDEX_FILE <> Seo.backup_name st).
  { intros st. unfold Seo.backup_name. apply append_neq. done. }
  assert (Hrun : forall (gs : files) st c new,
            gs !! Seo.INDEX_FILE = Some c -> replace_head c = Some new ->
            Seo.main replace_head st gs
            = (<[Seo.INDEX_FILE := new]> (<[Seo.backup_name st := c]> gs), inr 0)).
  { intros gs st c new Hc Hn. unfold Seo.main.
    rewrite run_bind, (run_read _ _ c Hc), run_bind, (run_copy _ _ _ c Hc), Hn.
    by rewrite run_bind, run_write. }
  rewrite (Hrun fs stamp _ _ Hp (replace_head_page mid rest Hm Hr)). cbn [fst snd].
  split; [done|]. split; [apply lookup_insert_eq|]. split.
  { rewrite lookup_insert_ne by apply Hne. apply lookup_insert_eq. }
  split.
  - intros stamp'. destruct NEW_HEAD_shape as (mid0 & Hshape & Hmid0).
    erewrite Hrun; [apply lookup_insert_eq|apply lookup_insert_eq|].
    rewrite Hshape at 1. rewrite !append_assoc.
    rewrite (replace_head_page mid0 rest Hmid0 Hr). by rewrite Hshape, !append_assoc.
  - intros gs other Hg Ho. unfold Seo.main, replace_head.
    by rewrite run_bind, (run_read _ _ other Hg), run_bind, (run_copy _ _ _ other Hg), Ho.
Qed.

Lemma seo_main_replaces_the_head_witness :
  let fs : files :=
    {[ Seo.INDEX_FILE := "<!DOCTYPE html><head><title>ScoutLoot</title></head><body></body>" ]} in
  (Seo.main replace_head "20260101-120000" fs).1 !! Seo.INDEX_FILE
  = Some (NEW_HEAD +:+ "<body></body>").
Proof.
  cbv zeta.
  refine (proj1 (proj2 (seo_main_replaces_the_head _ "20260101-120000"
            "<head><title>ScoutLoot</title>" "<body></body>" _ _ _))).
  - vm_compute. reflexivity.
  - vm_compute. reflexivity.
  - apply lookup_singleton_eq.
Defined.

End SeoFacts.

(** ** patch-notification-prefs.py: the route and the checkboxes *)

Section NotifPrefsFacts.
Import Py Sys NotifPrefsText.

Lemma replace_if_found_keeps_present m old new c :
  old <> "" -> apart m old = true ->
  contains m c = true -> contains m (V29.replace_if_found old new c) = true.
Proof.
  intros Hne Ha Hm. unfold V29.replace_if_found.
  destruct (contains old c); [by apply replace_keeps_present|done].
Qed.

(** Part 2 changes nothing or leaves its mark. *)
Lemma users_ts_text_marker c :
  users_ts_text c = c \/ contains "weekly_digest_enabled" (users_ts_text c) = true.
Proof.
  unfold users_ts_text.
  destruct (contains "weekly_digest_enabled" c) eqn:Hm; [by left|].
  destruct (contains "router.patch('/:id'," c).
  - unfold V29.replace_if_found.
    destruct (contains old_destructure c) eqn:Hd.
    + assert (contains "weekly_digest_enabled"
                (replace old_destructure new_destructure c) = true) as H
        by (apply replace_inserts_marker; [done|done|by vm_compute]).
      rewrite H. cbn [negb]. rewrite andb_false_r. by right.
    + rewrite Hm. cbn [negb]. rewrite andb_true_r.
      destruct (contains "ship_to_country, timezone" c); [|by left].
      destruct (contains "ship_to_country, timezone }" c) eqn:Hb.
      * right. apply replace_inserts_marker; [done|done|by vm_compute].
      * left. by apply replace_absent.
  - destruct (contains "export default router;" c) eqn:He; right.
    + apply replace_inserts_marker; [done|done|by vm_compute].
    + apply contains_append_r. by vm_compute.
Qed.

Lemma run_script (fs : files) html users :
  fs !! NotifPrefs.index_html = Some html ->
  fs !! NotifPrefs.users_ts = Some users ->
  script fs
  = (<[NotifPrefs.users_ts := users_ts_text users]>
       (<[NotifPrefs.users_bak := users]>
          (<[NotifPrefs.index_html := html_text html]>
             (<[NotifPrefs.index_bak := html]> fs))), inr 0).
Proof.
  intros Hh Hu. unfold script, NotifPrefs.script.
  rewrite run_bind, (run_read _ _ html Hh).
  rewrite run_bind, run_write, run_bind, run_write.
  rewrite run_bind, (run_read _ _ users)
    by (by rewrite !lookup_insert_ne by paths_differ).
  by rewrite run_bind, run_write, run_bind, run_write.
Qed.

(** X11.  Part 2 of the script leaves users.ts with the new settings route
    whenever the file has no [PATCH /:id] route yet: before
    [export default router;] where that line exists, else at the end.
    Whatever the file, a second run of the script leaves users.ts as the
    first run wrote it. *)
Theorem notif_prefs_users_ts_twice (fs : files) (html users : string) :
  fs !! NotifPrefs.index_html = Some html ->
  fs !! NotifPrefs.users_ts = Some users ->
  let once := (script fs).1 in
  (script fs).2 = inr 0
  /\ once !! NotifPrefs.users_ts = Some (users_ts_text users)
  /\ (script once).1 !! NotifPrefs.users_ts = once !! NotifPrefs.users_ts
  /\ (contains "weekly_digest_enabled" users = false ->
      contains "router.patch('/:id'," users = false ->
      contains new_route (users_ts_text users) = true
      /\ (contains "export default router;" users = true ->
          contains (new_route +:+ "export default router;") (users_ts_text users)
          = true)).
Proof.
  intros Hh Hu. cbv zeta. rewrite (run_script fs html users Hh Hu). cbn [fst snd].
  split; [done|]. split; [apply lookup_insert_eq|]. split.
  - erewrite run_script;
      [|by rewrite !lookup_insert_ne by paths_differ; apply lookup_insert_eq
       |apply lookup_insert_eq].
    cbn [fst]. rewrite !lookup_insert_eq. f_equal.
    apply (guarded_idempotent "weekly_digest_enabled" users_ts_text).
    + intros c Hc. unfold users_ts_text. by rewrite Hc.
    + apply users_ts_text_marker.
  - intros Hm Hr. unfold users_ts_text. rewrite Hm, Hr.
    destruct (contains "export default router;" users) eqn:He.
    + assert (H : contains (new_route +:+ "export default router;")
                    (replace "export default router;"
                       (new_route +:+ "export default router;") users) = true).
      { destruct (replace_present "export default router;"
                    (new_route +:+ "export default router;") users)
          as (a & b & ->); [done|done|].
        apply contains_middle. apply contains_iff. exists "", "".
        by rewrite append_nil_r. }
      split; [|done].
      apply (contains_trans _ (new_route +:+ "export default router;")); [|done].
      apply contains_append_l, contains_iff. exists "", "". by rewrite append_nil_r.
    + split; [|done]. apply contains_append_r, contains_iff. exists "", "".
      by rewrite append_nil_r.
Qed.

Lemma notif_prefs_users_ts_twice_witness :
  let fs : files :=
    {[ NotifPrefs.index_html := "<html></html>";
       NotifPrefs.users_ts := "const router = Router();
export default router;" ]} in
  (script (script fs).1).1 !! NotifPrefs.users_ts
  = (script fs).1 !! NotifPrefs.users_ts.
Proof.
  cbv zeta.
  refine (proj1 (proj2 (proj2 (notif_prefs_users_ts_twice _ "<html></html>"
    "const router = Router();
export default router;" _ _)))).
  - apply lookup_insert_eq.
  - rewrite lookup_insert_ne by paths_differ. apply lookup_singleton_eq.
Defined.

(** X12.  Where Part 1 finds the Save Settings button (by the pattern, or
    by the literal block of the alternative), the page it writes has both
    checkboxes, whatever the two later replacements of Part 1 do. *)
Theorem notif_prefs_html_has_checkboxes (html : string) :
  search save_button_pattern html = true \/ contains save_block html = true ->
  contains ("id=" +:+ dq +:+ "settings-weekly-digest" +:+ dq) (html_text html) = true
  /\ contains ("id=" +:+ dq +:+ "settings-still-available" +:+ dq) (html_text html)
     = true.
Proof.
  intros Hfound.
  assert (H : forall m, contains m notification_ui = true ->
            apart m old_settings_body = true -> apart m old_load = true ->
            contains m (html_text html) = true).
  { intros m Hm A1 A2. unfold html_text.
    apply replace_if_found_keeps_present; [done|done|].
    apply replace_if_found_keeps_present; [done|done|].
    destruct (search save_button_pattern html) eqn:Hs.
    - unfold save_button_pattern in *.
      eapply sub_present in Hs as (a & x & b & ->).
      by apply contains_middle, contains_append_l.
    - destruct Hfound as [|Hb]; [done|].
      rewrite (contains_trans save_button save_block html) by (done || by vm_compute).
      apply replace_inserts_marker; [done|done|]. by apply contains_append_l. }
  split; apply H; by vm_compute.
Qed.

Lemma notif_prefs_html_has_checkboxes_witness :
  contains ("id=" +:+ dq +:+ "settings-weekly-digest" +:+ dq)
           (html_text ("<form>" +:+ save_block +:+ "</div>")) = true.
Proof.
  refine (proj1 (notif_prefs_html_has_checkboxes _ _)).
  right. vm_compute. reflexivity.
Defined.

End NotifPrefsFacts.

(** ** The user id between the page and the route *)

Section IdFacts.
Import JS JSText.

(** The character of a decimal digit. *)
Lemma digit_char (d : nat) :
  (d < 10)%nat ->
  let c := ascii_of_nat (48 + d) in
  digit c = Some (Z.of_nat d)
  /\ (forall r, trimStart (String c r) = String c r)
  /\ c <> "-"%char /\ c <> "+"%char.
Proof.
  intros Hd.
  do 10 (destruct d as [|d]; [vm_compute; split_and!; (done || by intros [])|]).
  lia.
Qed.

Lemma digits_digits_of fuel n :
  0 <= n < 10 ^ Z.of_nat fuel ->
  exists k, forall acc s,
    digits acc (digits_of fuel n s) = digits (acc * 10 ^ k + n) s
    /\ 0 <= k.
Proof.
  revert n. induction fuel as [|fuel IH]; intros n Hn.
  - simpl in Hn. assert (n = 0) as -> by lia. exists 0. intros acc s. simpl.
    split; [f_equal; lia|lia].
  - cbn [digits_of].
    assert (Hmod : 0 <= n mod 10 < 10) by (apply Z.mod_pos_bound; lia).
    destruct (digit_char (Z.to_nat (n mod 10)) ltac:(lia)) as (Hdig & _).
    rewrite Z2Nat.id in Hdig by lia.
    destruct (n <? 10) eqn:Hlt.
    + apply Z.ltb_lt in Hlt. exists 1. intros acc s. cbn [digits].
      rewrite Hdig. rewrite Z.mod_small by lia. split; [f_equal; lia|lia].
    + apply Z.ltb_ge in Hlt.
      destruct (IH (n / 10)) as [k Hk].
      { split; [apply Z.div_pos; lia|].
        apply Z.div_lt_upper_bound; [lia|].
        rewrite Nat2Z.inj_succ, Z.pow_succ_r in Hn by lia. lia. }
      exists (k + 1). intros acc s. destruct (Hk acc (String (ascii_of_nat (48 + Z.to_nat (n mod 10))) s)) as [Hd Hk0].
      rewrite Hd. cbn [digits]. rewrite Hdig. split; [|lia]. f_equal.
      rewrite Z.pow_add_r by lia. pose proof (Z.div_mod n 10 ltac:(lia)). lia.
Qed.

Lemma digits_of_head fuel n s :
  (0 < fuel)%nat -> 0 <= n < 10 ^ Z.of_nat fuel ->
  exists d r, (d < 10)%nat
    /\ digits_of fuel n s = String (ascii_of_nat (48 + d)) r.
Proof.
  revert n s. induction fuel as [|fuel IH]; intros n s Hf Hn; [lia|].
  cbn [digits_of].
  assert (Hmod : 0 <= n mod 10 < 10) by (apply Z.mod_pos_bound; lia).
  destruct (n <? 10) eqn:Hlt.
  - exists (Z.to_nat (n mod 10)), s. split; [lia|done].
  - apply Z.ltb_ge in Hlt. apply IH.
    + destruct fuel; [simpl in Hn; lia|lia].
    + split; [apply Z.div_pos; lia|].
      apply Z.div_lt_upper_bound; [lia|].
      rewrite Nat2Z.inj_succ, Z.pow_succ_r in Hn by lia. lia.
Qed.

Lemma fuel_enough n :
  0 <= n -> 0 <= n < 10 ^ Z.of_nat (S (Z.to_nat (Z.log2 n))).
Proof.
  intros Hn. split; [done|].
  rewrite Nat2Z.inj_succ, Z2Nat.id by apply Z.log2_nonneg.
  destruct (Z.eq_dec n 0) as [->|Hz]; [simpl; lia|].
  pose proof (Z.log2_spec n ltac:(lia)) as [_ Hlog].
  eapply Z.lt_le_trans; [exact Hlog|].
  apply Z.pow_le_mono_l. pose proof (Z.log2_nonneg n). lia.
Qed.

Lemma parseInt_digit_head (d : nat) r :
  (d < 10)%nat ->
  let s := String (ascii_of_nat (48 + d)) r in
  parseInt s = Some (digits 0 s)
  /\ parseInt (String "-" s) = Some (- digits 0 s).
Proof.
  intros Hd.
  do 10 (destruct d as [|d];
         [match goal with
          | |- context [ascii_of_nat ?n] =>
            let c := eval vm_compute in (ascii_of_nat n) in
            change (ascii_of_nat n) with c
          end;
          split; unfold parseInt; cbn; f_equal; lia|]).
  lia.
Qed.

(** [parseInt] reads back the numeral [String(n)] writes. *)
Lemma parseInt_Number_toString n : parseInt (Number_toString n) = Some n.
Proof.
  unfold Number_toString.
  assert (Hpos : forall m, 0 <= m ->
            let s := digits_of (S (Z.to_nat (Z.log2 m))) m "" in
            digits 0 s = m
            /\ exists d r, (d < 10)%nat /\ s = String (ascii_of_nat (48 + d)) r).
  { intros m Hm. cbv zeta. split.
    - destruct (digits_digits_of _ m (fuel_enough m Hm)) as [k Hk].
      destruct (Hk 0 "") as [-> _]. simpl. lia.
    - apply digits_of_head; [lia|by apply fuel_enough]. }
  destruct (n <? 0) eqn:Hneg.
  - apply Z.ltb_lt in Hneg.
    destruct (Hpos (- n) ltac:(lia)) as (Hval & d & r & Hd & Hs).
    rewrite Hs in *.
    change ("-" +:+ String (ascii_of_nat (48 + d)) r)
      with (String "-" (String (ascii_of_nat (48 + d)) r)).
    destruct (parseInt_digit_head d r Hd) as [_ ->]. f_equal. lia.
  - apply Z.ltb_ge in Hneg.
    destruct (Hpos n Hneg) as (Hval & d & r & Hd & Hs).
    rewrite Hs in *.
    destruct (parseInt_digit_head d r Hd) as [-> _]. by f_equal.
Qed.

End IdFacts.

(** ** The bulk-condition route and its dropdown *)

Section BulkFacts.
Import JS JSText Watches.

Lemma truthy_included c :
  includes ["new"; "used"; "any"] (Some (JStr c)) = true ->
  truthy (Some (JStr c)) = true.
Proof.
  rewrite includes_conditions. by intros [-> | [-> | ->]].
Qed.

(** The three ways the route answers. *)
Lemma bulk_condition_cases now req db :
  (parseInt (userId req) = None
   /\ bulk_condition now req db = (db, error 400 "Invalid user ID"))
  \/ (is_Some (parseInt (userId req))
      /\ (forall c, assoc "condition" (body req) = Some (JStr c) ->
                    c <> "new" /\ c <> "used" /\ c <> "any")
      /\ bulk_condition now req db
         = (db, error 400 "Invalid condition. Must be: new, used, or any"))
  \/ (exists uid c,
        parseInt (userId req) = Some uid
        /\ assoc "condition" (body req) = Some (JStr c)
        /\ (c = "new" \/ c = "used" \/ c = "any")
        /\ ((reachable db = false
             /\ bulk_condition now req db = (db, error 500 "Failed to update watches"))
            \/ (reachable db = true
                /\ bulk_condition now req db
                   = ({| watches := (update_condition c uid now (watches db)).1;
                         reachable := true |},
                      Response 200 (JObj [("success", JBool true);
                        ("updated", JNum (update_condition c uid now (watches db)).2);
                        ("condition", JStr c)]))))).
Proof.
  unfold bulk_condition.
  destruct (parseInt (userId req)) as [uid|] eqn:Hid; [|by left].
  right.
  destruct (assoc "condition" (body req)) as [v|] eqn:Hc.
  2: { left. split; [eauto|]. split; [done|]. done. }
  destruct (includes ["new"; "used"; "any"] (Some v)) eqn:Hinc.
  - destruct v as [| | |c| |]; try discriminate Hinc.
    rewrite (truthy_included c Hinc). cbn [negb orb].
    right. exists uid, c. split; [done|]. split; [done|].
    split; [by apply includes_conditions|].
    unfold query. destruct (reachable db) eqn:Hr; [right|left]; split; try done.
  - left. split; [eauto|]. rewrite orb_true_r. split; [|done].
    intros c [= ->]. apply not_true_iff_false in Hinc.
    rewrite includes_conditions in Hinc. tauto.
Qed.

(** X13.  The route answers 200 exactly when [parseInt] reads the user id,
    the condition is one of the three strings and the database answers;
    every other request gets 400 or 500, and on those the table is what it
    was.  A database that does not answer gives 500, never a success. *)
Theorem bulk_condition_answers now req db :
  let result := bulk_condition now req db in
  ((exists payload, result.2 = Response 200 payload)
   <-> is_Some (parseInt (userId req))
       /\ (exists c, assoc "condition" (body req) = Some (JStr c)
                     /\ (c = "new" \/ c = "used" \/ c = "any"))
       /\ reachable db = true)
  /\ (exists code payload,
        result.2 = Response code payload
        /\ (code = 200 \/ code = 400 \/ code = 500)
        /\ (code <> 200 -> result.1 = db))
  /\ (reachable db = false -> forall payload, result.2 <> Response 200 payload).
Proof.
  cbv zeta.
  destruct (bulk_condition_cases now req db)
    as [[Hid ->]|[(Hid & Hc & ->)|(uid & c & Hid & Hc & Hv & [[Hr ->]|[Hr ->]])]];
    cbn [fst snd].
  - split_and!.
    + split; [by intros [? [=]]|]. rewrite Hid. by intros [[? [=]] _].
    + eexists 400, _. split_and!; [done|tauto|done].
    + done.
  - split_and!.
    + split; [by intros [? [=]]|]. intros (_ & (c & Hc' & Hv) & _).
      destruct (Hc c Hc') as (? & ? & ?). tauto.
    + eexists 400, _. split_and!; [done|tauto|done].
    + done.
  - split_and!.
    + split; [by intros [? [=]]|]. rewrite Hr. by intros (_ & _ & [=]).
    + eexists 500, _. split_and!; [done|tauto|done].
    + done.
  - split_and!.
    + split; [|eauto]. intros _. rewrite Hid. eauto 10.
    + eexists 200, _. split_and!; [done|tauto|done].
    + by rewrite Hr.
Qed.

(** X14.  The id the page writes into the path is the id the route reads:
    for every user id that a Number holds exactly (up to 2^53 - 1 in
    magnitude, where ['' + id] is the plain decimal numeral), the request
    [handleBulkConditionChange] sends for it (that numeral in the path, the
    chosen condition in the body) is served for that user, and the count it
    reports is the number of that user's active watches. *)
Theorem bulk_condition_reads_the_id_sent now (uid : Z) (c : string) db :
  safe_integer uid ->
  reachable db = true ->
  c = "new" \/ c = "used" \/ c = "any" ->
  parseInt (Number_toString uid) = Some uid
  /\ exists db',
       bulk_condition now
         {| userId := Number_toString uid; body := [("condition", JStr c)] |} db
       = (db', Response 200 (JObj
            [("success", JBool true);
             ("updated", JNum (Z.of_nat (length (filter
                (fun w => user_id w = uid /\ status w = "active") (watches db)))));
             ("condition", JStr c)])).
Proof.
  intros _ Hr Hc. split; [apply parseInt_Number_toString|].
  rewrite (bulk_condition_valid now _ db uid c);
    [|apply parseInt_Number_toString|done|done].
  rewrite (query_reachable c uid now db Hr), update_condition_count. eauto.
Qed.

Lemma bulk_condition_reads_the_id_sent_witness :
  parseInt (Number_toString 12) = Some 12
  /\ exists db',
       bulk_condition 200
         {| userId := Number_toString 12; body := [("condition", JStr "new")] |}
         sample_db
       = (db', Response 200 (JObj
            [("success", JBool true);
             ("updated", JNum (Z.of_nat (length (filter
                (fun w => user_id w = 12 /\ status w = "active")
                (watches sample_db)))));
             ("condition", JStr "new")])).
Proof.
  apply (bulk_condition_reads_the_id_sent 200 12 "new" sample_db);
    [exact safe_12|reflexivity|by left].
Defined.

End BulkFacts.

Section BulkClientFacts.
Import JS JSText BulkClient.

Lemma assoc_assign k v obj : assoc k (assign k v obj) = Some v.
Proof.
  induction obj as [|[k' old] rest IH]; simpl.
  - by rewrite String.eqb_refl.
  - destruct (String.eqb k k') eqn:Hk; simpl; by rewrite Hk.
Qed.

Lemma assoc_assign_ne k k0 v obj :
  k0 <> k -> assoc k0 (assign k v obj) = assoc k0 obj.
Proof.
  intros Hne. induction obj as [|[k' old] rest IH]; simpl.
  - by apply String.eqb_neq in Hne as ->.
  - destruct (String.eqb k k') eqn:Hk; simpl; [|by rewrite IH].
    apply String.eqb_eq in Hk as <-. by apply String.eqb_neq in Hne as ->.
Qed.

(** X15.  The dropdown's handler sends a request only for a chosen
    condition, a logged-in user, a watch list that is not empty and a
    confirmed question; the request is the PATCH of
    [/watches/bulk-condition/] followed by the user's id, with the
    condition as its body.  The page's own list of watches changes only
    after the request came back: then every watch in it has the condition
    and keeps its other properties; after a failed request the list is as
    it was.  Past the log-in test the dropdown always ends reset. *)
Theorem handleBulkConditionChange_sends_when_confirmed
    (toUpperCase : string -> string) condition user watches confirmed reply :
  let result :=
    handleBulkConditionChange toUpperCase condition user watches confirmed reply in
  let sent := exists uid, user = Some uid /\ condition <> "" /\ watches <> []
                          /\ confirmed = true in
  (forall path method body,
     ApiCall path method body ∈ result.2 <->
     exists uid, user = Some uid /\ condition <> "" /\ watches <> []
       /\ confirmed = true
       /\ path = "/watches/bulk-condition/" +:+ Number_toString uid
       /\ method = "PATCH" /\ body = [("condition", JStr condition)])
  /\ (sent -> reply = Resolved ->
      length result.1 = length watches
      /\ forall i w, watches !! i = Some w ->
           exists w', result.1 !! i = Some w'
             /\ assoc "condition" w' = Some (JStr condition)
             /\ forall k, k <> "condition" -> assoc k w' = assoc k w)
  /\ (~ sent \/ reply <> Resolved -> result.1 = watches)
  /\ (condition <> "" -> user <> None -> last result.2 = Some ResetSelect).
Proof.
  cbv zeta. unfold handleBulkConditionChange.
  assert (Hearly : forall events : list ui,
    (forall p m b, ApiCall p m b ∉ events) ->
    ~ (exists uid, user = Some uid /\ condition <> "" /\ watches <> []
                   /\ confirmed = true) ->
    (condition <> "" -> user <> None -> last events = Some ResetSelect) ->
    (forall path method body,
       ApiCall path method body ∈ events <->
       exists uid, user = Some uid /\ condition <> "" /\ watches <> []
         /\ confirmed = true
         /\ path = "/watches/bulk-condition/" +:+ Number_toString uid
         /\ method = "PATCH" /\ body = [("condition", JStr condition)])
    /\ ((exists uid, user = Some uid /\ condition <> "" /\ watches <> []
                     /\ confirmed = true) -> reply = Resolved ->
        length watches = length watches
        /\ forall i w, watches !! i = Some w ->
             exists w', watches !! i = Some w'
               /\ assoc "condition" w' = Some (JStr condition)
               /\ forall k, k <> "condition" -> assoc k w' = assoc k w)
    /\ (~ (exists uid, user = Some uid /\ condition <> "" /\ watches <> []
                       /\ confirmed = true) \/ reply <> Resolved ->
        watches = watches)
    /\ (condition <> "" -> user <> None -> last events = Some ResetSelect)).
  { intros events Hno Hsent Hlast. split_and!; [|by intros ?%Hsent|done|done].
    intros p m b. split; [by intros ?%Hno|].
    intros (uid & ? & ? & ? & ? & _). destruct Hsent. by exists uid. }
  destruct condition as [|a condition].
  { apply (Hearly []); [intros p m b; apply not_elem_of_nil| |done].
    by intros (? & _ & ? & _). }
  change (truthy (Some (JStr (String a condition)))) with true. cbn [negb].
  destruct user as [uid|].
  2: { apply (Hearly [_]); [| |done].
       - intros p m b. rewrite elem_of_cons, elem_of_nil. by intros [|].
       - by intros (? & ? & _). }
  destruct watches as [|w0 watches].
  { apply (Hearly [_; _]); [| |done].
    - intros p m b. rewrite !elem_of_cons, elem_of_nil. by intros [|[|]].
    - by intros (? & _ & _ & ? & _). }
  change ((length (w0 :: watches) =? 0)%nat) with false. cbv iota.
  destruct confirmed.
  2: { apply (Hearly [_; _]); [| |done].
       - intros p m b. rewrite !elem_of_cons, elem_of_nil. by intros [|[|]].
       - by intros (? & _ & _ & _ & ?). }
  clear Hearly. cbn [negb]. destruct reply as [|message]; cbn [fst snd].
  - split_and!.
    + intros p m b. rewrite !elem_of_cons, elem_of_nil. split.
      * intros [|[[= -> -> ->]|[|[|[|[]]]]]]; try done. by exists uid.
      * intros (? & [= <-] & _ & _ & _ & -> & -> & ->). tauto.
    + intros _ _. split; [by rewrite length_map|].
      intros i w Hw. exists (assign "condition" (JStr (String a condition)) w).
      split; [by rewrite list_lookup_fmap, Hw|].
      split; [apply assoc_assign|]. intros k Hk. by apply assoc_assign_ne.
    + intros [Hn|Hn]; [|done]. destruct Hn. by exists uid.
    + done.
  - split_and!.
    + intros p m b. rewrite !elem_of_cons, elem_of_nil. split.
      * intros [|[[= -> -> ->]|[|[|[]]]]]; try done. by exists uid.
      * intros (? & [= <-] & _ & _ & _ & -> & -> & ->). tauto.
    + done.
    + done.
    + done.
Qed.

End BulkClientFacts.

(** ** The user settings route: what it writes and what it leaves *)

Section UsersRouteFacts.
Import JS Users.

Lemma assoc_set_column_ne k col v (r : list (string * json)) :
  k <> col -> assoc k (set_column col v r) = assoc k r.
Proof.
  intros Hne. induction r as [|[k' old] rest IH]; [done|]. simpl.
  destruct (String.eqb k' col) eqn:Hk; simpl; [|by rewrite IH].
  apply String.eqb_eq in Hk as ->. by apply String.eqb_neq in Hne as ->.
Qed.

Lemma assoc_set_column col v (r : list (string * json)) :
  is_Some (assoc col r) -> assoc col (set_column col v r) = Some v.
Proof.
  induction r as [|[k' old] rest IH]; [by intros [? [=]]|]. simpl.
  destruct (String.eqb col k') eqn:Hk.
  - apply String.eqb_eq in Hk as <-. intros _. rewrite String.eqb_refl. simpl.
    by rewrite String.eqb_refl.
  - intros H. assert (String.eqb k' col = false) as Hk'
      by (rewrite String.eqb_sym; exact Hk).
    rewrite Hk'. simpl. rewrite Hk. by apply IH.
Qed.

Lemma keys_set_column col v (r : list (string * json)) :
  (set_column col v r).*1 = r.*1.
Proof.
  induction r as [|[k' old] rest IH]; [done|]. cbn [set_column].
  destruct (String.eqb k' col); csimpl; [done|by rewrite IH].
Qed.

Lemma assoc_fold_ne k (sets : list (string * json)) r :
  k ∉ sets.*1 ->
  assoc k (fold_left (fun acc '(col, v) => set_column col v acc) sets r) = assoc k r.
Proof.
  revert r. induction sets as [|[c v] sets IH]; intros r Hk; [done|].
  csimpl in *. apply not_elem_of_cons in Hk as [Hc Hk].
  rewrite IH by done. by apply assoc_set_column_ne.
Qed.

Lemma keys_fold (sets : list (string * json)) r :
  (fold_left (fun acc '(col, v) => set_column col v acc) sets r).*1 = r.*1.
Proof.
  revert r. induction sets as [|[c v] sets IH]; intros r; [done|].
  csimpl. by rewrite IH, keys_set_column.
Qed.

Lemma assoc_is_Some_keys k (r : list (string * json)) :
  is_Some (assoc k r) <-> k ∈ r.*1.
Proof.
  induction r as [|[k' v] rest IH]; csimpl.
  - split; [by intros [? [=]]|by intros ?%elem_of_nil].
  - rewrite elem_of_cons. destruct (String.eqb k k') eqn:Hk.
    + apply String.eqb_eq in Hk. split; eauto.
    + apply String.eqb_neq in Hk. rewrite IH. tauto.
Qed.

Lemma assoc_fold (sets : list (string * json)) r col v :
  NoDup sets.*1 -> (col, v) ∈ sets -> is_Some (assoc col r) ->
  assoc col (fold_left (fun acc '(c, x) => set_column c x acc) sets r) = Some v.
Proof.
  revert r. induction sets as [|[c x] sets IH]; intros r Hnd Hin Hr;
    [by apply elem_of_nil in Hin|].
  csimpl in *. apply NoDup_cons in Hnd as [Hc Hnd].
  apply elem_of_cons in Hin as [[= <- <-]|Hin].
  - rewrite assoc_fold_ne by done. by apply assoc_set_column.
  - apply IH; [done|done|].
    apply assoc_is_Some_keys. rewrite keys_set_column.
    by apply assoc_is_Some_keys.
Qed.

(** The assignments are the fields of the body among the four columns. *)
Lemma elem_of_assignments body col v :
  (col, v) ∈ assignments body <-> col ∈ settable /\ assoc col body = Some v.
Proof.
  unfold assignments. rewrite list_elem_of_omap. split.
  - intros (c & Hc & Hm). destruct (assoc c body) eqn:Ha; [|done].
    injection Hm as <- <-. done.
  - intros [Hc Ha]. exists col. by rewrite Ha.
Qed.

Lemma assignments_keys body : NoDup (assignments body).*1 /\
  forall k, k ∈ (assignments body).*1 -> k ∈ settable.
Proof.
  unfold assignments, settable. cbn [omap list_omap].
  destruct (assoc "ship_to_country" body), (assoc "timezone" body),
    (assoc "weekly_digest_enabled" body), (assoc "still_available_reminders" body);
    cbn; split; try (intros k; rewrite ?elem_of_cons, ?elem_of_nil; tauto);
    repeat (apply NoDup_cons; split;
            [rewrite ?not_elem_of_cons; split_and?; (done || apply not_elem_of_nil)|]);
    apply NoDup_nil; done.
Qed.

Lemma update_returning_table sets id now rows :
  (update_returning sets id now rows).1
  = map (fun r => if selected id r then apply_update sets now r else r) rows.
Proof. done. Qed.

Lemma update_returning_none sets id now rows :
  (update_returning sets id now rows).2 = [] ->
  (update_returning sets id now rows).1 = rows.
Proof.
  unfold update_returning. cbn [fst snd]. induction rows as [|r rows IH]; [done|].
  rewrite filter_cons. destruct (decide (selected id r = true)) as [Hs|Hs]; [done|].
  intros H. cbn [map]. rewrite IH by done.
  by destruct (selected id r).
Qed.

Lemma settable_other col :
  col ∈ settable -> col <> "password_hash" /\ col <> "updated_at".
Proof.
  unfold settable. rewrite !elem_of_cons, elem_of_nil.
  by intros [-> | [-> | [-> | [-> | []]]]].
Qed.

(** Every way the route ends. *)
Lemma patch_user_cases now req db :
  (exists msg, patch_user now req db = (db, error 400 msg))
  \/ (exists msg, patch_user now req db = (db, error 500 msg))
  \/ (exists id,
        parseInt (id_param req) = Some id /\ assignments (body req) <> []
        /\ reachable db = true
        /\ let '(rows, returned) :=
             update_returning (assignments (body req)) id now (users db) in
           match returned with
           | [] => patch_user now req db = (db, error 404 "User not found")
           | first :: _ =>
             patch_user now req db
             = ({| users := rows; reachable := true |},
                Response 200 (JObj (safeUser first)))
           end).
Proof.
  unfold patch_user. destruct (parseInt (id_param req)) as [id|] eqn:Hid; [|eauto].
  destruct (assignments (body req)) as [|s sets] eqn:Hsets; [eauto|].
  change ((length (s :: sets) =? 0)%nat) with false. cbv iota.
  unfold query. destruct (reachable db) eqn:Hr; [|eauto].
  right. right. exists id. split; [done|]. split; [done|]. split; [done|].
  pose proof (update_returning_none (s :: sets) id now (users db)) as Hnone.
  destruct (update_returning (s :: sets) id now (users db)) as [rows returned].
  cbn [fst snd] in Hnone. destruct returned as [|first rest]; [|done].
  rewrite Hnone by done. destruct db. simpl in *. by subst.
Qed.


(** X17.  What the route stores is what it was sent: on a 200 the row in
    the answer has, for each of the four settings the body carries, the
    value of the body (the columns being columns of the table), and its
    [updated_at] is the time of the call.  In particular the two
    notification switches come back as they were sent, and the settings
    view that loads the answer shows them so. *)
Theorem patch_user_returns_what_was_sent now req db db' payload :
  patch_user now req db = (db', Response 200 payload) ->
  (forall r col, r ∈ users db -> col ∈ "updated_at" :: settable ->
                 is_Some (assoc col r)) ->
  exists fields,
    payload = JObj fields
    /\ assoc "updated_at" fields = Some (JNum now)
    /\ (forall col v, col ∈ settable -> assoc col (body req) = Some v ->
          assoc col fields = Some v)
    /\ (forall w s,
          assoc "weekly_digest_enabled" (body req) = Some (JBool w) ->
          assoc "still_available_reminders" (body req) = Some (JBool s) ->
          Settings.load fields
          = {| Settings.weekly_digest := w; Settings.still_available := s |}).
Proof.
  intros Hrun Hcols.
  destruct (patch_user_cases now req db)
    as [[msg H]|[[msg H]|(id & Hid & Hne & Hr & H)]];
    [by rewrite H in Hrun..|].
  rewrite (surjective_pairing (update_returning _ _ _ _)) in H.
  destruct (update_returning _ _ _ _).2 as [|first rest] eqn:Hret;
    rewrite H in Hrun; [done|].
  injection Hrun as <- <-.
  assert (Hfirst : exists r, r ∈ users db
            /\ first = apply_update (assignments (body req)) now r).
  { assert (Hin : first ∈ (update_returning (assignments (body req)) id now
                             (users db)).2) by (rewrite Hret; apply elem_of_cons; eauto).
    unfold update_returning in Hin. cbn [snd] in Hin.
    apply list_elem_of_fmap in Hin as (r & -> & Hin).
    apply list_elem_of_filter in Hin as [_ Hin]. eauto. }
  destruct Hfirst as (r & Hr0 & ->).
  assert (Hsafe : forall k, k <> "password_hash" ->
            forall row : list (string * json), assoc k (safeUser row) = assoc k row).
  { intros k Hk row. unfold safeUser. induction row as [|[k' x] row IH]; [done|].
    rewrite filter_cons. simpl. destruct (String.eqb k' "password_hash") eqn:Hp.
    - rewrite decide_False by done. rewrite IH.
      apply String.eqb_eq in Hp as ->. by apply String.eqb_neq in Hk as ->.
    - rewrite decide_True by done. simpl. by rewrite IH. }
  assert (Hstored : forall col v, col ∈ settable -> assoc col (body req) = Some v ->
            assoc col (safeUser (apply_update (assignments (body req)) now r))
            = Some v).
  { intros col v Hc Hb.
    destruct (settable_other col Hc) as [Hp Hu].
    rewrite Hsafe by done.
    unfold apply_update. rewrite assoc_set_column_ne by done.
    apply assoc_fold.
    - apply assignments_keys.
    - by apply elem_of_assignments.
    - apply Hcols; [done|]. by apply elem_of_cons; right. }
  eexists. split; [done|]. split_and!.
  - rewrite Hsafe by done. unfold apply_update. apply assoc_set_column.
    apply assoc_is_Some_keys. rewrite keys_fold. apply assoc_is_Some_keys.
    apply Hcols; [done|]. apply elem_of_cons. by left.
  - exact Hstored.
  - intros w s Hw Hs. apply settings_load_stored; apply Hstored; try done;
      unfold settable; rewrite !elem_of_cons; tauto.
Qed.

Lemma patch_user_returns_what_was_sent_witness :
  exists fields,
    (patch_user 200 sample_request sample_db).2 = Response 200 (JObj fields)
    /\ assoc "still_available_reminders" fields = Some (JBool true).
Proof.
  destruct (patch_user_returns_what_was_sent 200 sample_request sample_db
              (patch_user 200 sample_request sample_db).1
              (JObj (safeUser (apply_update (assignments (body sample_request)) 200
                 (hd [] (users sample_db))))))
    as (fields & Hp & _ & Hs & _).
  - vm_compute. reflexivity.
  - intros r col. unfold sample_db. cbn [users].
    rewrite list_elem_of_singleton. intros ->.
    unfold settable. rewrite !elem_of_cons, elem_of_nil.
    intros [->|[->|[->|[->|[->|[]]]]]]; vm_compute; eauto.
  - exists fields. split.
    + rewrite <- Hp. vm_compute. reflexivity.
    + apply Hs; [|reflexivity]. unfold settable. rewrite !elem_of_cons. tauto.
Defined.

End UsersRouteFacts.

(** ** The user settings route: the row in the answer *)

Section UsersRowFacts.
Import JS Users.

(** The first element a filter keeps: where it stood, and that nothing
    before it passed. *)
Lemma filter_head {A} (P : A -> Prop) `{!forall x, Decision (P x)} (l : list A) x rest :
  filter P l = x :: rest ->
  exists i, l !! i = Some x /\ P x
    /\ forall j y, (j < i)%nat -> l !! j = Some y -> ~ P y.
Proof.
  induction l as [|a l IH]; [done|]. rewrite filter_cons.
  destruct (decide (P a)) as [Ha|Ha].
  - intros [= <- _]. exists 0%nat. split_and!; [done|done|]. intros j y Hj. lia.
  - intros (i & Hi & Hx & Hbefore)%IH. exists (S i). split_and!; [done|done|].
    intros [|j] y Hj; simpl.
    + by intros [= <-].
    + apply Hbefore. lia.
Qed.

(** The destructuring keeps every property but [password_hash]. *)
Lemma assoc_safeUser k (r : list (string * json)) :
  k <> "password_hash" -> assoc k (safeUser r) = assoc k r.
Proof.
  intros Hk. unfold safeUser. induction r as [|[k' x] r IH]; [done|].
  rewrite filter_cons. simpl. destruct (String.eqb k' "password_hash") eqn:Hp.
  - rewrite decide_False by done. rewrite IH.
    apply String.eqb_eq in Hp as ->. by apply String.eqb_neq in Hk as ->.
  - rewrite decide_True by done. simpl. by rewrite IH.
Qed.

Lemma assignments_body k body :
  k ∈ (assignments body).*1 -> k ∈ settable /\ is_Some (assoc k body).
Proof.
  intros ([k' v] & -> & Hin)%list_elem_of_fmap.
  apply elem_of_assignments in Hin as [Hs Hb]. simpl. eauto.
Qed.



End UsersRowFacts.

(** ** Resetting a password on the page *)

Section ResetPasswordFacts.
Import JS JSText ResetPassword.

Lemma classic_valid (token : option string) (password confirmPassword : string) :
  let valid :=
    password = confirmPassword /\ (8 <= length16 password)%nat
    /\ exists t, token = Some t /\ t <> "" in
  valid \/ ~ valid.
Proof.
  cbv zeta. destruct (decide (password = confirmPassword)); [|right; tauto].
  destruct (decide (8 <= length16 password)%nat); [|right; tauto].
  destruct token as [t|]; [|right; by intros (_ & _ & ? & ? & _)].
  destruct (decide (t = "")) as [->|]; [right; by intros (_ & _ & ? & [= <-] & ?)|].
  left. eauto.
Qed.

(** No request in what [on_reply] does, and what it does to the token. *)
Lemma on_reply_events token ok data loaded :
  (forall url body, Post url body ∉ (on_reply token ok data loaded).2)
  /\ ((on_reply token ok data loaded).1 = token
      \/ (on_reply token ok data loaded).1 = None).
Proof.
  unfold on_reply, reset_failed, closeResetModal.
  destruct ok; cbn [negb];
    destruct (property data "error") as [e|];
    destruct (property data "success") as [success|];
    destruct (property data "user") as [user|];
    try destruct (truthy success); try destruct loaded; cbn [fst snd app];
    (split; [intros url body; rewrite ?elem_of_cons, ?elem_of_nil; naive_solver|tauto]).
Qed.

(** X18.  [handleResetPassword] sends a request exactly when the two
    passwords are the same, the password has at least eight UTF-16 code
    units and a reset token is set; the request is the POST of that token
    and that password to [/api/users/reset-password], and there is one
    only.  In every other case it shows a message and touches neither the
    button nor the token. *)
Theorem handleResetPassword_posts_when_valid
    token password confirmPassword originalText r loaded :
  let result :=
    handleResetPassword token password confirmPassword originalText r loaded in
  let valid :=
    password = confirmPassword /\ (8 <= length16 password)%nat
    /\ exists t, token = Some t /\ t <> "" in
  (forall url body,
     Post url body ∈ result.2 <->
     exists t, valid /\ token = Some t /\ url = "/api/users/reset-password"
       /\ body = [("token", JStr t); ("password", JStr password)])
  /\ (~ valid ->
      result.1 = token
      /\ exists msg, result.2 = [PreventDefault; Toast (JStr msg) "error"])
  /\ (valid ->
      exists t done,
        token = Some t
        /\ result.2
           = [PreventDefault; ButtonText "Resetting..."; ButtonDisabled true;
              Post "/api/users/reset-password"
                   [("token", JStr t); ("password", JStr password)]]
             ++ done ++ [ButtonText originalText; ButtonDisabled false]
        /\ forall url body, Post url body ∉ done).
Proof.
  cbv zeta. unfold handleResetPassword.
  assert (Hearly : forall msg,
    ~ (password = confirmPassword /\ (8 <= length16 password)%nat
       /\ exists t, token = Some t /\ t <> "") ->
    let result := (token, [PreventDefault; Toast (JStr msg) "error"]) in
    (forall url body,
       Post url body ∈ result.2 <->
       exists t, (password = confirmPassword /\ (8 <= length16 password)%nat
                  /\ exists t, token = Some t /\ t <> "")
         /\ token = Some t /\ url = "/api/users/reset-password"
         /\ body = [("token", JStr t); ("password", JStr password)])
    /\ (~ (password = confirmPassword /\ (8 <= length16 password)%nat
           /\ exists t, token = Some t /\ t <> "") ->
        result.1 = token
        /\ exists msg, result.2 = [PreventDefault; Toast (JStr msg) "error"])
    /\ ((password = confirmPassword /\ (8 <= length16 password)%nat
         /\ exists t, token = Some t /\ t <> "") ->
        exists t done,
          token = Some t
          /\ result.2
             = [PreventDefault; ButtonText "Resetting..."; ButtonDisabled true;
                Post "/api/users/reset-password"
                     [("token", JStr t); ("password", JStr password)]]
               ++ done ++ [ButtonText originalText; ButtonDisabled false]
          /\ forall url body, Post url body ∉ done)).
  { intros msg Hn. cbv zeta. cbn [fst snd]. split_and!.
    - intros url body. rewrite !elem_of_cons, elem_of_nil.
      split; [by intros [|[|]]|]. by intros (t & ? & _).
    - eauto.
    - done. }
  destruct (String.eqb password confirmPassword) eqn:Heq; cbn [negb].
  2: { apply Hearly. apply String.eqb_neq in Heq. tauto. }
  apply String.eqb_eq in Heq.
  destruct (length16 password <? 8)%nat eqn:Hlen.
  { apply Hearly. apply Nat.ltb_lt in Hlen. lia. }
  apply Nat.ltb_ge in Hlen.
  destruct token as [[|a t]|].
  1, 3: apply Hearly; intros (_ & _ & t' & ? & ?); congruence.
  clear Hearly.
  assert (Hvalid : password = confirmPassword /\ (8 <= length16 password)%nat
                   /\ exists t0, Some (String a t) = Some t0 /\ t0 <> "")
    by (split_and!; [done|done|by eexists]).
  set (rest := match r with
               | Rejected => (Some (String a t), reset_failed)
               | Replied ok data => on_reply (Some (String a t)) ok data loaded
               end).
  assert (Hrest : forall url body, Post url body ∉ rest.2).
  { subst rest. destruct r as [|ok data]; [|apply on_reply_events].
    intros url body. cbn [snd]. unfold reset_failed.
    rewrite !elem_of_cons, elem_of_nil. naive_solver. }
  destruct rest as [token' done]. cbn [fst snd] in *. split_and!.
  - intros url body. rewrite !elem_of_app, !elem_of_cons, !elem_of_nil. split.
    + intros [[|[|[|[[= -> ->]|[]]]]]|[Hd|[|[|[]]]]]; try done.
      * by exists (String a t).
      * by apply Hrest in Hd.
    + intros (t0 & _ & [= <-] & -> & ->). tauto.
  - done.
  - intros _. exists (String a t), done. by split_and!.
Qed.

(** X19.  The page logs the user in ([state.user] is set and stored) only
    with an answer that is [ok] and whose body says [success]; on that path
    alone the token is forgotten and the reset parameter taken out of the
    URL.  With any other answer, and when the request fails, the user is
    not set, the token is kept, and an error message is shown. *)
Theorem handleResetPassword_logs_in_on_success
    (t password originalText : string) r loaded :
  t <> "" -> (8 <= length16 password)%nat ->
  let result :=
    handleResetPassword (Some t) password password originalText r loaded in
  let acknowledged :=
    exists data success,
      r = Replied true data /\ property data "success" = Some success
      /\ truthy success = true in
  ((exists user, SetUser user ∈ result.2) <-> acknowledged)
  /\ (acknowledged ->
      result.1 = None /\ ClearResetParam ∈ result.2
      /\ exists data, r = Replied true data
           /\ forall user, SetUser user ∈ result.2 ->
                Some user = property data "user")
  /\ (~ acknowledged ->
      result.1 = Some t
      /\ exists msg, Toast msg "error" ∈ result.2)
  /\ (Toast (JStr "Password reset successful! Welcome back.") "success" ∈ result.2
      <-> acknowledged /\ loaded = true).
Proof.
  intros Ht Hlen. cbv zeta. unfold handleResetPassword.
  rewrite String.eqb_refl. cbn [negb].
  apply Nat.ltb_ge in Hlen. rewrite Hlen.
  destruct t as [|a t]; [done|].
  assert (Hframe : forall (token' : option string) (done : list ui),
    let events :=
      [PreventDefault; ButtonText "Resetting..."; ButtonDisabled true;
       Post "/api/users/reset-password"
            [("token", JStr (String a t)); ("password", JStr password)]]
      ++ done ++ [ButtonText originalText; ButtonDisabled false] in
    (forall user, SetUser user ∈ events <-> SetUser user ∈ done)
    /\ (forall msg kind, Toast msg kind ∈ events <-> Toast msg kind ∈ done)
    /\ (ClearResetParam ∈ events <-> ClearResetParam ∈ done)).
  { intros token' done. cbv zeta.
    split_and!; intros; rewrite !elem_of_app, !elem_of_cons, !elem_of_nil;
      naive_solver. }
  destruct r as [|ok data].
  { cbn [fst snd]. destruct (Hframe None reset_failed) as (Hu & Htoast & Hc).
    split_and!.
    - split; [|by intros (? & ? & ? & _)]. intros [user Hin%Hu].
      unfold reset_failed in Hin. rewrite !elem_of_cons, elem_of_nil in Hin.
      naive_solver.
    - by intros (? & ? & ? & _).
    - intros _. split; [done|]. exists (JStr "Failed to reset password").
      apply Htoast. unfold reset_failed. rewrite !elem_of_cons. eauto.
    - rewrite Htoast. unfold reset_failed. rewrite !elem_of_cons, elem_of_nil.
      split; [naive_solver|]. by intros [(? & ? & ? & _) _]. }
  destruct (on_reply (Some (String a t)) ok data loaded) as [token' done] eqn:Hon.
  cbn [fst snd]. destruct (Hframe token' done) as (Hu & Htoast & Hc).
  assert (Hcases :
    (ok = true /\ exists success user,
       property data "success" = Some success /\ truthy success = true
       /\ property data "user" = Some user
       /\ token' = None
       /\ done = [SetUser user; SaveToStorage "user" user;
                  CloseModal "reset-password"; ClearResetParam; ClearResetForm;
                  UpdateUI; ShowDashboard; LoadWatches]
                 ++ (if loaded
                     then [Toast (JStr "Password reset successful! Welcome back.")
                                 "success"]
                     else reset_failed))
    \/ (~ (ok = true /\ exists success, property data "success" = Some success
                                        /\ truthy success = true)
        /\ token' = Some (String a t)
        /\ ((exists msg, done = [Toast msg "error"]) \/ done = reset_failed))).
  { unfold on_reply in Hon. destruct ok; cbn [negb] in Hon.
    - destruct (property data "success") as [success|] eqn:Hs.
      + destruct (property data "user") as [user|] eqn:Hus.
        * destruct (truthy success) eqn:Htr.
          -- left. injection Hon as <- <-. split; [done|]. by exists success, user.
          -- right. split; [intros (_ & s & [= <-] & ?); congruence|].
             destruct (property data "error"); injection Hon as <- <-;
               split; eauto.
        * right. injection Hon as <- <-.
          destruct data; cbn in Hs, Hus; try done.
      + right. split; [by intros (_ & s & ? & _)|].
        destruct (property data "user"); injection Hon as <- <-; split; eauto.
    - right. split; [by intros [? _]|].
      destruct (property data "error"); injection Hon as <- <-; split; eauto. }
  destruct Hcases as [(-> & success & user & Hs & Htr & Hus & -> & ->)
                     |(Hn & -> & Hd)].
  - assert (Hack : exists data0 success0,
              Replied true data = Replied true data0
              /\ property data0 "success" = Some success0
              /\ truthy success0 = true) by (by exists data, success).
    split_and!.
    + split; [done|]. intros _. exists user. apply Hu.
      rewrite elem_of_app, !elem_of_cons. eauto.
    + intros _. split; [done|]. split.
      * apply Hc. rewrite elem_of_app, !elem_of_cons. eauto 10.
      * exists data. split; [done|]. intros u Hin%Hu. rewrite Hus. f_equal.
        rewrite elem_of_app, !elem_of_cons, elem_of_nil in Hin.
        destruct Hin as [Hin|Hin]; [naive_solver|].
        destruct loaded; unfold reset_failed in Hin;
          rewrite !elem_of_cons, elem_of_nil in Hin; naive_solver.
    + done.
    + rewrite Htoast, elem_of_app, !elem_of_cons, elem_of_nil. split.
      * intros [Hin|Hin]; [naive_solver|]. split; [done|].
        destruct loaded; [done|]. unfold reset_failed in Hin.
        rewrite !elem_of_cons, elem_of_nil in Hin. naive_solver.
      * intros [_ ->]. right. rewrite elem_of_cons. by left.
  - assert (Hnack : ~ exists data0 success0,
              Replied ok data = Replied true data0
              /\ property data0 "success" = Some success0
              /\ truthy success0 = true).
    { intros (d0 & s0 & [= -> <-] & Hs & Htr). apply Hn. eauto. }
    assert (Hin : forall e, e ∈ done ->
              (exists msg, e = Toast msg "error") \/ e ∈ reset_failed).
    { intros e He. destruct Hd as [[msg ->]| ->]; [|by right].
      apply list_elem_of_singleton in He. left. by exists msg. }
    split_and!.
    + split; [|done]. intros [u Hu'%Hu]. apply Hin in Hu' as [[? ?]|Hu']; [done|].
      unfold reset_failed in Hu'. rewrite !elem_of_cons, elem_of_nil in Hu'.
      naive_solver.
    + done.
    + intros _. split; [done|]. destruct Hd as [[msg ->] | ->].
      * exists msg. apply Htoast. by apply list_elem_of_singleton.
      * exists (JStr "Failed to reset password"). apply Htoast.
        unfold reset_failed. rewrite !elem_of_cons. eauto.
    + split; [|by intros [? _]]. intros Hs%Htoast.
      apply Hin in Hs as [[? ?]|Hs]; [done|].
      unfold reset_failed in Hs. rewrite !elem_of_cons, elem_of_nil in Hs.
      naive_solver.
Qed.

Lemma handleResetPassword_logs_in_on_success_witness :
  (handleResetPassword (Some "abc123") "correct horse" "correct horse"
     "Reset Password"
     (Replied true (JObj [("success", JBool true); ("user", JObj [])])) true).1
  = None.
Proof.
  refine (proj1 (proj1 (proj2 (handleResetPassword_logs_in_on_success
            "abc123" "correct horse" "Reset Password"
            (Replied true (JObj [("success", JBool true); ("user", JObj [])]))
            true _ _)) _)).
  - discriminate.
  - vm_compute. lia.
  - exists (JObj [("success", JBool true); ("user", JObj [])]), (Some (JBool true)).
    split_and!; reflexivity.
Defined.

Lemma checkForResetToken_events token resetToken r :
  (forall url body, Post url body ∉ (checkForResetToken token resetToken r).2)
  /\ ((checkForResetToken token resetToken r).1 = token
      \/ exists t, resetToken = Some t /\ t <> ""
           /\ (checkForResetToken token resetToken r).1 = Some t
           /\ t ∈ validated [Check resetToken r]).
Proof.
  unfold checkForResetToken.
  destruct resetToken as [[|a t]|]; try (split; [intros ??; apply not_elem_of_nil|by left]).
  destruct r as [|ok data].
  { cbn [fst snd]. split; [|by left]. intros url body.
    rewrite !elem_of_cons, elem_of_nil. naive_solver. }
  cbn [validated].
  destruct (property data "valid") as [valid|] eqn:Hv.
  2: { cbn [fst snd]. split; [|by left]. intros url body.
       rewrite !elem_of_cons, elem_of_nil. naive_solver. }
  destruct (truthy valid) eqn:Htr.
  - destruct (property data "email") as [email|]; cbn [fst snd].
    + split; [intros url body; rewrite !elem_of_cons, elem_of_nil; naive_solver|].
      right. exists (String a t). split_and!; try done. apply elem_of_cons. by left.
    + split; [|by left]. intros url body.
      rewrite !elem_of_cons, elem_of_nil. naive_solver.
  - cbn [fst snd]. split; [|by left]. intros url body.
    rewrite !elem_of_cons, elem_of_nil. naive_solver.
Qed.

Lemma validated_cons c calls t :
  t ∈ validated [c] \/ t ∈ validated calls -> t ∈ validated (c :: calls).
Proof.
  destruct c as [[u|] [|ok data]| |]; cbn [validated];
    try (intros [?%elem_of_nil|?]; done).
  destruct (property data "valid") as [valid|];
    [|intros [?%elem_of_nil|?]; done].
  destruct (truthy valid); [|intros [?%elem_of_nil|?]; done].
  rewrite !elem_of_cons. intros [[|?%elem_of_nil]|]; tauto.
Qed.

(** The tokens that are posted are the token at the start or validated
    ones. *)
Lemma run_posts calls : forall token url body,
  Post url body ∈ (run token calls).2 ->
  exists t password,
    url = "/api/users/reset-password"
    /\ body = [("token", JStr t); ("password", JStr password)]
    /\ (token = Some t \/ t ∈ validated calls).
Proof.
  induction calls as [|c calls IH]; intros token url body.
  { cbn. by intros ?%elem_of_nil. }
  cbn [run].
  destruct (step token c) as [token' done] eqn:Hstep.
  destruct (run token' calls) as [token'' more] eqn:Hrun. cbn [snd].
  rewrite elem_of_app. intros [Hin|Hin].
  - destruct c as [resetToken r|password confirmPassword originalText r loaded|];
      cbn [step] in Hstep.
    + pose proof (checkForResetToken_events token resetToken r) as [Hno _].
      rewrite Hstep in Hno. by apply Hno in Hin.
    + pose proof (handleResetPassword_posts_when_valid token password
                    confirmPassword originalText r loaded) as (Hpost & _).
      cbv zeta in Hpost. rewrite Hstep in Hpost. cbn [snd] in Hpost.
      apply Hpost in Hin as (t & _ & -> & -> & ->). eauto 10.
    + injection Hstep as <- <-. unfold closeResetModal in Hin.
      rewrite !elem_of_cons, elem_of_nil in Hin. naive_solver.
  - specialize (IH token' url body). rewrite Hrun in IH.
    destruct (IH Hin) as (t & password & -> & -> & [Ht|Ht]).
    2: { exists t, password. split_and!; try done. right.
         apply validated_cons. by right. }
    exists t, password. split_and!; try done.
    destruct c as [resetToken r|pw confirmPassword originalText r loaded|];
      cbn [step] in Hstep.
    + pose proof (checkForResetToken_events token resetToken r) as [_ Htok].
      rewrite Hstep in Htok. cbn [fst] in Htok.
      destruct Htok as [->|(t' & _ & _ & Heq & Hval)]; [by left|].
      right. apply validated_cons. left. congruence.
    + pose proof (handleResetPassword_posts_when_valid token pw
                    confirmPassword originalText r loaded) as (_ & Hinv & Hv).
      cbv zeta in Hinv, Hv. rewrite Hstep in Hinv, Hv. cbn [fst snd] in *.
      destruct (classic_valid token pw confirmPassword) as [Hy|Hn].
      * left. revert Hstep. unfold handleResetPassword.
        destruct Hy as (-> & Hl & t0 & -> & Ht0).
        rewrite String.eqb_refl. cbn [negb].
        apply Nat.ltb_ge in Hl. rewrite Hl. destruct t0 as [|a t0]; [done|].
        destruct r as [|ok data]; [by intros [= <- _]|].
        destruct (on_reply_events (Some (String a t0)) ok data loaded) as [_ Hor].
        destruct (on_reply _ ok data loaded) as [tk dn]. cbn [fst] in Hor.
        intros [= <- _]. destruct Hor as [->| ->]; [done|done].
      * destruct (Hinv Hn) as [-> _]. by left.
    + injection Hstep as <- <-. done.
Qed.

(** X20.  Whatever happens on the page, in whatever order, a password reset
    is only ever posted with a token that the server has called valid
    before: [currentResetToken] starts as [null], only
    [checkForResetToken] sets it, and it does so only after an answer whose
    [valid] is set. *)
Theorem posted_tokens_were_validated (calls : list call) url body :
  Post url body ∈ (run None calls).2 ->
  exists t password,
    url = "/api/users/reset-password"
    /\ body = [("token", JStr t); ("password", JStr password)]
    /\ t ∈ validated calls.
Proof.
  intros Hin. destruct (run_posts calls None url body Hin)
    as (t & password & -> & -> & [|Ht]); [done|]. eauto.
Qed.

Lemma posted_tokens_were_validated_witness :
  let calls :=
    [Check (Some "abc123") (Replied true (JObj [("valid", JBool true);
                                                ("email", JStr "kim@example.com")]));
     Reset "correct horse" "correct horse" "Reset Password"
           (Replied true (JObj [("success", JBool true); ("user", JObj [])])) true] in
  exists t password,
    "/api/users/reset-password" = "/api/users/reset-password"
    /\ [("token", JStr "abc123"); ("password", JStr "correct horse")]
       = [("token", JStr t); ("password", JStr password)]
    /\ t ∈ validated calls.
Proof.
  cbv zeta.
  apply (posted_tokens_were_validated _ "/api/users/reset-password"
           [("token", JStr "abc123"); ("password", JStr "correct horse")]).
  set (events := (run None _).2). vm_compute in events. subst events.
  rewrite !elem_of_cons. tauto.
Defined.

End ResetPasswordFacts.

(** ** Across the scripts: what a run writes and what a second run does to
    the backups *)

Section RunFacts.
Import Py Sys.

Lemma not_in_singleton (p q : string) : q <> p -> p ∉ [q].
Proof.
  intros H. rewrite not_elem_of_cons. split; [done|apply not_elem_of_nil].
Qed.

(** Steps built from reads, writes and copies leave a path that is none of
    those they write. *)
Ltac leaves_path :=
  repeat first
    [ apply leaves_ret | apply leaves_raise | apply leaves_read
    | apply leaves_exists | apply leaves_dir_exists
    | apply leaves_write; apply not_in_singleton; congruence
    | apply leaves_copy; apply not_in_singleton; congruence
    | apply leaves_bind; [|intros ?]
    | match goal with
      | |- leaves _ (match ?x with _ => _ end) => destruct x
      end ].

Lemma leaves_one {A} (m : io A) (q : string) (fs : files) :
  leaves [q] m -> (m fs).1 !! q = fs !! q.
Proof. intros H. apply H. rewrite elem_of_cons. by left. Qed.

(** X21.  Each script writes nowhere but in the files it names: the page
    or source file it patches and the backup beside it.  Every other path
    holds after a run what it held before, however the run ends. *)
Theorem scripts_touch_only_their_files (fs : files) (q : string) :
  (q ∉ [V30.set_html; V30.minifig_html; V30.set_html_bak; V30.minifig_html_bak] ->
   (V30.main fs).1 !! q = fs !! q)
  /\ (q <> Fix.INDEX_PATH -> (Fix.main fs).1 !! q = fs !! q)
  /\ (q ∉ [PasswordReset.INDEX_PATH; PasswordReset.BACKUP_PATH] ->
      (PasswordReset.main fs).1 !! q = fs !! q)
  /\ (q ∉ [NotifPrefs.index_html; NotifPrefs.index_bak;
           NotifPrefs.users_ts; NotifPrefs.users_bak] ->
      forall html_patches users_ts_patches,
        (NotifPrefs.script html_patches users_ts_patches fs).1 !! q = fs !! q)
  /\ (forall replace_head stamp,
        q ∉ [Seo.INDEX_FILE; Seo.backup_name stamp] ->
        (Seo.main replace_head stamp fs).1 !! q = fs !! q)
  /\ (forall FILE patches stamp,
        q ∉ [FILE; V24.backup_name FILE stamp] ->
        (V24.main FILE patches stamp fs).1 !! q = fs !! q).
Proof.
  split_and!.
  - rewrite !not_elem_of_cons. intros (? & ? & ? & ? & _). apply leaves_one.
    unfold V30.main, V30.patch_set_html, V30.patch_minifig_html, V30.verify_patches.
    leaves_path.
  - intros ?. apply leaves_one. unfold Fix.main. leaves_path.
  - rewrite !not_elem_of_cons. intros (? & ? & _). apply leaves_one.
    unfold PasswordReset.main. leaves_path.
  - rewrite !not_elem_of_cons. intros (? & ? & ? & ? & _) h u. apply leaves_one.
    unfold NotifPrefs.script. leaves_path.
  - intros replace_head stamp. rewrite !not_elem_of_cons. intros (? & ? & _).
    apply leaves_one. unfold Seo.main. leaves_path.
  - intros FILE patches stamp. rewrite !not_elem_of_cons. intros (? & ? & _).
    apply leaves_one. unfold V24.main. leaves_path.
Qed.

Lemma append_inj_r a b c : a +:+ b = a +:+ c -> b = c.
Proof.
  induction a as [|x a IH]; [done|]. rewrite !append_cons. intros [= H]. auto.
Qed.

Lemma run_v24_main FILE patches stamp (fs : files) page :
  fs !! FILE = Some page ->
  V24.main FILE patches stamp fs
  = (<[FILE := patches page]> (<[V24.backup_name FILE stamp := page]> fs), inr 0).
Proof.
  intros Hp. unfold V24.main.
  rewrite run_bind, run_exists, bool_decide_true by eauto. cbn [negb].
  rewrite run_bind, (run_copy _ _ _ page Hp).
  rewrite run_bind, (run_read _ _ page).
  - by rewrite run_bind, run_write.
  - rewrite lookup_insert_ne; [done|]. unfold V24.backup_name.
    intros H. symmetry in H. revert H. by apply append_neq.
Qed.

Lemma run_password_reset_main (fs : files) page :
  fs !! PasswordReset.INDEX_PATH = Some page ->
  PasswordReset.main fs
  = (<[PasswordReset.INDEX_PATH := PasswordReset.patches page]>
       (<[PasswordReset.BACKUP_PATH := page]> fs), inr 0).
Proof.
  intros Hp. unfold PasswordReset.main.
  rewrite run_bind, run_exists, bool_decide_true by eauto. cbn [negb].
  rewrite run_bind, (run_copy _ _ _ page Hp).
  rewrite run_bind, (run_read _ _ page)
    by (by rewrite lookup_insert_ne by paths_differ).
  by rewrite run_bind, run_write.
Qed.

(** X22.  A backup under a time stamp outlives a second run: where
    patch-index-html.py, patch-app-js.py or apply-seo.py is run again at
    another time, the first backup still holds the file from before the
    first run, and the second backup holds what the first run wrote. *)
Theorem stamped_backups_survive_a_second_run
    (stamp stamp' : string) (fs : files) (page : string) :
  stamp <> stamp' ->
  (forall FILE patches, fs !! FILE = Some page ->
     let once := (V24.main FILE patches stamp fs).1 in
     let twice := (V24.main FILE patches stamp' once).1 in
     twice !! V24.backup_name FILE stamp = Some page
     /\ twice !! V24.backup_name FILE stamp' = Some (patches page))
  /\ (forall replace_head new, fs !! Seo.INDEX_FILE = Some page ->
        replace_head page = Some new ->
        let once := (Seo.main replace_head stamp fs).1 in
        let twice := (Seo.main replace_head stamp' once).1 in
        twice !! Seo.backup_name stamp = Some page
        /\ twice !! Seo.backup_name stamp' = Some new).
Proof.
  intros Hne. split.
  - intros FILE patches Hp. cbv zeta.
    assert (Hb : forall st, FILE <> V24.backup_name FILE st)
      by (intros st; unfold V24.backup_name; by apply append_neq).
    assert (Hbb : V24.backup_name FILE stamp <> V24.backup_name FILE stamp').
    { unfold V24.backup_name. intros H. by apply append_inj_r, append_inj_r in H. }
    rewrite (run_v24_main _ _ _ _ page Hp). cbn [fst].
    rewrite (run_v24_main _ _ _ _ (patches page)) by apply lookup_insert_eq.
    cbn [fst]. split.
    + rewrite lookup_insert_ne by (by apply not_eq_sym).
      rewrite lookup_insert_ne by (by apply not_eq_sym).
      rewrite lookup_insert_ne by (by apply not_eq_sym).
      apply lookup_insert_eq.
    + rewrite lookup_insert_ne by (by apply not_eq_sym). apply lookup_insert_eq.
  - intros replace_head new Hp Hn. cbv zeta.
    assert (Hb : forall st, Seo.INDEX_FILE <> Seo.backup_name st)
      by (intros st; unfold Seo.backup_name; by apply append_neq).
    assert (Hbb : Seo.backup_name stamp <> Seo.backup_name stamp').
    { unfold Seo.backup_name. intros H. by apply append_inj_r, append_inj_r in H. }
    assert (Hrun : forall (gs : files) st c,
              gs !! Seo.INDEX_FILE = Some c ->
              (Seo.main replace_head st gs).1 !! Seo.backup_name st = Some c
              /\ forall q, q <> Seo.INDEX_FILE -> q <> Seo.backup_name st ->
                   (Seo.main replace_head st gs).1 !! q = gs !! q).
    { intros gs st c Hc. unfold Seo.main.
      rewrite run_bind, (run_read _ _ c Hc), run_bind, (run_copy _ _ _ c Hc).
      destruct (replace_head c) as [n|].
      - rewrite run_bind, run_write, run_ret. cbn [fst]. split.
        + rewrite lookup_insert_ne by apply Hb. apply lookup_insert_eq.
        + intros q H1 H2. by rewrite !lookup_insert_ne by (by apply not_eq_sym).
      - rewrite run_ret. cbn [fst]. split; [apply lookup_insert_eq|].
        intros q H1 H2. by rewrite lookup_insert_ne by (by apply not_eq_sym). }
    assert (Honce : (Seo.main replace_head stamp fs).1 !! Seo.INDEX_FILE = Some new).
    { unfold Seo.main.
      rewrite run_bind, (run_read _ _ page Hp), run_bind, (run_copy _ _ _ page Hp), Hn.
      rewrite run_bind, run_write, run_ret. apply lookup_insert_eq. }
    destruct (Hrun _ stamp' new Honce) as [H2 Hother].
    split; [|done]. rewrite Hother; [|by apply not_eq_sym|done].
    by apply Hrun.
Qed.

Lemma stamped_backups_survive_a_second_run_witness :
  let fs : files := {[ "index.html" := "<style></style>" ]} in
  let once := (V24.main "index.html" id "20260101120000" fs).1 in
  let twice := (V24.main "index.html" id "20260102120000" once).1 in
  twice !! V24.backup_name "index.html" "20260101120000" = Some "<style></style>".
Proof.
  cbv zeta.
  refine (proj1 (proj1 (stamped_backups_survive_a_second_run
    "20260101120000" "20260102120000" _ "<style></style>" _) "index.html" id _)).
  - discriminate.
  - apply lookup_singleton_eq.
Defined.

(** X23.  A backup under a fixed name does not: patch_password_reset.py
    copies index.html over [index.html.backup] at the start of every run,
    and patch-notification-prefs.py writes its two [.bak.notifprefs] files
    likewise.  After a second run the backup holds what the first run
    wrote, and the file from before the first run is on disk only where
    the first run changed nothing. *)
Theorem fixed_backups_are_overwritten (fs : files) :
  (forall page, fs !! PasswordReset.INDEX_PATH = Some page ->
     let once := (PasswordReset.main fs).1 in
     let twice := (PasswordReset.main once).1 in
     once !! PasswordReset.BACKUP_PATH = Some page
     /\ once !! PasswordReset.INDEX_PATH = Some (PasswordReset.patches page)
     /\ twice !! PasswordReset.BACKUP_PATH = Some (PasswordReset.patches page)
     /\ twice !! PasswordReset.INDEX_PATH
        = Some (PasswordReset.patches (PasswordReset.patches page)))
  /\ (forall html users,
        fs !! NotifPrefs.index_html = Some html ->
        fs !! NotifPrefs.users_ts = Some users ->
        let once := (NotifPrefsText.script fs).1 in
        let twice := (NotifPrefsText.script once).1 in
        once !! NotifPrefs.index_bak = Some html
        /\ once !! NotifPrefs.users_bak = Some users
        /\ twice !! NotifPrefs.index_bak = Some (NotifPrefsText.html_text html)
        /\ twice !! NotifPrefs.users_bak = Some (NotifPrefsText.users_ts_text users)).
Proof.
  split.
  - intros page Hp. cbv zeta. rewrite (run_password_reset_main fs page Hp). cbn [fst].
    rewrite (run_password_reset_main _ (PasswordReset.patches page))
      by apply lookup_insert_eq.
    cbn [fst]. split_and!.
    + rewrite lookup_insert_ne by paths_differ. apply lookup_insert_eq.
    + apply lookup_insert_eq.
    + rewrite lookup_insert_ne by paths_differ. apply lookup_insert_eq.
    + apply lookup_insert_eq.
  - intros html users Hh Hu. cbv zeta. rewrite (run_script fs html users Hh Hu).
    cbn [fst].
    erewrite run_script;
      [|by rewrite !lookup_insert_ne by paths_differ; apply lookup_insert_eq
       |apply lookup_insert_eq].
    cbn [fst]. split_and!.
    + rewrite !lookup_insert_ne by paths_differ. apply lookup_insert_eq.
    + rewrite !lookup_insert_ne by paths_differ. apply lookup_insert_eq.
    + rewrite !lookup_insert_ne by paths_differ. apply lookup_insert_eq.
    + rewrite !lookup_insert_ne by paths_differ. apply lookup_insert_eq.
Qed.

End RunFacts.

(** ** public/patch-index-html.py: where the style rules land *)

Section IndexHtmlFacts.
Import Py Sys IndexHtmlText.

Lemma rfind_none sub s : rfind sub s = None <-> contains sub s = false.
Proof.
  induction s as [|c r IH].
  - change (contains sub "") with (String.prefix sub "" || false).
    rewrite orb_false_r. by destruct sub.
  - rewrite contains_cons. cbn [rfind]. destruct (rfind sub r) as [i|].
    + split; [done|]. intros [_ H]%orb_false_iff. apply IH in H. discriminate H.
    + destruct IH as [IH _]. rewrite IH by done. rewrite orb_false_r.
      by destruct (String.prefix sub (String c r)).
Qed.

Lemma rfind_append sub a s i :
  rfind sub s = Some i -> rfind sub (a +:+ s) = Some (String.length a + i)%nat.
Proof.
  intros H. induction a as [|c a IH]; [done|].
  rewrite append_cons. cbn [rfind]. by rewrite IH.
Qed.

(** What [rfind] finds is an occurrence, and none starts after it. *)
Lemma rfind_last sub s i :
  rfind sub s = Some i ->
  exists rest, s = take i s +:+ sub +:+ rest
    /\ (sub <> "" -> contains sub (drop 1 (sub +:+ rest)) = false).
Proof.
  revert i. induction s as [|c r IH]; intros i.
  - simpl. destruct sub; [|done]. intros [= <-]. by exists "".
  - cbn [rfind]. destruct (rfind sub r) as [j|] eqn:Hr.
    + intros [= <-]. destruct (IH j eq_refl) as (rest & Hs & Hrest).
      exists rest. split; [|done]. cbn [take]. rewrite append_cons. by f_equal.
    + destruct (String.prefix sub (String c r)) eqn:Hp; [|done]. intros [= <-].
      apply prefix_iff in Hp as [rest Hs]. exists rest. split; [done|].
      intros Hne. rewrite <- Hs. cbn [drop]. by apply rfind_none.
Qed.

Lemma take_append a b : take (String.length a) (a +:+ b) = a.
Proof. induction a as [|c a IH]; [by destruct b|]. rewrite append_cons. simpl. by f_equal. Qed.

Lemma style_tail rest :
  contains "</style>" (drop 1 ("</style>" +:+ rest)) = contains "</style>" rest.
Proof.
  destruct (contains "</style>" rest) eqn:Hr.
  - by apply (contains_append_r "</style>" "/style>" rest).
  - destruct (contains "</style>" (drop 1 ("</style>" +:+ rest))) eqn:Hd; [|done].
    apply (contains_put "</style>" "/style>" rest) in Hd; [congruence|by vm_compute].
Qed.

(** Patch 2 on a page with a style sheet: the rules go in front of the
    last [</style>]. *)
Lemma style_text_last content :
  contains "</style>" content = true ->
  exists before after,
    content = before +:+ "</style>" +:+ after
    /\ contains "</style>" after = false
    /\ style_text content = before +:+ css_additions +:+ "</style>" +:+ after.
Proof.
  intros Hc. unfold style_text. rewrite Hc.
  destruct (rfind "</style>" content) as [i|] eqn:Hr;
    [|apply rfind_none in Hr; congruence].
  destruct (rfind_last _ _ _ Hr) as (rest & Hs & Hrest).
  exists (take i content), rest.
  split_and!; [done|etrans; [symmetry; apply style_tail|by apply Hrest]|].
  do 2 f_equal.
  rewrite <- (take_drop i content) in Hs at 1. by apply append_inj_r in Hs.
Qed.

Lemma style_text_at before after :
  contains "</style>" after = false ->
  style_text (before +:+ "</style>" +:+ after)
  = before +:+ css_additions +:+ "</style>" +:+ after.
Proof.
  intros Ha. unfold style_text.
  rewrite (contains_middle "</style>" before "</style>" after) by done.
  assert (rfind "</style>" ("</style>" +:+ after) = Some 0%nat) as H0.
  { change ("</style>" +:+ after) with (String "<" ("/style>" +:+ after)).
    cbn [rfind].
    assert (rfind "</style>" ("/style>" +:+ after) = None) as ->.
    2:{ assert (String.prefix "</style>" (String "<" ("/style>" +:+ after)) = true)
          as ->; [|done].
        apply prefix_iff. by exists after. }
    apply rfind_none. etrans; [apply (style_tail after)|done]. }
  rewrite (rfind_append _ before _ _ H0), Nat.add_0_r.
  by rewrite take_append, drop_append.
Qed.

Lemma form_text_clean content : contains old_form_start (form_text content) = false.
Proof. apply (replace_if_found_removes old_form_start new_form_start); by vm_compute. Qed.

Lemma style_text_inserted content : inserted css_additions content (style_text content).
Proof.
  unfold style_text. destruct (contains "</style>" content); [|apply inserted_refl].
  set (i := match rfind _ _ with Some i => i | None => _ end).
  rewrite <- (take_drop i content) at 1.
  apply inserted_app, inserted_put, inserted_refl.
Qed.

Lemma patches_clean content : contains old_form_start (patches content) = false.
Proof.
  destruct (contains old_form_start (patches content)) eqn:H; [|done].
  apply (contains_inserted _ css_additions (form_text content)) in H.
  - by rewrite form_text_clean in H.
  - by vm_compute.
  - apply style_text_inserted.
Qed.

Lemma form_text_style content :
  contains "</style>" (form_text content) = contains "</style>" content.
Proof.
  destruct (contains "</style>" content) eqn:Hc.
  - apply (replace_if_found_keeps_present _ old_form_start new_form_start);
      [done|by vm_compute|done].
  - apply (replace_if_found_keeps_absent _ old_form_start new_form_start);
      [done|by vm_compute|done].
Qed.

(** X24.  patch-index-html.py puts its style rules in front of the last
    [</style>] of the page as patch 1 left it, and changes nothing else of
    that page; a page without a [</style>] gets patch 1 only. *)
Theorem index_html_css_before_last_style (page : string) :
  (contains "</style>" page = false -> patches page = form_text page)
  /\ (contains "</style>" page = true ->
      exists before after,
        form_text page = before +:+ "</style>" +:+ after
        /\ contains "</style>" after = false
        /\ patches page = before +:+ css_additions +:+ "</style>" +:+ after).
Proof.
  split; intros Hc.
  - unfold patches, style_text. by rewrite form_text_style, Hc.
  - apply style_text_last. by rewrite form_text_style.
Qed.

(** X25.  The script has no test for its own traces in the style sheet:
    run a second time on a page with a [</style>], it writes the style
    rules once more, in front of the same [</style>], while the form keeps
    its one toggle. *)
Theorem index_html_second_run_repeats_css
    (stamp stamp' : string) (fs : files) (page : string) :
  fs !! FILE = Some page ->
  contains "</style>" page = true ->
  let once := (main stamp fs).1 in
  let twice := (main stamp' once).1 in
  exists before after,
    form_text page = before +:+ "</style>" +:+ after
    /\ once !! FILE = Some (before +:+ css_additions +:+ "</style>" +:+ after)
    /\ twice !! FILE
       = Some (before +:+ css_additions +:+ css_additions +:+ "</style>" +:+ after).
Proof.
  intros Hp Hc. cbv zeta. unfold main.
  rewrite (run_v24_main _ _ _ _ page Hp). cbn [fst].
  rewrite (run_v24_main _ _ _ _ (patches page)) by apply lookup_insert_eq.
  cbn [fst]. rewrite !lookup_insert_eq.
  destruct (style_text_last (form_text page)) as (before & after & Hf & Ha & Hpatch);
    [by rewrite form_text_style|].
  fold (patches page) in Hpatch.
  exists before, after. split_and!; [done|by rewrite Hpatch|]. f_equal.
  unfold patches at 1.
  assert (form_text (patches page) = patches page) as ->.
  { apply (replace_if_found_absent old_form_start new_form_start), patches_clean. }
  rewrite Hpatch.
  replace (before +:+ css_additions +:+ "</style>" +:+ after)
    with ((before +:+ css_additions) +:+ "</style>" +:+ after)
    by (by rewrite <- !append_assoc).
  rewrite style_text_at by done. by rewrite <- !append_assoc.
Qed.

Lemma index_html_second_run_repeats_css_witness :
  let fs : files := {[ FILE := "<style></style>" ]} in
  exists before after,
    (main "20260102120000" (main "20260101120000" fs).1).1 !! FILE
    = Some (before +:+ css_additions +:+ css_additions +:+ "</style>" +:+ after).
Proof.
  cbv zeta.
  destruct (index_html_second_run_repeats_css "20260101120000" "20260102120000"
              {[ FILE := "<style></style>" ]} "<style></style>")
    as (before & after & _ & _ & H).
  - apply lookup_singleton_eq.
  - reflexivity.
  - by exists before, after.
Defined.

End IndexHtmlFacts.

(** ** v30_frontend_patch.py: pages the patch does not fit *)

Section V30Misfit.
Import Py Sys V30 V30Text.

Lemma errors_set_html s m :
  contains "getCurrencySymbol" s = false ->
  errors s m <> [].
Proof.
  intros H. unfold errors. rewrite H. cbn [negb check].
  destruct (check _ _); discriminate.
Qed.

Lemma errors_minifig_html s m :
  contains "history.symbol" m = false ->
  errors s m <> [].
Proof.
  intros H. unfold errors. rewrite H. cbn [negb check].
  intros E. do 5 (apply app_eq_nil in E as [_ E]).
  apply app_eq_nil in E as [E _]. discriminate E.
Qed.

(** Where the new text starts with the old one, [replace] puts the rest
    of it in after every occurrence. *)
Lemma inserted_replace_from old piece skip s :
  old <> "" ->
  inserted piece (drop skip s) (replace_from old (old +:+ piece) skip s).
Proof.
  intros Hne. revert skip. induction s as [|c r IH]; intros skip.
  - destruct skip; constructor.
  - destruct skip as [|k]; [|apply IH]. cbn [replace_from drop].
    destruct (String.prefix old (String c r)) eqn:Hp;
      [|constructor; apply (IH 0%nat)].
    apply prefix_iff in Hp as [rest Hs]. destruct old as [|a old]; [done|].
    rewrite append_cons in Hs. injection Hs as -> ->.
    replace (String.length (String a old) - 1)%nat with (String.length old)
      by (simpl; lia).
    specialize (IH (String.length old)). rewrite drop_append in IH.
    rewrite append_assoc. rewrite <- (append_cons a old rest).
    by apply inserted_app, inserted_put.
Qed.

Lemma minifig_helper_code_absent p m :
  apart p (drop (String.length "let priceChart = null;") minifig_helper_code) = true ->
  contains p m = false ->
  contains p (replace "let priceChart = null;" minifig_helper_code m) = false.
Proof.
  intros Ha Hm.
  destruct (contains p (replace _ _ m)) eqn:H; [|done].
  eapply contains_inserted in H; [by rewrite Hm in H|apply Ha|].
  apply (inserted_replace_from "let priceChart = null;" _ 0%nat m). done.
Qed.

(** X26.  Where set.html has neither the chart variable the helper is
    hung on nor a [getCurrencySymbol] of its own, or minifig.html has
    neither the line that reads the history nor a [history.symbol], the
    checks of [verify_patches] cannot pass: [main] exits with status 1,
    both pages hold what they held before, and the two backups stay
    behind. *)
Theorem v30_main_fails_on_other_pages (fs : files) (s m : string) :
  fs !! set_html = Some s -> fs !! minifig_html = Some m ->
  (contains "let priceChart = null;" s = false
   /\ contains "getCurrencySymbol" s = false)
  \/ (contains "const history = await response.json();" m = false
      /\ contains "history.symbol" m = false) ->
  (main fs).2 = inl (SystemExit 1)
  /\ (main fs).1 !! set_html = Some s
  /\ (main fs).1 !! minifig_html = Some m
  /\ (main fs).1 !! set_html_bak = Some s
  /\ (main fs).1 !! minifig_html_bak = Some m.
Proof.
  intros Hs Hm Hcase. rewrite (run_v30_main fs s m Hs Hm).
  assert (errors (set_html_text s) (minifig_html_text m) <> []) as He.
  { destruct Hcase as [[Ha Hg]|[Hh Hy]].
    - apply errors_set_html. unfold set_html_text.
      rewrite (replace_absent _ _ s Ha).
      do 2 (apply replace_keeps_absent; [done|by vm_compute|]). done.
    - apply errors_minifig_html. unfold minifig_html_text.
      do 2 (apply replace_keeps_absent; [done|by vm_compute|]).
      rewrite (replace_absent "const history = await response.json();").
      + apply replace_keeps_absent; [done|by vm_compute|].
        apply minifig_helper_code_absent; [by vm_compute|done].
      + do 2 (apply replace_keeps_absent; [done|by vm_compute|]). done. }
  destruct (errors _ _) as [|e l]; [done|]. cbn [fst snd]. unfold patched.
  split_and!; [done|..].
  - rewrite lookup_insert_ne by paths_differ. apply lookup_insert_eq.
  - apply lookup_insert_eq.
  - rewrite !lookup_insert_ne by paths_differ. apply lookup_insert_eq.
  - rewrite !lookup_insert_ne by paths_differ. apply lookup_insert_eq.
Qed.

Lemma v30_main_fails_on_other_pages_witness :
  let fs : files := {[ set_html := "<html></html>"; minifig_html := "<html></html>" ]} in
  (main fs).2 = inl (SystemExit 1) /\ (main fs).1 !! set_html = Some "<html></html>".
Proof.
  cbv zeta.
  destruct (v30_main_fails_on_other_pages
              {[ set_html := "<html></html>"; minifig_html := "<html></html>" ]}
              "<html></html>" "<html></html>") as (H1 & H2 & _).
  - apply lookup_insert_eq.
  - rewrite lookup_insert_ne by paths_differ. apply lookup_singleton_eq.
  - left. split; reflexivity.
  - by split.
Defined.

End V30Misfit.

(** ** Runs in which a read or a write fails *)

Section TextIOFacts.
Import Py TextIO.

Lemma tio_bind_eq {A B} (m : tio A) (k : A -> tio B) (d : disk) :
  (m ≫= k) d = match m d with
               | (d', inr a) => k a d'
               | (d', inl e) => (d', inl e)
               end.
Proof. reflexivity. Qed.

Lemma run_store faults p c (d : disk) :
  faults p = None -> store faults p c d = (<[p := c]> d, inr tt).
Proof. intros H. unfold store. by rewrite H. Qed.

Lemma run_copy_bytes faults src dst c (d : disk) :
  d !! src = Some c -> copy faults src dst d = store faults dst c d.
Proof. intros H. unfold copy. by rewrite H. Qed.

Lemma run_read_text p s (d : disk) :
  d !! p = Some (Text s) -> read_text p d = (d, inr (universal_newlines s)).
Proof. intros H. unfold read_text. by rewrite H. Qed.

(** A failed write changes no other path. *)
Lemma store_other faults p c (d : disk) q :
  q <> p -> (store faults p c d).1 !! q = d !! q.
Proof.
  intros Hq. unfold store. destruct (faults p) as [[|n]|]; cbn [fst]; [done|..];
    by rewrite lookup_insert_ne.
Qed.

(** A step that leaves a path alone. *)
Lemma bind_other {A B} (m : tio A) (k : A -> tio B) (d : disk) q :
  (m d).1 !! q = d !! q -> (forall a d', (k a d').1 !! q = d' !! q) ->
  ((m ≫= k) d).1 !! q = d !! q.
Proof.
  intros Hm Hk. rewrite tio_bind_eq. destruct (m d) as [d' [e|a]]; [done|].
  by rewrite Hk.
Qed.

Lemma read_text_same p (d : disk) : (read_text p d).1 = d.
Proof. unfold read_text. by destruct (d !! p) as [[]|]. Qed.

(** A text without carriage return is read as it is, and no other is. *)
Lemma universal_newlines_id s :
  universal_newlines s = s <-> contains (String "013" "") s = false.
Proof.
  induction s as [|c r IH]; [done|].
  rewrite contains_cons. cbn [universal_newlines String.prefix].
  destruct (Ascii.eqb c "013") eqn:Hc.
  - apply Ascii.eqb_eq in Hc as ->. split; [by intros [=]|].
    destruct (ascii_dec "013" "013"); [|done]. by rewrite prefix_empty.
  - apply Ascii.eqb_neq in Hc.
    destruct (ascii_dec "013" c) as [<-|_]; [done|]. cbn [orb].
    rewrite <- IH. split; [by intros [= ->]|by intros ->].
Qed.

End TextIOFacts.

Section V30IOFacts.
Import Py TextIO V30IO.

(** A run that ended in an error of reading or writing: nothing is claimed
    of it, and it cannot happen where no write fails and the pages decode. *)
Ltac crashed :=
  match goal with Phi := _ |- _ => subst Phi end; cbv beta; cbn [fst snd];
  split_and!;
  [ intros ? [=]
  | intros ? [= <-]; by intros [=]
  | intros Hnf Hdec;
    first [ match goal with F : _ = Some Denied |- _ => by rewrite Hnf in F end
          | match goal with F : _ = Some (Cut _) |- _ => by rewrite Hnf in F end
          | exfalso; eapply Hdec; [eassumption|]; rewrite !elem_of_cons; tauto ] ].

(** C10, amended.  [main] keeps the two pages together in every run that
    ends by returning, by [sys.exit] or on a missing file: when it returns
    (status 0) both pages carry the patch and pass the checks, and when it
    ends in the other two ways both pages hold what they held before the
    run, a [sys.exit] being with status 1.  Such are all runs on a disk
    where no write fails and both pages decode.  Of a run that an error of
    reading or writing ends, nothing of the kind holds. *)
Theorem v30_main_all_or_nothing_unless_io_fails
    (faults : string -> option fault) (d : disk) :
  let result := main faults d in
  (forall n, result.2 = inr n -> n = 0 /\ both_patched d result.1)
  /\ (forall e, result.2 = inl e -> io_error e = false ->
        both_as_before d result.1
        /\ forall code, e = SystemExit code -> code = 1)
  /\ ((forall p, faults p = None) ->
      (forall p b, d !! p = Some (Undecodable b) ->
                   p ∉ [V30.set_html; V30.minifig_html]) ->
      match result.2 with
      | inl e => io_error e = false
      | inr _ => True
      end).
Proof.
  cbv zeta. pattern (main faults d).
  match goal with |- ?P _ => set (Phi := P) end.
  unfold main. rewrite tio_bind_eq. unfold exists_.
  destruct (d !! V30.set_html) as [cs|] eqn:Hs.
  2: { rewrite bool_decide_false by (by intros [? ?]).
       subst Phi. cbn [negb raise fst snd].
       split_and!; [intros ? [=]| |done].
       intros e [= <-] _. split; [done|]. by intros code [= <-]. }
  rewrite bool_decide_true by eauto. cbn [negb].
  (* the two backups *)
  rewrite tio_bind_eq, (run_copy_bytes _ _ _ cs) by done. unfold store at 1.
  destruct (faults V30.set_html_bak) as [[|n1]|] eqn:F1; [crashed..|].
  set (d1 := <[V30.set_html_bak := cs]> d).
  assert (H1s : d1 !! V30.set_html = Some cs)
    by (unfold d1; by rewrite lookup_insert_ne by paths_differ).
  assert (H1m : d1 !! V30.minifig_html = d !! V30.minifig_html)
    by (unfold d1; by rewrite lookup_insert_ne by paths_differ).
  rewrite tio_bind_eq. unfold copy at 1. rewrite H1m.
  destruct (d !! V30.minifig_html) as [cm|] eqn:Hm.
  2: { subst Phi. cbn [fst snd]. split_and!; [intros ? [=]| |done].
       intros e [= <-] _. split; [|by intros code [=]]. split; [|by rewrite H1m].
       by rewrite H1s. }
  unfold store at 1.
  destruct (faults V30.minifig_html_bak) as [[|n2]|] eqn:F2; [crashed..|].
  set (d2 := <[V30.minifig_html_bak := cm]> d1).
  assert (H2s : d2 !! V30.set_html = Some cs)
    by (unfold d2; by rewrite lookup_insert_ne by paths_differ).
  assert (H2m : d2 !! V30.minifig_html = Some cm)
    by (unfold d2; by rewrite lookup_insert_ne by paths_differ).
  (* set.html *)
  rewrite tio_bind_eq. unfold patch_set_html at 1. rewrite tio_bind_eq.
  unfold read_text at 1. rewrite H2s.
  destruct cs as [s|bs]; [|crashed].
  rewrite tio_bind_eq. unfold write_text at 1, store at 1.
  destruct (faults V30.set_html) as [[|n3]|] eqn:F3; [crashed..|].
  set (d3 := <[V30.set_html := Text (V30.set_html_text (universal_newlines s))]> d2).
  assert (H3m : d3 !! V30.minifig_html = Some cm)
    by (unfold d3; by rewrite lookup_insert_ne by paths_differ).
  (* minifig.html *)
  cbn [mret tio_ret].
  rewrite tio_bind_eq. unfold patch_minifig_html at 1. rewrite tio_bind_eq.
  unfold read_text at 1. rewrite H3m.
  destruct cm as [m|bm]; [|crashed].
  rewrite tio_bind_eq. unfold write_text at 1, store at 1.
  destruct (faults V30.minifig_html) as [[|n4]|] eqn:F4; [crashed..|].
  set (d4 := <[V30.minifig_html
               := Text (V30.minifig_html_text (universal_newlines m))]> d3).
  assert (H4s : d4 !! V30.set_html
                = Some (Text (V30.set_html_text (universal_newlines s))))
    by (unfold d4, d3; rewrite lookup_insert_ne by paths_differ;
        apply lookup_insert_eq).
  assert (H4m : d4 !! V30.minifig_html
                = Some (Text (V30.minifig_html_text (universal_newlines m))))
    by apply lookup_insert_eq.
  assert (H4sb : d4 !! V30.set_html_bak = Some (Text s))
    by (unfold d4, d3, d2, d1; rewrite !lookup_insert_ne by paths_differ;
        apply lookup_insert_eq).
  assert (H4mb : d4 !! V30.minifig_html_bak = Some (Text m))
    by (unfold d4, d3, d2; rewrite !lookup_insert_ne by paths_differ;
        apply lookup_insert_eq).
  (* the checks *)
  assert (Hv : verify_patches d4
               = (d4, inr (V30Text.errors
                    (universal_newlines (V30.set_html_text (universal_newlines s)))
                    (universal_newlines (V30.minifig_html_text (universal_newlines m)))))).
  { unfold verify_patches.
    by rewrite tio_bind_eq, (run_read_text _ _ _ H4s),
      tio_bind_eq, (run_read_text _ _ _ H4m). }
  cbn [mret tio_ret]. rewrite tio_bind_eq, Hv.
  destruct (V30Text.errors _ _) as [|err errs] eqn:He.
  - subst Phi. cbn [mret tio_ret fst snd]. split_and!; [|intros ? [=]|done].
    intros n [= <-]. split; [done|]. by exists s, m.
  - (* the way back *)
    rewrite tio_bind_eq, (run_copy_bytes _ _ _ _ _ H4sb), (run_store _ _ _ _ F3).
    rewrite tio_bind_eq, (run_copy_bytes _ _ _ (Text m)), (run_store _ _ _ _ F4)
      by (by rewrite lookup_insert_ne by paths_differ).
    subst Phi. cbn [raise fst snd]. split_and!; [intros ? [=]| |done].
    intros e [= <-] _. split; [|by intros code [= <-]]. split.
    + rewrite lookup_insert_ne by paths_differ. rewrite Hs. apply lookup_insert_eq.
    + rewrite Hm. apply lookup_insert_eq.
Qed.

(** The patch on the sample pages, no write failing: it returns with both
    pages patched. *)
Lemma v30_main_all_or_nothing_unless_io_fails_witness :
  (main no_faults sample_disk).2 = inr 0
  /\ both_patched sample_disk (main no_faults sample_disk).1.
Proof.
  destruct (v30_main_all_or_nothing_unless_io_fails no_faults sample_disk)
    as (Hreturned & _ & _).
  assert (Hrun : (main no_faults sample_disk).2 = inr 0) by (by vm_compute).
  split; [exact Hrun|]. exact (proj2 (Hreturned 0 Hrun)).
Defined.

(** C10, as the claim states it, fails.  [main] catches nothing and rolls
    back only after the checks.  On a disk where minifig.html does not
    decode, [patch_set_html] has written set.html when [patch_minifig_html]
    raises: the run ends with set.html patched and minifig.html not.  The
    same where the write of minifig.html fails after the file was emptied:
    set.html is patched, minifig.html is empty. *)
Lemma v30_main_leaves_a_mix :
  let undecoded := main no_faults garbled_disk in
  let unwritten := main (fails_at V30.minifig_html (Cut 0)) sample_disk in
  undecoded.2 = inl (UnicodeDecodeError V30.minifig_html)
  /\ garbled_disk !! V30.set_html = Some (Text V30.sample_page)
  /\ undecoded.1 !! V30.set_html
     = Some (Text (V30.set_html_text V30.sample_page))
  /\ String.eqb (V30.set_html_text V30.sample_page) V30.sample_page = false
  /\ undecoded.1 !! V30.minifig_html = garbled_disk !! V30.minifig_html
  /\ unwritten.2 = inl (OSError V30.minifig_html)
  /\ unwritten.1 !! V30.set_html
     = Some (Text (V30.set_html_text V30.sample_page))
  /\ unwritten.1 !! V30.minifig_html = Some (Text "").
Proof.
  cbv zeta. split_and!; by vm_compute.
Qed.

End V30IOFacts.

Section NotifPrefsIOFacts.
Import Py TextIO NotifPrefsIO.

(** The content before the run is on disk: by the file, or by its backup. *)
Ltac kept :=
  match goal with Phi := _ |- _ => subst Phi end; cbv beta;
  cbn [mret tio_ret fst snd];
  split;
  first [ left; rewrite ?lookup_insert_ne by paths_differ; done
        | right; eexists; split; [first [reflexivity|eassumption]|];
          rewrite ?lookup_insert_ne by paths_differ; apply lookup_insert_eq ].

(** patch-notification-prefs.py writes each backup from the text it has
    read: what is kept of a file is its text with [\n] line ends. *)
Lemma notif_prefs_script_keeps_text faults html_patches users_ts_patches (d : disk) :
  let after := (script faults html_patches users_ts_patches d).1 in
  keeps_text d after NotifPrefs.index_html NotifPrefs.index_bak
  /\ keeps_text d after NotifPrefs.users_ts NotifPrefs.users_bak.
Proof.
  cbv zeta. unfold keeps_text.
  pattern (script faults html_patches users_ts_patches d).
  match goal with |- ?P _ => set (Phi := P) end.
  unfold script. rewrite tio_bind_eq. unfold read_text at 1.
  destruct (d !! NotifPrefs.index_html) as [[html|bytes]|] eqn:Hh; [|kept..].
  rewrite tio_bind_eq. unfold write_text at 1, store at 1.
  destruct (faults NotifPrefs.index_bak) as [[|n1]|] eqn:F1; [kept..|].
  rewrite tio_bind_eq. unfold write_text at 1, store at 1.
  destruct (faults NotifPrefs.index_html) as [[|n2]|] eqn:F2; [kept..|].
  rewrite tio_bind_eq. unfold read_text at 1.
  rewrite !lookup_insert_ne by paths_differ.
  destruct (d !! NotifPrefs.users_ts) as [[users|bytes]|] eqn:Hu; [|kept..].
  rewrite tio_bind_eq. unfold write_text at 1, store at 1.
  destruct (faults NotifPrefs.users_bak) as [[|n3]|] eqn:F3; [kept..|].
  rewrite tio_bind_eq. unfold write_text at 1, store at 1.
  destruct (faults NotifPrefs.users_ts) as [[|n4]|] eqn:F4; kept.
Qed.

End NotifPrefsIOFacts.

Section BackupClaim.
Import Py Sys.

(** C6, amended.  Every script but fix_password_reset_js.py leaves, for each
    file it rewrites, the content from before the run on disk: the file is
    as it was, or its backup holds what it was.  The backup's name carries
    a time stamp for patch-index-html.py, patch-app-js.py and apply-seo.py;
    for v29_patch.py and v30_frontend_patch.py it is the path with
    [.bak.v29], for patch-notification-prefs.py with [.bak.notifprefs], for
    patch_password_reset.py with [.backup].  patch-notification-prefs.py
    does not copy the file: it writes the backup from the text it has read,
    so its backup holds that text with [\n] for every line end, which is
    the file as it was exactly when the file had no carriage return; this
    holds whichever of its writes fail. *)
Theorem backups_hold_the_original :
  (forall (fs : files) p, p ∈ V29.targets ->
     keeps_original fs (V29.main fs).1 p (p +:+ ".bak.v29"))
  /\ (forall fs : files,
        keeps_original fs (V30.main fs).1 V30.set_html (V30.set_html +:+ ".bak.v29")
        /\ keeps_original fs (V30.main fs).1 V30.minifig_html
             (V30.minifig_html +:+ ".bak.v29"))
  /\ (forall FILE patches stamp (fs : files),
        keeps_original fs (V24.main FILE patches stamp fs).1
          FILE (FILE +:+ ".bak." +:+ stamp))
  /\ (forall replace_head stamp (fs : files),
        keeps_original fs (Seo.main replace_head stamp fs).1
          Seo.INDEX_FILE (Seo.INDEX_FILE +:+ ".backup-seo-" +:+ stamp))
  /\ (forall faults html_patches users_ts_patches (d : TextIO.disk),
        let after :=
          (NotifPrefsIO.script faults html_patches users_ts_patches d).1 in
        TextIO.keeps_text d after
          "public/index.html" "public/index.html.bak.notifprefs"
        /\ TextIO.keeps_text d after
             "src/routes/users.ts" "src/routes/users.ts.bak.notifprefs")
  /\ (forall s, TextIO.universal_newlines s = s
                <-> contains (String "013" "") s = false)
  /\ (forall fs : files,
        keeps_original fs (PasswordReset.main fs).1
          PasswordReset.INDEX_PATH (PasswordReset.INDEX_PATH +:+ ".backup")).
Proof.
  split_and!.
  - intros fs p Hp. by apply v29_main_backs_up.
  - apply v30_main_backs_up.
  - intros FILE patches stamp fs. apply v24_main_backs_up.
  - intros replace_head stamp fs. apply seo_main_backs_up.
  - apply notif_prefs_script_keeps_text.
  - apply universal_newlines_id.
  - apply password_reset_main_backs_up.
Qed.

(** v29_patch.py on a disk with its five files: set.html is rewritten and
    its backup holds the page as it was.  patch-notification-prefs.py on a
    page with Windows line ends: the backup holds the page with [\n]. *)
Lemma backups_hold_the_original_witness :
  let fs0 : files :=
    {[ V29.index_html := "<html></html>"; V29.app_js := "let a;";
       V29.watches_ts := "const router = Router();";
       V29.set_html := "openModal('login')"; V29.minifig_html := "<html></html>" ]} in
  let after := (V29.main fs0).1 in
  let windows :=
    (NotifPrefsIO.script TextIO.no_faults id id NotifPrefsIO.crlf_disk).1 in
  V29.set_html ∈ V29.targets
  /\ after !! V29.set_html = Some "openModal('signup')"
  /\ after !! (V29.set_html +:+ ".bak.v29") = Some "openModal('login')"
  /\ windows !! "public/index.html.bak.notifprefs"
     = Some (TextIO.Text ("<html>" +:+ nl +:+ "</html>")).
Proof.
  cbv zeta.
  destruct backups_hold_the_original as (Hv29 & _ & _ & _ & Hnp & _).
  assert (Hin : V29.set_html ∈ V29.targets).
  { unfold V29.targets. rewrite !elem_of_cons. tauto. }
  set (fs0 := ({[ V29.index_html := "<html></html>"; V29.app_js := "let a;";
       V29.watches_ts := "const router = Router();";
       V29.set_html := "openModal('login')";
       V29.minifig_html := "<html></html>" ]} : files)).
  assert (Hset : (V29.main fs0).1 !! V29.set_html = Some "openModal('signup')").
  { rewrite run_v29_main by (vm_compute; eauto). cbn [fst].
    destruct (after_main_targets fs0) as (_ & _ & _ & -> & _).
    vm_compute. reflexivity. }
  split; [exact Hin|]. split; [exact Hset|]. split.
  - destruct (Hv29 fs0 V29.set_html Hin) as [Hsame|Hbak].
    + rewrite Hset in Hsame. vm_compute in Hsame. discriminate Hsame.
    + rewrite Hbak. vm_compute. reflexivity.
  - destruct (Hnp TextIO.no_faults id id NotifPrefsIO.crlf_disk) as [[Hsame|Hbak] _].
    + vm_compute in Hsame. discriminate Hsame.
    + destruct Hbak as (s & Hs & ->). vm_compute in Hs. injection Hs as <-.
      vm_compute. reflexivity.
Defined.

End BackupClaim.
